(** * RAM Concept client library: bracket strings, property access, transport

    A shallow embedding of the core of the [ram_concept] Python package:
    - [bracket_parser.py]  (class [BracketParser]),
    - [utilities.py]       (string validation, number conversion, [_bulk_set]),
    - [concept.py]         ([Concept._command], the HTTP envelope),
    - [data.py]            (class [Data], generic property access),
    - [model.py]           ([Model._get_data], the creation of [Data] objects),
    - [add_property.py]    (the property constructors),
    - [point_2D.py], [point_load.py], [cad_entity.py], [cad_layer.py],
      [force_loading_layer.py] (bulk creation of point loads),
    - [line_segment_2D.py], [polygon_2D.py] (locations of CAD entities),
    - [loading_layer.py]   (loading causes, loading types, the loading type
      of a layer).

    Python [str] values are modelled as lists of characters; characters are
    [ascii] (code points below 256).  Python [int] values are [Z], floats are
    primitive binary64 floats.  Exceptions are values of [exn]; a computation
    returns an [outcome], and code that talks to the RAM Concept process runs
    in the monad [concept.M] over the [Concept] object. *)

From Stdlib Require Import Ascii String.
From Stdlib Require Import List ZArith Lia Bool PrimFloat.
From Stdlib Require Import DecimalString DecimalZ Sorted.
Import ListNotations.

Local Open Scope Z_scope.

(* ------------------------------------------------------------------------- *)
(** ** Python strings *)

Definition str := list ascii.

(** A Python string literal. *)
Definition py (s : string) : str := list_ascii_of_string s.

Definition py_len (s : str) : Z := Z.of_nat (length s).

(** [a == b] *)
Fixpoint str_eqb (a b : str) : bool :=
  match a, b with
  | [], [] => true
  | x :: a', y :: b' => Ascii.eqb x y && str_eqb a' b'
  | _, _ => false
  end.

(** [x in s] for a one-character [x]. *)
Definition py_in (c : ascii) (s : str) : bool := existsb (Ascii.eqb c) s.

(** Index normalisation of slices and of [find]: a negative index counts from
    the end, and is clamped at 0. *)
Definition norm_index (n i : Z) : Z :=
  if i <? 0 then Z.max 0 (i + n) else i.

(** [s[a:b]] *)
Definition py_slice (s : str) (a b : Z) : str :=
  let n := py_len s in
  let a' := Z.min (norm_index n a) n in
  let b' := Z.min (norm_index n b) n in
  firstn (Z.to_nat (b' - a')) (skipn (Z.to_nat a') s).

(** [s[:b]] *)
Definition py_slice_to (s : str) (b : Z) : str := py_slice s 0 b.

(** [find_from r c i]: index of the first [c] in [r], whose head has index [i];
    -1 when there is none. *)
Fixpoint find_from (r : str) (c : ascii) (i : Z) : Z :=
  match r with
  | [] => -1
  | x :: r' => if Ascii.eqb x c then i else find_from r' c (i + 1)
  end.

(** [s.find(c, start)] for a one-character needle [c]. *)
Definition py_find (s : str) (c : ascii) (start : Z) : Z :=
  let n := py_len s in
  let st := norm_index n start in
  if n <? st then -1 else find_from (skipn (Z.to_nat st) s) c st.

(** [str(n)] for an [int]: the decimal numeral, with a minus sign. *)
Definition str_of_int (z : Z) : str :=
  list_ascii_of_string (NilZero.string_of_int (Z.to_int z)).

(** [sys.maxsize] of a 64-bit CPython; no string is longer. *)
Definition sys_maxsize : Z := 2 ^ 63 - 1.

(* ------------------------------------------------------------------------- *)
(** ** Exceptions and outcomes *)

Inductive exn : Type :=
| Exception (msg : str)        (* raise Exception(msg) *)
| AssertionError               (* a failed assert *)
| ValueError (what : str)      (* int(...) or float(...) of a bad string *)
| AttributeError (name : str)  (* getattr/setattr of a missing attribute *)
| TypeError (what : str)       (* an operation on a value of the wrong type *)
| RequestException (why : str) (* raised by requests.post / raise_for_status *).

(** The result of running a piece of code: a value, an exception, or [Diverge]
    when a [while(True)] loop was cut off by its iteration bound. *)
Inductive outcome (A : Type) : Type :=
| Ok (a : A)
| Raise (e : exn)
| Diverge.
Arguments Ok {A} a.
Arguments Raise {A} e.
Arguments Diverge {A}.

Definition obind {A B} (m : outcome A) (k : A -> outcome B) : outcome B :=
  match m with
  | Ok a => k a
  | Raise e => Raise e
  | Diverge => Diverge
  end.

Declare Scope outcome_scope.
Delimit Scope outcome_scope with outcome.
Notation "x <- m ;; k" := (obind m (fun x => k))
  (at level 61, m at next level, right associativity) : outcome_scope.
Notation "' p <- m ;; k" := (obind m (fun x => let p := x in k))
  (at level 61, p pattern, m at next level, right associativity) : outcome_scope.
Local Open Scope outcome_scope.

(* ------------------------------------------------------------------------- *)
(** ** Python values *)

(** The [Data] object ([data.py]): [__slots__ = ["_model", "_read_only",
    "_uid"]], and the name of its class.  [_model] identifies the [Model]
    object. *)
Record Data : Type := {
  _uid : Z;
  _model : Z;
  _read_only : bool;
  class_name : str
}.

(** The values that reach the property setters. *)
Inductive pyval : Type :=
| PyNone
| PyBool (b : bool)
| PyInt (z : Z)
| PyFloat (f : float)
| PyStr (s : str)
| PyPoint2D (x y : float)
| PyData (d : Data)
| PyEnum (enum_class member : str) (value : pyval).

(** The builtins of the Python runtime that the package calls and that are
    kept abstract: the conversions between numbers and their texts, and the
    text of an object without [__repr__].  [None] stands for the exception of
    the builtin. *)
Record runtime : Type := {
  float_of_str : str -> option float;   (* float(s) *)
  float_of_int : Z -> option float;     (* float(n) *)
  str_of_float : float -> str;          (* str(x), repr(x) *)
  int_of_float : float -> option Z;     (* int(x) *)
  int_of_str : str -> option Z;         (* int(s) *)
  repr_object : Data -> str             (* str(d) *)
}.

(** [float(value)] *)
Definition py_float (rt : runtime) (value : pyval) : option float :=
  match value with
  | PyFloat f => Some f
  | PyInt z => float_of_int rt z
  | PyBool b => Some (if b then 1 else 0)%float
  | PyStr s => float_of_str rt s
  | _ => None
  end.

(** [int(value)] *)
Definition py_int (rt : runtime) (value : pyval) : option Z :=
  match value with
  | PyInt z => Some z
  | PyBool b => Some (if b then 1 else 0)
  | PyFloat f => int_of_float rt f
  | PyStr s => int_of_str rt s
  | _ => None
  end.

(** [bool(value)] *)
Definition py_bool (value : pyval) : bool :=
  match value with
  | PyNone => false
  | PyBool b => b
  | PyInt z => negb (z =? 0)
  | PyFloat f => negb (f =? 0)%float
  | PyStr s => negb (str_eqb s [])
  | _ => true
  end.

(** [str(value)] *)
Definition py_str (rt : runtime) (value : pyval) : str :=
  match value with
  | PyNone => py "None"
  | PyBool b => if b then py "True" else py "False"
  | PyInt z => str_of_int z
  | PyFloat f => str_of_float rt f
  | PyStr s => s
  | PyPoint2D x y =>
      py "Point2D(" ++ str_of_float rt x ++ py ", " ++ str_of_float rt y ++ py ")"
  | PyData d => repr_object rt d
  | PyEnum enum_class member _ => enum_class ++ py "." ++ member
  end.

(* ------------------------------------------------------------------------- *)
(** ** concept.py: the command channel *)

Module concept.

(** What [requests.post] and [raise_for_status] leave: the text of the
    response, or an exception of the [requests] library (time-out, refused
    connection, status other than 2xx). *)
Inductive http_reply : Type :=
| HttpText (text : str)
| HttpFault (why : str).

(** A request as the RAM Concept process receives it: the [RequestId] header
    and the body.  (The body is the UTF-8 encoding of the command; the model
    keeps the command.) *)
Definition request : Type := (Z * str)%type.

(** The RAM Concept process seen from the client: its reply to a request,
    given the requests it received before, oldest first. *)
Definition process : Type := list request -> request -> http_reply.

(** The [Concept] object: [_nextRequestId] and, as a record of what went over
    the wire, the requests posted so far, oldest first. *)
Record Concept : Type := {
  _nextRequestId : Z;
  posted : list request
}.

(** Code that runs against a [Concept]: it ends in an outcome and leaves the
    object in a new state, also when it raises. *)
Definition M (A : Type) : Type := Concept -> outcome A * Concept.

Definition ret {A} (a : A) : M A := fun c => (Ok a, c).

Definition raise {A} (e : exn) : M A := fun c => (Raise e, c).

Definition lift {A} (o : outcome A) : M A := fun c => (o, c).

Definition bind {A B} (m : M A) (k : A -> M B) : M B :=
  fun c =>
    match m c with
    | (Ok a, c') => k a c'
    | (Raise e, c') => (Raise e, c')
    | (Diverge, c') => (Diverge, c')
    end.

(** [try: body / except Exception: handler; raise]: the handler runs when the
    body raises, then the exception of the body is raised again, unless the
    handler raises itself. *)
Definition try_except_reraise {A} (body : M A) (handler : M unit) : M A :=
  fun c =>
    match body c with
    | (Raise e, c') =>
        match handler c' with
        | (Ok _, c'') => (Raise e, c'')
        | (Raise e', c'') => (Raise e', c'')
        | (Diverge, c'') => (Diverge, c'')
        end
    | r => r
    end.

(** The last lines of [Concept._command] (lines 287-299): the envelope of the
    response text. *)
Definition unwrap (result : str) : outcome str :=
  let prefix := py_slice_to result 10 in
  if str_eqb prefix (py "[SUCCESS][") then Ok (py_slice result 10 (-1))
  else if str_eqb prefix (py "[FAILURE][") then
    Raise (Exception (py "Error: " ++ py_slice result 10 (-1)))
  else
    Raise (Exception
             (py "Internal Error: Invalid result returned from Concept process: "
                 ++ result)).

(** [Concept._command]: one POST, then the envelope.  (The time-out only
    decides when [requests.post] gives up, which is a fault of the reply.) *)
Definition _command (server : process) (cmd : str) : M str :=
  fun self =>
    let requestId := _nextRequestId self in
    let self' := {| _nextRequestId := requestId + 1;
                    posted := posted self ++ [(requestId, cmd)] |} in
    match server (posted self) (requestId, cmd) with
    | HttpFault why => (Raise (RequestException why), self')
    | HttpText result => (unwrap result, self')
    end.

End concept.

Declare Scope M_scope.
Delimit Scope M_scope with M.
Notation "x <- m ;; k" := (concept.bind m (fun x => k))
  (at level 61, m at next level, right associativity) : M_scope.

(* ------------------------------------------------------------------------- *)
(** ** utilities.py *)

Module utilities.

(** [sys.float_info.max], the largest finite double. *)
Definition float_info_max : float := 0x1.fffffffffffffp+1023%float.

(** [_raise_if_invalid_string_property_value] *)
Definition _raise_if_invalid_string_property_value (value : str) : outcome unit :=
  if py_in "["%char value then
    Raise (Exception (py "String property values cannot contain '['."))
  else if py_in "]"%char value then
    Raise (Exception (py "String property values cannot contain ']'."))
  else Ok tt.

Section Builtins.
(** Python's [float(s)] on a string: [None] stands for its [ValueError]. *)
Variable float_of_str : str -> option float.

(** [_user_str_to_API_float] *)
Definition _user_str_to_API_float (value : str) : outcome float :=
  if str_eqb value (py "infinite") then Ok float_info_max
  else if str_eqb value (py "-infinite") then Ok (- float_info_max)%float
  else match float_of_str value with
       | Some f => Ok f
       | None => Raise (ValueError value)
       end.
End Builtins.

(** [_API_float_to_user_str] *)
Definition _API_float_to_user_str (rt : runtime) (value : pyval) : outcome str :=
  match py_float rt value with
  | None => Raise (Exception (py "Not a valid float value: " ++ py_str rt value))
  | Some float_value =>
      if (float_value =? float_info_max)%float then Ok (py "infinite")
      else if (float_value =? - float_info_max)%float then Ok (py "-infinite")
      else Ok (str_of_float rt float_value)
  end.

(** [_API_int_to_user_str] *)
Definition _API_int_to_user_str (rt : runtime) (value : pyval) : outcome str :=
  match py_int rt value with
  | None => Raise (Exception (py "Not a valid int value: " ++ py_str rt value))
  | Some int_value => Ok (str_of_int int_value)
  end.

(** [_API_bool_to_user_str] *)
Definition _API_bool_to_user_str (rt : runtime) (value : pyval) : outcome str :=
  Ok (py_str rt (PyBool (py_bool value))).

(** The loop of [_bulk_set]. *)
Fixpoint bulk_set_loop (setattr : option Data -> str -> pyval -> concept.M unit)
  (entities : list (option Data)) (property_name : str) (values : list pyval)
  : concept.M unit :=
  match entities, values with
  | entity :: entities', value :: values' =>
      (_ <- setattr entity property_name value ;;
       bulk_set_loop setattr entities' property_name values')%M
  | _, _ => concept.ret tt
  end.

(** [_bulk_set]; [setattr] is the builtin, which goes by the class of the
    entity. *)
Definition _bulk_set (setattr : option Data -> str -> pyval -> concept.M unit)
  (entities : list (option Data)) (property_name : str)
  (values : option (list pyval)) : concept.M unit :=
  match values with
  | None => concept.ret tt
  | Some values =>
      if negb (Nat.eqb (length entities) (length values)) then
        concept.raise
          (Exception (py "The number of entities and values to set must be equal."))
      else bulk_set_loop setattr entities property_name values
  end.

End utilities.

(* ------------------------------------------------------------------------- *)
(** ** bracket_parser.py *)

Module BracketParser.

(** The two tags are one-character strings: [len(cls.START_TAG)] and
    [len(cls.END_TAG)] are 1 below, and [find] looks for one character. *)
Definition START_TAG : ascii := "["%char.
Definition END_TAG : ascii := "]"%char.

(** One pass through the body of a [while(True)] loop. *)
Inductive iteration (S R : Type) : Type :=
| Return (r : R)
| Continue (s : S).
Arguments Return {S R} r.
Arguments Continue {S R} s.

(** [while(True): body], cut off after [fuel] iterations. *)
Fixpoint while_true {S R} (fuel : nat) (body : S -> iteration S R) (s : S)
  : option R :=
  match fuel with
  | O => None
  | Datatypes.S fuel' =>
      match body s with
      | Return r => Some r
      | Continue s' => while_true fuel' body s'
      end
  end.

(** Body of the loop of [matching_end_tag_index] (lines 160-181); the loop
    state is [(current_index, nesting_level)]. *)
Definition matching_body (parse_string : str) (st : Z * Z) : iteration (Z * Z) Z :=
  let '(current_index, nesting_level) := st in
  let start_tag_index := py_find parse_string START_TAG current_index in
  let end_tag_index := py_find parse_string END_TAG current_index in
  if end_tag_index =? -1 then Return (-1)
  else
    let start_tag_index :=
      if start_tag_index =? -1 then sys_maxsize else start_tag_index in
    if start_tag_index <? end_tag_index then
      Continue (start_tag_index + 1, nesting_level + 1)
    else
      let nesting_level := nesting_level - 1 in
      if nesting_level =? 0 then Return end_tag_index
      else Continue (end_tag_index + 1, nesting_level).

Definition matching_loop (fuel : nat) (parse_string : str) (st : Z * Z) : option Z :=
  while_true fuel (matching_body parse_string) st.

(** [BracketParser.matching_end_tag_index] *)
Definition matching_end_tag_index (parse_string : str) (start_tag_index : Z)
  : outcome Z :=
  if negb (str_eqb (py_slice parse_string start_tag_index (start_tag_index + 1))
                   [START_TAG])
  then Raise AssertionError
  else
    match matching_loop (S (length parse_string)) parse_string
                        (start_tag_index + 1, 1) with
    | Some r => Ok r
    | None => Diverge
    end.

(** The parser object: [__slots__ = ["_current_position", "_parse_string"]]. *)
Record parser : Type := {
  _parse_string : str;
  _current_position : Z
}.

Definition __init__ (parse_string : str) : parser :=
  {| _parse_string := parse_string; _current_position := 0 |}.

(** [has_next_token] *)
Definition has_next_token (self : parser) : outcome bool :=
  if py_len (_parse_string self) - _current_position self =? 0 then Ok false
  else if negb (py_find (_parse_string self) START_TAG (_current_position self)
                =? _current_position self)
  then Raise (Exception (py "Unexpected state in BracketString (not at a start tag)"))
  else
    endTagIndex <- matching_end_tag_index (_parse_string self)
                                          (_current_position self) ;;
    if endTagIndex =? -1
    then Raise (Exception (py "Unexpected state in BracketString (missing end tag)"))
    else Ok true.

(** [next_token]: the token and the advanced parser. *)
Definition next_token (self : parser) : outcome (str * parser) :=
  let start_tag_index := _current_position self in
  if negb (start_tag_index
           =? py_find (_parse_string self) START_TAG (_current_position self))
  then Raise AssertionError
  else
    end_tag_index <- matching_end_tag_index (_parse_string self) start_tag_index ;;
    if negb (end_tag_index >? -1) then Raise AssertionError
    else
      let token_string :=
        py_slice (_parse_string self) (start_tag_index + 1) end_tag_index in
      Ok (token_string,
          {| _parse_string := _parse_string self;
             _current_position := end_tag_index + 1 |}).

(** [skip_token] *)
Definition skip_token (self : parser) : outcome (bool * parser) :=
  let start_tag_index := _current_position self in
  if negb (start_tag_index
           =? py_find (_parse_string self) START_TAG (_current_position self))
  then Raise AssertionError
  else
    end_tag_index <- matching_end_tag_index (_parse_string self) start_tag_index ;;
    if end_tag_index <=? -1 then Ok (false, self)
    else Ok (true, {| _parse_string := _parse_string self;
                      _current_position := end_tag_index + 1 |}).

(** The loop of [count_remaining_tokens]. *)
Fixpoint count_loop (fuel : nat) (p : parser) (token_count : Z) : outcome Z :=
  match fuel with
  | O => Diverge
  | S fuel' =>
      more <- has_next_token p ;;
      if more then
        ' (_, p') <- skip_token p ;;
        count_loop fuel' p' (token_count + 1)
      else Ok token_count
  end.

(** [count_remaining_tokens]: the position is saved and restored, so the
    parser is left as it was. *)
Definition count_remaining_tokens (self : parser) : outcome Z :=
  count_loop (S (length (_parse_string self))) self 0.

(** The [while(True)] loop of [is_valid_parse_string] (lines 129-143). *)
Fixpoint valid_loop (fuel : nat) (parse_string : str) (start_tag_index : Z)
  : outcome bool :=
  match fuel with
  | O => Diverge
  | S fuel' =>
      end_tag_index <- matching_end_tag_index parse_string start_tag_index ;;
      if end_tag_index =? -1 then Ok false
      else
        let expected_start_tag_index := end_tag_index + 1 in
        if expected_start_tag_index >=? py_len parse_string then Ok true
        else
          let start_tag_index :=
            py_find parse_string START_TAG expected_start_tag_index in
          if negb (start_tag_index =? expected_start_tag_index) then Ok false
          else valid_loop fuel' parse_string start_tag_index
  end.

(** [BracketParser.is_valid_parse_string] *)
Definition is_valid_parse_string (parse_string : str) : outcome bool :=
  if py_len parse_string =? 0 then Ok true
  else if negb (py_find parse_string START_TAG 0 =? 0) then Ok false
  else valid_loop (S (length parse_string)) parse_string 0.

(** The [while(parser.has_next_token())] loop of [parse]. *)
Fixpoint parse_loop (fuel : nat) (p : parser) (tokens : list str)
  : outcome (list str) :=
  match fuel with
  | O => Diverge
  | S fuel' =>
      more <- has_next_token p ;;
      if more then
        ' (token, p') <- next_token p ;;
        parse_loop fuel' p' (tokens ++ [token])
      else Ok tokens
  end.

(** [BracketParser.parse] *)
Definition parse (string_to_parse : str) : outcome (list str) :=
  valid <- is_valid_parse_string string_to_parse ;;
  if negb valid then
    Raise (Exception (py "'" ++ string_to_parse
                         ++ py "' is not a valid bracket string"))
  else parse_loop (S (length string_to_parse)) (__init__ string_to_parse) [].

(** [for string in strings: float_list.append(...)] *)
Fixpoint floats_loop (float_of_str : str -> option float) (strings : list str)
  (float_list : list float) : outcome (list float) :=
  match strings with
  | [] => Ok float_list
  | string :: strings' =>
      f <- utilities._user_str_to_API_float float_of_str string ;;
      floats_loop float_of_str strings' (float_list ++ [f])
  end.

(** [BracketParser.parse_floats] *)
Definition parse_floats (float_of_str : str -> option float)
  (string_to_parse : str) : outcome (list float) :=
  strings <- parse string_to_parse ;;
  floats_loop float_of_str strings [].

End BracketParser.

(* ------------------------------------------------------------------------- *)
(** ** point_2D.py *)

Module Point2D.

(** [to_bracket_string]: the point in [[x][y]] format. *)
Definition to_bracket_string (rt : runtime) (x y : float) : str :=
  py "[" ++ str_of_float rt x ++ py "][" ++ str_of_float rt y ++ py "]".

(** [to_point_list_bracket_string]: the point in [[[x][y]]] format. *)
Definition to_point_list_bracket_string (rt : runtime) (x y : float) : str :=
  py "[" ++ to_bracket_string rt x y ++ py "]".

(** [from_bracket_string] *)
Definition from_bracket_string (rt : runtime) (bracket_string : str)
  : outcome pyval :=
  let parser := BracketParser.__init__ bracket_string in
  n <- BracketParser.count_remaining_tokens parser ;;
  if negb (n =? 2) then
    Raise (Exception (py "Invalid Point2D bracket string: " ++ bracket_string))
  else
    ' (tx, parser) <- BracketParser.next_token parser ;;
    match float_of_str rt tx with
    | None => Raise (ValueError tx)
    | Some x =>
        ' (ty, parser) <- BracketParser.next_token parser ;;
        match float_of_str rt ty with
        | None => Raise (ValueError ty)
        | Some y => Ok (PyPoint2D x y)
        end
    end.

End Point2D.

(* ------------------------------------------------------------------------- *)
(** ** data.py, and the object creation of model.py *)

Module data.
Import concept.
Local Open Scope M_scope.

Inductive _PropertyUnits : Type := Internal | User.

(** A class as [isinstance] and error messages use it. *)
Record py_class : Type := {
  class_repr : str;               (* str(cls) *)
  isinstance : pyval -> bool      (* isinstance(value, cls) *)
}.

(** [PointLoad(uid, model)]: the constructors up to [Data.__init__] only set
    the three slots. *)
Definition PointLoad (uid model : Z) : Data :=
  {| _uid := uid; _model := model; _read_only := false;
     class_name := py "PointLoad" |}.

(** The classes of the package other than [PointLoad], which are kept
    abstract: their constructors, their attributes and their [delete]. *)
Record package : Type := {
  construct : str -> Z -> Z -> M Data;          (* by type name: cls(uid, model) *)
  other_setattr : Data -> str -> pyval -> M unit;
  other_delete : Data -> M unit
}.

Section WithProcess.
Variable rt : runtime.
Variable pkg : package.
Variable server : process.

(** [Data._class_name] *)
Definition _class_name (self : Data) : str := class_name self.

(** [Data._set_property_raise_if_read_only] *)
Definition _set_property_raise_if_read_only (self : Data) : outcome unit :=
  if _read_only self then
    Raise (Exception (py "Cannot set properties of read-only "
                         ++ _class_name self ++ py "."))
  else Ok tt.

(** [Data._operation_raise_if_read_only] *)
Definition _operation_raise_if_read_only (self : Data) (operation : str)
  : outcome unit :=
  if _read_only self then
    Raise (Exception (py "Cannot " ++ operation ++ py "with read-only "
                         ++ _class_name self ++ py "."))
  else Ok tt.

(** [Data._command], through [Model._command] *)
Definition _command (self : Data) (cmd : str) : M str :=
  let full_command :=
    py "[WITH_TARGET][" ++ str_of_int (_uid self) ++ py "][" ++ cmd ++ py "]" in
  concept._command server full_command.

(** [Data._delete] *)
Definition _delete (self : Data) : M unit :=
  _ <- _command self (py "[DELETE]") ;; ret tt.

(** [Model._get_data_from_uid]: the type name decides the class. *)
Definition _get_data_from_uid (model uid : Z) : M Data :=
  let cmd := py "[WITH_TARGET][" ++ str_of_int uid ++ py "][[GET_TYPE]]" in
  data_type <- concept._command server cmd ;;
  if str_eqb data_type (py "PointLoad") then ret (PointLoad uid model)
  else construct pkg data_type uid model.

(** [Model._get_data_from_key] *)
Definition _get_data_from_key (model : Z) (key : str) : M Data :=
  let cmd := py "[GET_UID_FOR_KEY][" ++ key ++ py "]" in
  stringUid <- concept._command server cmd ;;
  match int_of_str rt stringUid with
  | None => raise (ValueError stringUid)
  | Some uid => _get_data_from_uid model uid
  end.

(** [Model._get_data]: [None] for the empty string. *)
Definition _get_data (model : Z) (uid_or_key : str) : M (option Data) :=
  if py_len uid_or_key =? 0 then ret None
  else if str_eqb (py_slice uid_or_key 0 1) (py "$") then
    d <- _get_data_from_key model uid_or_key ;; ret (Some d)
  else
    match int_of_str rt uid_or_key with
    | None => raise (ValueError uid_or_key)
    | Some uid => d <- _get_data_from_uid model uid ;; ret (Some d)
    end.

(** [Data._get_property] *)
Definition _get_property (self : Data) (property_name : str)
  (units : _PropertyUnits) : M str :=
  let command_name :=
    match units with
    | Internal => py "GET_PROP_INTERNAL"
    | User => py "GET_PROP_USER"
    end in
  let cmd := py "[" ++ command_name ++ py "][" ++ property_name ++ py "]" in
  _command self cmd.

(** [Data._set_property]: every property write goes through here. *)
Definition _set_property (self : Data) (property_name value : str)
  (units : _PropertyUnits) : M unit :=
  _ <- lift (utilities._raise_if_invalid_string_property_value value) ;;
  let command_name :=
    match units with
    | Internal => py "SET_PROP_INTERNAL"
    | User => py "SET_PROP_USER"
    end in
  let cmd := py "[" ++ command_name ++ py "][" ++ property_name ++ py "]["
                ++ value ++ py "]" in
  _ <- _command self cmd ;; ret tt.

(** [Data._get_string_property] *)
Definition _get_string_property (self : Data) (property_name : str) : M str :=
  _get_property self property_name Internal.

(** [Data._set_string_property]; the test [ "[" in value ] needs a string. *)
Definition _set_string_property (self : Data) (property_name : str)
  (value : pyval) : M unit :=
  match value with
  | PyStr s => _set_property self property_name s Internal
  | _ => raise (TypeError (py "argument is not iterable"))
  end.

(** [Data._get_float_property] *)
Definition _get_float_property (self : Data) (property_name : str) : M float :=
  float_string <- _get_property self property_name User ;;
  lift (utilities._user_str_to_API_float (float_of_str rt) float_string).

(** [Data._set_float_property] *)
Definition _set_float_property (self : Data) (property_name : str)
  (value : pyval) : M unit :=
  float_string <- lift (utilities._API_float_to_user_str rt value) ;;
  _set_property self property_name float_string User.

(** [Data._get_int_property] *)
Definition _get_int_property (self : Data) (property_name : str) : M Z :=
  int_string <- _get_property self property_name Internal ;;
  match int_of_str rt int_string with
  | None => raise (ValueError int_string)
  | Some z => ret z
  end.

(** [Data._set_int_property] *)
Definition _set_int_property (self : Data) (property_name : str)
  (value : pyval) : M unit :=
  int_string <- lift (utilities._API_int_to_user_str rt value) ;;
  _set_property self property_name int_string Internal.

(** [str.lower] on one character (code points below 256). *)
Definition lower_char (c : ascii) : ascii :=
  let n := nat_of_ascii c in
  if ((65 <=? n) && (n <=? 90))%nat then ascii_of_nat (n + 32)
  else if ((192 <=? n) && (n <=? 222) && negb (n =? 215))%nat
       then ascii_of_nat (n + 32)
  else c.

(** [s.lower()] *)
Definition py_lower (s : str) : str := map lower_char s.

(** [Data._get_bool_property] *)
Definition _get_bool_property (self : Data) (property_name : str) : M bool :=
  bool_string <- _get_property self property_name Internal ;;
  let lc_bool_string := py_lower bool_string in
  if str_eqb lc_bool_string (py "true") then ret true
  else if str_eqb lc_bool_string (py "false") then ret false
  else raise (Exception (py "Unexpected bool string: " ++ bool_string)).

(** [Data._set_bool_property] *)
Definition _set_bool_property (self : Data) (property_name : str)
  (value : pyval) : M unit :=
  bool_string <- lift (utilities._API_bool_to_user_str rt value) ;;
  _set_property self property_name bool_string Internal.

(** [Data._get_data_property] *)
Definition _get_data_property (self : Data) (property_name : str)
  : M (option Data) :=
  uid_string <- _get_property self property_name Internal ;;
  if str_eqb uid_string [] then ret None
  else _get_data (_model self) uid_string.

(** [Data._set_data_property] *)
Definition _set_data_property (self : Data) (property_name : str)
  (required_class : py_class) (value : pyval) : M unit :=
  match value with
  | PyNone => _set_property self property_name (py "0") Internal
  | _ =>
      if negb (isinstance required_class value) then
        raise (Exception (py "Attempting to set wrong type in "
                             ++ class_repr required_class ++ py " property: "
                             ++ py_str rt value))
      else
        match value with
        | PyData d =>
            if negb (_model d =? _model self) then
              raise (Exception (py "Attempting to set property of Data in one model to reference of Data in another Model."))
            else _set_property self property_name (str_of_int (_uid d)) Internal
        | _ => raise (AttributeError (py "model"))
        end
  end.

(** [Data._get_point2D_property] *)
Definition _get_point2D_property (self : Data) (property_name : str) : M pyval :=
  point_string <- _get_property self property_name User ;;
  lift (Point2D.from_bracket_string rt point_string).

(** [Data._set_point2D_property] *)
Definition _set_point2D_property (self : Data) (property_name : str)
  (value : pyval) : M unit :=
  match value with
  | PyPoint2D x y =>
      let point_string := Point2D.to_bracket_string rt x y in
      _set_property self property_name point_string User
  | _ =>
      raise (Exception (py "Attempting to set non-Point2D in Point2D property: "
                           ++ py_str rt value))
  end.

End WithProcess.

End data.

(* ------------------------------------------------------------------------- *)
(** ** add_property.py: the property constructors *)

Module add_property.
Import concept data.
Local Open Scope M_scope.

(** A [property(getter, setter, None, doc)] object. *)
Record property : Type := {
  fget : Data -> M pyval;
  fset : option (Data -> pyval -> M unit)
}.

(** An [Enum] class with the two conversions the enum properties require. *)
Record enum_class : Type := {
  _to_API : pyval -> outcome pyval;
  _to_internal : pyval -> outcome pyval
}.

Section WithProcess.
Variable rt : runtime.
Variable pkg : package.
Variable server : process.

Definition none_or_data (d : option Data) : pyval :=
  match d with
  | None => PyNone
  | Some d => PyData d
  end.

(** [_string_property] *)
Definition _string_property (name : str) : property :=
  {| fget := fun self =>
       s <- _get_string_property server self name ;; ret (PyStr s);
     fset := Some (fun self value =>
       _ <- lift (_set_property_raise_if_read_only self) ;;
       _set_string_property server self name value) |}.

(** [_float_property] *)
Definition _float_property (name : str) : property :=
  {| fget := fun self =>
       f <- _get_float_property rt server self name ;; ret (PyFloat f);
     fset := Some (fun self value =>
       _ <- lift (_set_property_raise_if_read_only self) ;;
       _set_float_property rt server self name value) |}.

(** [_int_property] *)
Definition _int_property (name : str) : property :=
  {| fget := fun self =>
       z <- _get_int_property rt server self name ;; ret (PyInt z);
     fset := Some (fun self value =>
       _ <- lift (_set_property_raise_if_read_only self) ;;
       _set_int_property rt server self name value) |}.

(** [_bool_property] *)
Definition _bool_property (name : str) : property :=
  {| fget := fun self =>
       b <- _get_bool_property server self name ;; ret (PyBool b);
     fset := Some (fun self value =>
       _ <- lift (_set_property_raise_if_read_only self) ;;
       _set_bool_property rt server self name value) |}.

(** [_bool_string_property] *)
Definition _bool_string_property (name true_value false_value : str) : property :=
  {| fget := fun self =>
       string_value <- _get_string_property server self name ;;
       if str_eqb string_value true_value then ret (PyBool true)
       else if str_eqb string_value false_value then ret (PyBool false)
       else raise (Exception (py "Internal Error: unexpected value in " ++ name
                                 ++ py " property: " ++ string_value));
     fset := Some (fun self value =>
       _ <- lift (_set_property_raise_if_read_only self) ;;
       let bool_value := py_bool value in
       if bool_value then _set_string_property server self name (PyStr true_value)
       else _set_string_property server self name (PyStr false_value)) |}.

(** [_data_property] *)
Definition _data_property (name : str) (required_class : py_class) : property :=
  {| fget := fun self =>
       d <- _get_data_property rt pkg server self name ;; ret (none_or_data d);
     fset := Some (fun self value =>
       _ <- lift (_set_property_raise_if_read_only self) ;;
       _set_data_property rt server self name required_class value) |}.

(** [_no_none_data_property] *)
Definition _no_none_data_property (name : str) (required_class : py_class)
  : property :=
  {| fget := fun self =>
       d <- _get_data_property rt pkg server self name ;; ret (none_or_data d);
     fset := Some (fun self value =>
       _ <- lift (_set_property_raise_if_read_only self) ;;
       match value with
       | PyNone => raise (Exception (py "None is not a valid value for this property"))
       | _ => _set_data_property rt server self name required_class value
       end) |}.

(** [_enum_string_property] *)
Definition _enum_string_property (name : str) (cls : enum_class) : property :=
  {| fget := fun self =>
       internal_value <- _get_string_property server self name ;;
       lift (_to_API cls (PyStr internal_value));
     fset := Some (fun self value =>
       _ <- lift (_set_property_raise_if_read_only self) ;;
       internal_value <- lift (_to_internal cls value) ;;
       _set_string_property server self name internal_value) |}.

(** [_enum_int_property] *)
Definition _enum_int_property (name : str) (cls : enum_class) : property :=
  {| fget := fun self =>
       internal_value <- _get_int_property rt server self name ;;
       lift (_to_API cls (PyInt internal_value));
     fset := Some (fun self value =>
       _ <- lift (_set_property_raise_if_read_only self) ;;
       internal_value <- lift (_to_internal cls value) ;;
       _set_int_property rt server self name internal_value) |}.

(** [_point_property] (lines 279-286) *)
Definition _point_property (name : str) : property :=
  {| fget := fun self => _get_point2D_property rt server self name;
     fset := Some (fun self value =>
       _set_point2D_property rt server self name value) |}.

(** The property constructors with a setter, by the kind of value. *)
Inductive property_kind : Type :=
| StringProperty
| FloatProperty
| IntProperty
| BoolProperty
| BoolStringProperty (true_value false_value : str)
| EnumStringProperty (cls : enum_class)
| EnumIntProperty (cls : enum_class)
| DataProperty (required_class : py_class)
| NoNoneDataProperty (required_class : py_class)
| PointProperty.

Definition make_property (kind : property_kind) (name : str) : property :=
  match kind with
  | StringProperty => _string_property name
  | FloatProperty => _float_property name
  | IntProperty => _int_property name
  | BoolProperty => _bool_property name
  | BoolStringProperty t f => _bool_string_property name t f
  | EnumStringProperty cls => _enum_string_property name cls
  | EnumIntProperty cls => _enum_int_property name cls
  | DataProperty c => _data_property name c
  | NoNoneDataProperty c => _no_none_data_property name c
  | PointProperty => _point_property name
  end.

(** [obj.attr = value] for an attribute that is a property. *)
Definition assign (p : property) (self : Data) (value : pyval) : M unit :=
  match fset p with
  | Some setter => setter self value
  | None => raise (AttributeError (py "can't set attribute"))
  end.

End WithProcess.

End add_property.

(* ------------------------------------------------------------------------- *)
(** ** cad_entity.py, point_load.py, cad_layer.py, force_loading_layer.py *)

Module cad_entity.
Import concept data.

(** [CadEntity.delete] *)
Definition delete (server : process) (self : Data) : M unit :=
  if _read_only self then
    raise (Exception (py "Cannot delete read-only CadEntity."))
  else _delete server self.

End cad_entity.

Module point_load.
Import concept data add_property.

(** The attributes of [PointLoad] that are properties with a setter:
    [elevation] (from [ForceLoad]), the five load values, and [name] (from
    [Data]). *)
Definition attribute (rt : runtime) (server : process) (name : str)
  : option property :=
  if str_eqb name (py "elevation") then
    Some (_float_property rt server (py "LoadElevation"))
  else if str_eqb name (py "Fx") then Some (_float_property rt server (py "PLFx"))
  else if str_eqb name (py "Fy") then Some (_float_property rt server (py "PLFy"))
  else if str_eqb name (py "Fz") then Some (_float_property rt server (py "PLFz"))
  else if str_eqb name (py "Mx") then Some (_float_property rt server (py "PLMx"))
  else if str_eqb name (py "My") then Some (_float_property rt server (py "PLMy"))
  else if str_eqb name (py "name") then Some (_string_property server (py "Name"))
  else None.

End point_load.

(** Attribute assignment and [delete], which go by the class of the object;
    an entry of an entity list may be [None]. *)
Module objects.
Import concept data add_property.

(** [setattr(entity, name, value)] *)
Definition setattr (rt : runtime) (pkg : package) (server : process)
  (entity : option Data) (name : str) (value : pyval) : M unit :=
  match entity with
  | None => raise (AttributeError name)
  | Some d =>
      if str_eqb (class_name d) (py "PointLoad") then
        match point_load.attribute rt server name with
        | Some p => assign p d value
        | None => other_setattr pkg d name value
        end
      else other_setattr pkg d name value
  end.

(** [entity.delete()] *)
Definition delete (pkg : package) (server : process) (entity : option Data)
  : M unit :=
  match entity with
  | None => raise (AttributeError (py "delete"))
  | Some d =>
      if str_eqb (class_name d) (py "PointLoad") then cad_entity.delete server d
      else other_delete pkg d
  end.

(** [for entity in entities: entity.delete()] *)
Fixpoint delete_all (pkg : package) (server : process)
  (entities : list (option Data)) : M unit :=
  match entities with
  | [] => ret tt
  | entity :: entities' =>
      (_ <- delete pkg server entity ;; delete_all pkg server entities')%M
  end.

End objects.

Module cad_layer.
Import concept data.
Local Open Scope M_scope.

Section WithProcess.
Variable rt : runtime.
Variable pkg : package.
Variable server : process.

(** [CadLayer._add_cad_entity] *)
Definition _add_cad_entity (self : Data) (type location : str)
  : M (option Data) :=
  let cmd := py "[NEW_ENTITY_USER][" ++ type ++ py "]" ++ location in
  uid <- data._command server self cmd ;;
  _get_data rt pkg server (_model self) uid.

(** [CadLayer._add_cad_entity_with_point] *)
Definition _add_cad_entity_with_point (self : Data) (type : str)
  (location : pyval) : M (option Data) :=
  match location with
  | PyPoint2D x y =>
      _add_cad_entity self type (Point2D.to_point_list_bracket_string rt x y)
  | _ => raise (AttributeError (py "to_point_list_bracket_string"))
  end.

(** The [for] loop inside the [try] of [_bulk_add]: it stops at the first
    exception, and the list [entities] holds what was appended until then. *)
Fixpoint create_all (method : pyval -> M (option Data)) (locations : list pyval)
  (entities : list (option Data)) (c : Concept)
  : list (option Data) * outcome unit * Concept :=
  match locations with
  | [] => (entities, Ok tt, c)
  | location :: locations' =>
      match method location c with
      | (Ok entity, c') => create_all method locations' (entities ++ [entity]) c'
      | (Raise e, c') => (entities, Raise e, c')
      | (Diverge, c') => (entities, Diverge, c')
      end
  end.

(** [CadLayer._bulk_add]; [method] is [getattr(self, add_method_name)]. *)
Definition _bulk_add (method : pyval -> M (option Data))
  (locations : list pyval) : M (list (option Data)) :=
  fun c =>
    match create_all method locations [] c with
    | (entities, Ok _, c') => (Ok entities, c')
    | (entities, Raise e, c') =>
        (* if creating any fails, we undo creation of all *)
        match objects.delete_all pkg server entities c' with
        | (Ok _, c'') => (Raise e, c'')
        | (Raise e', c'') => (Raise e', c'')
        | (Diverge, c'') => (Diverge, c'')
        end
    | (_, Diverge, c') => (Diverge, c')
    end.

End WithProcess.

End cad_layer.

Module force_loading_layer.
Import concept data cad_layer.
Local Open Scope M_scope.

Section WithProcess.
Variable rt : runtime.
Variable pkg : package.
Variable server : process.

(** [ForceLoadingLayer.add_point_load] *)
Definition add_point_load (self : Data) (location : pyval) : M (option Data) :=
  _ <- lift (_operation_raise_if_read_only self (py "add_point_load()")) ;;
  _add_cad_entity_with_point rt pkg server self (py "PointLoad") location.

(** [values or zero_list] *)
Definition or_list (values : option (list pyval)) (zero_list : list pyval)
  : option (list pyval) :=
  match values with
  | None | Some [] => Some zero_list
  | Some vs => Some vs
  end.

(** [ForceLoadingLayer.add_point_loads] *)
Definition add_point_loads (self : Data) (x y : list float)
  (elevation Fx Fy Fz Mx My : option (list pyval))
  : M (list (option Data)) :=
  _ <- lift (_operation_raise_if_read_only self (py "add_point_loads()")) ;;
  let entity_count := length x in
  if negb (Nat.eqb (length y) entity_count) then
    raise (Exception
             (py "Length of y parameter must be same as length of x parameter."))
  else
    let points := map (fun xy => PyPoint2D (fst xy) (snd xy)) (combine x y) in
    point_loads <- _bulk_add pkg server (add_point_load self) points ;;
    _ <- try_except_reraise
           (let zero_list := repeat (PyFloat 0) entity_count in
            let set := utilities._bulk_set (objects.setattr rt pkg server) in
            _ <- set point_loads (py "elevation") elevation ;;
            _ <- set point_loads (py "Fx") (or_list Fx zero_list) ;;
            _ <- set point_loads (py "Fy") (or_list Fy zero_list) ;;
            _ <- set point_loads (py "Fz") (or_list Fz zero_list) ;;
            _ <- set point_loads (py "Mx") (or_list Mx zero_list) ;;
            set point_loads (py "My") (or_list My zero_list))
           (* if setting isn't successful, the entire method is undone *)
           (objects.delete_all pkg server point_loads) ;;
    ret point_loads.

End WithProcess.

End force_loading_layer.

(* ------------------------------------------------------------------------- *)
(** ** line_segment_2D.py, polygon_2D.py, and the location of a CAD entity *)

(** A method call on a point, which goes by the class of the value. *)
Module methods.

(** [point.to_bracket_string()] *)
Definition to_bracket_string (rt : runtime) (point : pyval) : outcome str :=
  match point with
  | PyPoint2D x y => Ok (Point2D.to_bracket_string rt x y)
  | _ => Raise (AttributeError (py "to_bracket_string"))
  end.

End methods.

Module LineSegment2D.

(** [__slots__ = ["_start_point", "_end_point"]] *)
Record LineSegment2D : Type := __init__ {
  _start_point : pyval;
  _end_point : pyval
}.

(** [from_bracket_string]: a segment from the [[[x][y]][[x][y]]] format. *)
Definition from_bracket_string (rt : runtime) (bracket_string : str)
  : outcome LineSegment2D :=
  let parser := BracketParser.__init__ bracket_string in
  n <- BracketParser.count_remaining_tokens parser ;;
  if negb (n =? 2) then
    Raise (Exception (py "Invalid LineSegment2D bracket string: "
                         ++ bracket_string))
  else
    ' (t1, parser) <- BracketParser.next_token parser ;;
    start_point <- Point2D.from_bracket_string rt t1 ;;
    ' (t2, parser) <- BracketParser.next_token parser ;;
    end_point <- Point2D.from_bracket_string rt t2 ;;
    Ok (__init__ start_point end_point).

(** [to_point_list_bracket_string] *)
Definition to_point_list_bracket_string (rt : runtime) (self : LineSegment2D)
  : outcome str :=
  s <- methods.to_bracket_string rt (_start_point self) ;;
  e <- methods.to_bracket_string rt (_end_point self) ;;
  Ok (py "[" ++ s ++ py "][" ++ e ++ py "]").

End LineSegment2D.

Module Polygon2D.

(** [__slots__ = ["_points"]] *)
Record Polygon2D : Type := __init__ {
  _points : list pyval
}.

(** The [while parser.has_next_token()] loop of [from_bracket_string]. *)
Fixpoint points_loop (rt : runtime) (fuel : nat) (parser : BracketParser.parser)
  (points : list pyval) : outcome (list pyval) :=
  match fuel with
  | O => Diverge
  | S fuel' =>
      more <- BracketParser.has_next_token parser ;;
      if more then
        ' (token, parser') <- BracketParser.next_token parser ;;
        point <- Point2D.from_bracket_string rt token ;;
        points_loop rt fuel' parser' (points ++ [point])
      else Ok points
  end.

(** [from_bracket_string]: a polygon from the [[[x][y]][[x][y]][[x][y]]...]
    format. *)
Definition from_bracket_string (rt : runtime) (bracket_string : str)
  : outcome Polygon2D :=
  let parser := BracketParser.__init__ bracket_string in
  n <- BracketParser.count_remaining_tokens parser ;;
  if n <? 3 then
    Raise (Exception (py "Invalid Polygon2D bracket string: " ++ bracket_string))
  else
    points <- points_loop rt (S (length bracket_string)) parser [] ;;
    Ok (__init__ points).

(** [point_count] *)
Definition point_count (self : Polygon2D) : Z := Z.of_nat (length (_points self)).

(** The [for point in self._points] loop of [to_point_list_bracket_string]. *)
Fixpoint to_point_list_loop (rt : runtime) (points : list pyval)
  (bracket_string : str) : outcome str :=
  match points with
  | [] => Ok bracket_string
  | point :: points' =>
      s <- methods.to_bracket_string rt point ;;
      to_point_list_loop rt points' (bracket_string ++ py "[" ++ s ++ py "]")
  end.

(** [to_point_list_bracket_string] *)
Definition to_point_list_bracket_string (rt : runtime) (self : Polygon2D)
  : outcome str :=
  to_point_list_loop rt (_points self) [].

End Polygon2D.

Module CadEntity.
Import concept.

(** What [_get_location] returns: the class depends on the entity. *)
Inductive location : Type :=
| Point (point : pyval)
| LineSegment (segment : LineSegment2D.LineSegment2D)
| Polygon (polygon : Polygon2D.Polygon2D).

(** The part of [_get_location] behind the command (lines 62-87). *)
Definition location_of_string (rt : runtime) (location_string : str)
  : outcome location :=
  let parser := BracketParser.__init__ location_string in
  n <- BracketParser.count_remaining_tokens parser ;;
  if negb (n =? 2) then
    Raise (Exception (py "Internal error: bad [GET_LOCATION_USER] return value: "
                         ++ location_string))
  else
    ' (type_string, parser) <- BracketParser.next_token parser ;;
    ' (data_string, parser) <- BracketParser.next_token parser ;;
    if str_eqb type_string (py "Point2D") then
      p <- Point2D.from_bracket_string rt data_string ;; Ok (Point p)
    else if str_eqb type_string (py "LineSeg2D") then
      s <- LineSegment2D.from_bracket_string rt data_string ;; Ok (LineSegment s)
    else if str_eqb type_string (py "Polyline2D") then
      Raise (Exception (py "Unsupported [GET_LOCATION_USER] geometry type: Polyline2D"))
    else if str_eqb type_string (py "Polygon2D") then
      p <- Polygon2D.from_bracket_string rt data_string ;; Ok (Polygon p)
    else if str_eqb type_string (py "Rect2D") then
      Raise (Exception (py "Unsupported [GET_LOCATION_USER] geometry type: Rect2D"))
    else if str_eqb type_string (py "Compound2D") then
      Raise (Exception (py "Unsupported [GET_LOCATION_USER] geometry type: Compound2D"))
    else if str_eqb type_string (py "BoundaryShape2D") then
      Raise (Exception (py "Unsupported [GET_LOCATION_USER] geometry type: BoundaryShape2D"))
    else if str_eqb type_string (py "Circle") then
      Raise (Exception (py "Unsupported [GET_LOCATION_USER] geometry type: Circle"))
    else
      Raise (Exception (py "Unknown [GET_LOCATION_USER] geometry type: "
                           ++ type_string)).

(** [CadEntity._get_location] *)
Definition _get_location (rt : runtime) (server : process) (self : Data)
  : M location :=
  (location_string <- data._command server self (py "[GET_LOCATION_USER]") ;;
   lift (location_of_string rt location_string))%M.

End CadEntity.

(* ------------------------------------------------------------------------- *)
(** ** loading_layer.py: loading causes and loading types *)

(** [s.startswith(prefix)] *)
Fixpoint py_startswith (s prefix : str) {struct prefix} : bool :=
  match prefix, s with
  | [], _ => true
  | c :: prefix', d :: s' => Ascii.eqb d c && py_startswith s' prefix'
  | _ :: _, [] => false
  end.

(** [s.endswith(suffix)] *)
Definition py_endswith (s suffix : str) : bool :=
  (length suffix <=? length s)%nat
  && str_eqb (skipn (length s - length suffix) s) suffix.

(** [s[a:]] *)
Definition py_slice_from (s : str) (a : Z) : str := py_slice s a (py_len s).

Module LoadingCause.

(** The members of the enumeration, and [for loading_cause in LoadingCause],
    which goes through them in the order of their definition. *)
Inductive LoadingCause : Type :=
| SELF_DEAD
| BALANCE
| HYPERSTATIC
| STRESSING_DEAD
| OTHER_DEAD
| LIVE_REDUCIBLE
| LIVE_UNREDUCIBLE
| LIVE_STORAGE
| LIVE_PARKING
| LIVE_ROOF
| SNOW
| OTHER_GRAVITY
| TEMPERATURE
| SHRINKAGE
| WIND_SERVICE
| WIND_ULTIMATE
| SEISMIC_SERVICE
| SEISMIC_ULTIMATE.

Definition members : list LoadingCause :=
  [SELF_DEAD; BALANCE; HYPERSTATIC; STRESSING_DEAD; OTHER_DEAD;
   LIVE_REDUCIBLE; LIVE_UNREDUCIBLE; LIVE_STORAGE; LIVE_PARKING; LIVE_ROOF;
   SNOW; OTHER_GRAVITY; TEMPERATURE; SHRINKAGE; WIND_SERVICE; WIND_ULTIMATE;
   SEISMIC_SERVICE; SEISMIC_ULTIMATE].

(** [cause.value] *)
Definition value (self : LoadingCause) : str :=
  match self with
  | SELF_DEAD => py "self_dead"
  | BALANCE => py "balance"
  | HYPERSTATIC => py "hyperstatic"
  | STRESSING_DEAD => py "stressing_dead"
  | OTHER_DEAD => py "other_dead"
  | LIVE_REDUCIBLE => py "live_reducible"
  | LIVE_UNREDUCIBLE => py "live_unreducible"
  | LIVE_STORAGE => py "live_storage"
  | LIVE_PARKING => py "live_parking"
  | LIVE_ROOF => py "live_roof"
  | SNOW => py "snow"
  | OTHER_GRAVITY => py "other"
  | TEMPERATURE => py "temperature"
  | SHRINKAGE => py "shrinkage"
  | WIND_SERVICE => py "wind_service_"
  | WIND_ULTIMATE => py "wind_ultimate_"
  | SEISMIC_SERVICE => py "seismic_service_"
  | SEISMIC_ULTIMATE => py "seismic_ultimate_"
  end.

(** [cause.name] *)
Definition name (self : LoadingCause) : str :=
  match self with
  | SELF_DEAD => py "SELF_DEAD"
  | BALANCE => py "BALANCE"
  | HYPERSTATIC => py "HYPERSTATIC"
  | STRESSING_DEAD => py "STRESSING_DEAD"
  | OTHER_DEAD => py "OTHER_DEAD"
  | LIVE_REDUCIBLE => py "LIVE_REDUCIBLE"
  | LIVE_UNREDUCIBLE => py "LIVE_UNREDUCIBLE"
  | LIVE_STORAGE => py "LIVE_STORAGE"
  | LIVE_PARKING => py "LIVE_PARKING"
  | LIVE_ROOF => py "LIVE_ROOF"
  | SNOW => py "SNOW"
  | OTHER_GRAVITY => py "OTHER_GRAVITY"
  | TEMPERATURE => py "TEMPERATURE"
  | SHRINKAGE => py "SHRINKAGE"
  | WIND_SERVICE => py "WIND_SERVICE"
  | WIND_ULTIMATE => py "WIND_ULTIMATE"
  | SEISMIC_SERVICE => py "SEISMIC_SERVICE"
  | SEISMIC_ULTIMATE => py "SEISMIC_ULTIMATE"
  end.

(** [a == b] on members: they are equal when their values are. *)
Definition eqb (a b : LoadingCause) : bool := str_eqb (value a) (value b).

(** [self in causes] *)
Definition is_in (self : LoadingCause) (causes : list LoadingCause) : bool :=
  existsb (eqb self) causes.

(** [is_changable_in_loading] *)
Definition is_changable_in_loading (self : LoadingCause) : bool :=
  negb (is_in self [SELF_DEAD; BALANCE; HYPERSTATIC; TEMPERATURE; SHRINKAGE]).

(** [can_have_transfer_variation] *)
Definition can_have_transfer_variation (self : LoadingCause) : bool :=
  negb (is_in self [SELF_DEAD; HYPERSTATIC; STRESSING_DEAD; TEMPERATURE;
                    SHRINKAGE]).

(** [can_have_indexed_variations] *)
Definition can_have_indexed_variations (self : LoadingCause) : bool :=
  is_in self [WIND_SERVICE; WIND_ULTIMATE; SEISMIC_SERVICE; SEISMIC_ULTIMATE].

(** [can_have_normal_analysis] *)
Definition can_have_normal_analysis (self : LoadingCause) : bool :=
  negb (is_in self [HYPERSTATIC]).

(** [can_have_self_equilibrium_analysis] *)
Definition can_have_self_equilibrium_analysis (self : LoadingCause) : bool :=
  negb (is_in self [SELF_DEAD; BALANCE; HYPERSTATIC; TEMPERATURE; SHRINKAGE]).

(** [can_have_hyperstatic_analysis] *)
Definition can_have_hyperstatic_analysis (self : LoadingCause) : bool :=
  is_in self [HYPERSTATIC].

(** [_to_internal] *)
Definition _to_internal (self : LoadingCause) : str := value self.

End LoadingCause.

Module LoadingType.
Import LoadingCause.

(** [__slots__ = ["_cause", "_index", "_is_transfer"]] *)
Record LoadingType : Type := {
  _cause : LoadingCause;
  _index : Z;
  _is_transfer : bool
}.

(** [LoadingType(cause, is_transfer, index)] *)
Definition __init__ (cause : LoadingCause) (is_transfer : bool) (index : Z)
  : outcome LoadingType :=
  if is_transfer && negb (can_have_transfer_variation cause) then
    Raise (Exception (name cause ++ py " cannot be used with transfer loadings"))
  else if negb (index =? 0) && negb (can_have_indexed_variations cause) then
    Raise (Exception (name cause ++ py " cannot be used with indexed variations"))
  else if (index =? 0) && can_have_indexed_variations cause then
    Raise (Exception (name cause ++ py " must have indices greater than zero"))
  else if index <? 0 then
    Raise (Exception (py "LoadingType indices must be >= 0"))
  else
    Ok {| _cause := cause; _index := index; _is_transfer := is_transfer |}.

(** [_to_internal] *)
Definition _to_internal (self : LoadingType) : str :=
  let value := LoadingCause._to_internal (_cause self) in
  let value := if _index self >? 0 then value ++ str_of_int (_index self)
               else value in
  let value := if _is_transfer self then value ++ py "_transfer" else value in
  value.

(** The [for loading_cause in LoadingCause] loop of [_to_API] (lines
    241-246): the first cause whose internal string starts the value, with
    the rest of the value; [None] when the loop ends without a [break], which
    leaves [cause] and [remaining_value] unbound. *)
Fixpoint find_cause (causes : list LoadingCause.LoadingCause) (value : str)
  : option (LoadingCause.LoadingCause * str) :=
  match causes with
  | [] => None
  | loading_cause :: causes' =>
      let internal_loading_cause := LoadingCause._to_internal loading_cause in
      if py_startswith value internal_loading_cause then
        Some (loading_cause,
              py_slice_from value (py_len internal_loading_cause))
      else find_cause causes' value
  end.

(** How a call of [_to_API] ends: as Python code ends, or with the
    [UnboundLocalError] of reading a local variable that was never
    assigned. *)
Inductive ending : Type :=
| Outcome (o : outcome LoadingType)
| UnboundLocalError (variable : str).

(** [LoadingType._to_API] *)
Definition _to_API (rt : runtime) (value : str) : ending :=
  match find_cause LoadingCause.members value with
  | None =>
      (* [if remaining_value is None] reads the unbound variable *)
      UnboundLocalError (py "remaining_value")
  | Some (cause, remaining_value) =>
      let transfer_value := py "_transfer" in
      let is_transfer := py_endswith remaining_value transfer_value in
      let index_value :=
        if is_transfer then
          py_slice_to remaining_value
            (py_len remaining_value - py_len transfer_value)
        else remaining_value in
      (* [None] stands for an exception inside the [try] *)
      let index :=
        if py_len index_value =? 0 then Some 0
        else
          match int_of_str rt index_value with
          | Some index => if index >? 0 then Some index else None
          | None => None
          end in
      match index with
      | None =>
          Outcome (Raise (Exception (py "Unexpected LoadingType value: "
                                        ++ value)))
      | Some index => Outcome (__init__ cause is_transfer index)
      end
  end.

End LoadingType.

Module LoadingAnalysisType.

Inductive LoadingAnalysisType : Type :=
| NORMAL
| HYPERSTATIC
| SELF_EQUILIBRIUM.

(** [analysis_type.value] *)
Definition value (self : LoadingAnalysisType) : str :=
  match self with
  | NORMAL => py "normal"
  | HYPERSTATIC => py "hyperstatic"
  | SELF_EQUILIBRIUM => py "floating"
  end.

(** [analysis_type.name] *)
Definition name (self : LoadingAnalysisType) : str :=
  match self with
  | NORMAL => py "NORMAL"
  | HYPERSTATIC => py "HYPERSTATIC"
  | SELF_EQUILIBRIUM => py "SELF_EQUILIBRIUM"
  end.

(** [valid_for_loading_cause]; one of the three tests holds for every
    member, so the [raise] behind them is not reached. *)
Definition valid_for_loading_cause (self : LoadingAnalysisType)
  (load_cause : LoadingCause.LoadingCause) : bool :=
  match self with
  | NORMAL => LoadingCause.can_have_normal_analysis load_cause
  | HYPERSTATIC => LoadingCause.can_have_hyperstatic_analysis load_cause
  | SELF_EQUILIBRIUM => LoadingCause.can_have_self_equilibrium_analysis load_cause
  end.

(** [_to_API]: [LoadingAnalysisType(internal_value)], the member with that
    value, or a [ValueError]. *)
Definition _to_API (internal_value : str) : outcome LoadingAnalysisType :=
  if str_eqb internal_value (value NORMAL) then Ok NORMAL
  else if str_eqb internal_value (value HYPERSTATIC) then Ok HYPERSTATIC
  else if str_eqb internal_value (value SELF_EQUILIBRIUM) then Ok SELF_EQUILIBRIUM
  else Raise (ValueError internal_value).

(** [_to_internal] *)
Definition _to_internal (self : LoadingAnalysisType) : str := value self.

End LoadingAnalysisType.

Module LoadingLayer.
Import concept data.
Local Open Scope M_scope.

(** How a method of the layer ends when no exception of the package is
    raised: it returns, or [LoadingType._to_API] has met its unbound
    variable. *)
Inductive ended (A : Type) : Type :=
| Returned (a : A)
| Unbound (variable : str).
Arguments Returned {A} a.
Arguments Unbound {A} variable.

Section WithProcess.
Variable rt : runtime.
Variable server : process.

(** [_get_loading_type] *)
Definition _get_loading_type (self : Data) : M (ended LoadingType.LoadingType) :=
  internal_string <- _get_string_property server self (py "LoadingType") ;;
  match LoadingType._to_API rt internal_string with
  | LoadingType.Outcome o => loading_type <- lift o ;; ret (Returned loading_type)
  | LoadingType.UnboundLocalError variable => ret (Unbound variable)
  end.

(** [_get_analysis_type] *)
Definition _get_analysis_type (self : Data)
  : M LoadingAnalysisType.LoadingAnalysisType :=
  internal_string <- _get_string_property server self (py "AnalysisType") ;;
  lift (LoadingAnalysisType._to_API internal_string).

(** [_set_loading_type] *)
Definition _set_loading_type (self : Data) (value : LoadingType.LoadingType)
  : M (ended unit) :=
  _ <- lift (_set_property_raise_if_read_only self) ;;
  (* cannot reset certain loading types *)
  current <- _get_loading_type self ;;
  match current with
  | Unbound variable => ret (Unbound variable)
  | Returned current_loading_type =>
      if negb (LoadingCause.is_changable_in_loading
                 (LoadingType._cause current_loading_type)) then
        raise (Exception
                 (py "LoadingLayer with loading_type of "
                     ++ LoadingCause.name (LoadingType._cause current_loading_type)
                     ++ py "cannot have its loading_type changed."))
      (* also cannot set to those unchangable loading types *)
      else if negb (LoadingCause.is_changable_in_loading
                      (LoadingType._cause value)) then
        raise (Exception
                 (py "Cannot change a LoadingLayer to have a loading_type of "
                     ++ LoadingCause.name (LoadingType._cause value) ++ py "."))
      else
        current_analysis_type <- _get_analysis_type self ;;
        if negb (LoadingAnalysisType.valid_for_loading_cause
                   current_analysis_type (LoadingType._cause value)) then
          raise (Exception
                   (py "Cannot change a LoadingLayer to have a loading_type of "
                       ++ LoadingCause.name (LoadingType._cause value)
                       ++ py "when it has analysis_type of "
                       ++ LoadingAnalysisType.name current_analysis_type
                       ++ py "."))
        else
          _ <- _set_string_property server self (py "LoadingType")
                 (PyStr (LoadingType._to_internal value)) ;;
          ret (Returned tt)
  end.

(** [_set_analysis_type] *)
Definition _set_analysis_type (self : Data)
  (value : LoadingAnalysisType.LoadingAnalysisType) : M (ended unit) :=
  _ <- lift (_set_property_raise_if_read_only self) ;;
  current <- _get_loading_type self ;;
  match current with
  | Unbound variable => ret (Unbound variable)
  | Returned loading_type =>
      if negb (LoadingAnalysisType.valid_for_loading_cause value
                 (LoadingType._cause loading_type)) then
        raise (Exception
                 (py "Cannot set LoadingAnalysisType "
                     ++ LoadingAnalysisType.name value
                     ++ py "in LoadingLayer with loading cause "
                     ++ LoadingCause.name (LoadingType._cause loading_type)
                     ++ py "."))
      else
        _ <- _set_string_property server self (py "AnalysisType")
               (PyStr (LoadingAnalysisType._to_internal value)) ;;
        ret (Returned tt)
  end.

End WithProcess.

End LoadingLayer.

(* ------------------------------------------------------------------------- *)
(** ** Reference definitions for bracket strings

    These follow the words of the specification, not the code: nesting-depth
    counting one character at a time, balanced token bodies, and the encoding
    of a token list. *)

Module BracketSpec.

(** Scan [r], whose head has index [pos], at nesting level [level]: an opening
    delimiter increments the level, a closing delimiter decrements it, and the
    first decrement to zero selects the match; -1 when the text runs out. *)
Fixpoint depth_scan (r : str) (pos level : Z) : Z :=
  match r with
  | [] => -1
  | c :: r' =>
      if Ascii.eqb c "["%char then depth_scan r' (pos + 1) (level + 1)
      else if Ascii.eqb c "]"%char then
        if level - 1 =? 0 then pos else depth_scan r' (pos + 1) (level - 1)
      else depth_scan r' (pos + 1) level
  end.

(** The closing delimiter that balances the opening delimiter at index [i]:
    the scan starts just past it, at nesting level 1. *)
Definition balancing_close (s : str) (i : Z) : Z :=
  depth_scan (skipn (Z.to_nat (i + 1)) s) (i + 1) 1.

(** Nesting depth after reading [t] from depth [d]; [None] when a closing
    delimiter has no partner. *)
Fixpoint depth_after (t : str) (d : nat) : option nat :=
  match t with
  | [] => Some d
  | c :: t' =>
      if Ascii.eqb c "["%char then depth_after t' (S d)
      else if Ascii.eqb c "]"%char then
        match d with
        | O => None
        | S d' => depth_after t' d'
        end
      else depth_after t' d
  end.

(** The body of a bracket token: its delimiters are properly nested. *)
Definition balanced (t : str) : Prop := depth_after t 0 = Some 0%nat.

(** A bracket token: a balanced body between an opening and a closing
    delimiter. *)
Definition wrap (t : str) : str := "["%char :: t ++ ["]"%char].

(** The tokens written one after the other, nothing in between. *)
Definition encode (tokens : list str) : str := concat (map wrap tokens).

(** A (possibly empty) concatenation of bracket tokens. *)
Definition token_sequence (s : str) : Prop :=
  exists tokens, Forall balanced tokens /\ s = encode tokens.

(** A text without delimiters. *)
Definition plain (r : str) : Prop := ~ In "["%char r /\ ~ In "]"%char r.

End BracketSpec.

(* ------------------------------------------------------------------------- *)
(** ** A stand-in for the RAM Concept process

    The process itself is outside the package.  The stand-in keeps the list
    of entities that exist and serves the four requests that a bulk creation
    of point loads sends: creating an entity on a layer, asking for the type
    of an entity, setting a property and deleting an entity.  A [faulty]
    oracle picks the requests that fail; a failed request changes nothing. *)

Module stub.
Import concept.

(** How a request fails: [requests] raises, or the process answers with a
    failure envelope. *)
Inductive fault : Type :=
| Refuse (why : str)
| Fail (msg : str).

Definition fault_reply (f : fault) : http_reply :=
  match f with
  | Refuse why => HttpFault why
  | Fail msg => HttpText (py "[FAILURE][" ++ msg ++ py "]")
  end.

(** The entities that exist, by the text of their uid, oldest first, and the
    number of the next uid. *)
Record state : Type := {
  entities : list str;
  next_uid : Z
}.

Definition initial : state := {| entities := []; next_uid := 1 |}.

Inductive command : Type :=
| NewEntity (target : str)
| GetType (target : str)
| SetProp (target : str)
| Delete (target : str)
| Other.

(** [s] without the prefix [p]. *)
Fixpoint strip_prefix (p s : str) : option str :=
  match p, s with
  | [], _ => Some s
  | a :: p', b :: s' => if Ascii.eqb a b then strip_prefix p' s' else None
  | _ :: _, [] => None
  end.

(** [s] cut at its first closing delimiter. *)
Fixpoint split_at_close (s : str) : option (str * str) :=
  match s with
  | [] => None
  | c :: s' =>
      if Ascii.eqb c "]"%char then Some ([], s')
      else match split_at_close s' with
           | Some (a, b) => Some (c :: a, b)
           | None => None
           end
  end.

Definition starts_with (p s : str) : bool :=
  match strip_prefix p s with
  | Some _ => true
  | None => false
  end.

(** The request, read off what stands behind the target. *)
Definition classify_inner (target inner : str) : command :=
  if str_eqb inner (py "[[DELETE]]") then Delete target
  else if str_eqb inner (py "[[GET_TYPE]]") then GetType target
  else if starts_with (py "[[NEW_ENTITY_USER][PointLoad]") inner
  then NewEntity target
  else if starts_with (py "[[SET_PROP_USER][") inner
          || starts_with (py "[[SET_PROP_INTERNAL][") inner
  then SetProp target
  else Other.

(** The request, read off the text of the command
    [[WITH_TARGET][uid][command]]. *)
Definition classify (cmd : str) : command :=
  match strip_prefix (py "[WITH_TARGET][") cmd with
  | None => Other
  | Some rest =>
      match split_at_close rest with
      | None => Other
      | Some (target, inner) => classify_inner target inner
      end
  end.

Definition known (st : state) (target : str) : bool :=
  existsb (str_eqb target) (entities st).

Definition success (payload : str) : http_reply :=
  HttpText (py "[SUCCESS][" ++ payload ++ py "]").

Definition unknown_target : http_reply :=
  HttpText (py "[FAILURE][no such object]").

Section WithFaults.
Variable faulty : request -> option fault.

(** One request: the reply and the state it leaves. *)
Definition step (st : state) (rq : request) : http_reply * state :=
  match faulty rq with
  | Some f => (fault_reply f, st)
  | None =>
      match classify (snd rq) with
      | NewEntity _ =>
          let uid := str_of_int (next_uid st) in
          (success uid,
           {| entities := entities st ++ [uid]; next_uid := next_uid st + 1 |})
      | GetType target =>
          if known st target then (success (py "PointLoad"), st)
          else (unknown_target, st)
      | SetProp target =>
          if known st target then (success [], st) else (unknown_target, st)
      | Delete target =>
          if known st target then
            (success [],
             {| entities := remove (list_eq_dec ascii_dec) target (entities st);
                next_uid := next_uid st |})
          else (unknown_target, st)
      | Other => (HttpText (py "[FAILURE][unknown command]"), st)
      end
  end.

(** The state after the requests of a history. *)
Definition state_after (history : list request) : state :=
  fold_left (fun st rq => snd (step st rq)) history initial.

(** The stand-in as a [process]. *)
Definition server : process :=
  fun history rq => fst (step (state_after history) rq).

End WithFaults.

(** The faults that the bulk creation is specified for: a creation request
    or a property assignment fails, nothing else does. *)
(** [k] consecutive numbers from [n]. *)
Fixpoint upfrom (n : Z) (k : nat) : list Z :=
  match k with
  | O => []
  | S k' => n :: upfrom (n + 1) k'
  end.

Definition creation_or_assignment (cmd : str) : bool :=
  match classify cmd with
  | NewEntity _ | SetProp _ => true
  | _ => false
  end.

(** [int(s)] on decimal numerals, for runs of the model. *)
Definition decimal_int (s : str) : option Z :=
  option_map Z.of_int (NilZero.int_of_string (string_of_list_ascii s)).

(** A runtime for runs of the model; the text of a float does not matter
    there, and every float is written 0.0. *)
Definition plain_runtime : runtime :=
  {| float_of_str := fun _ => None;
     float_of_int := fun _ => None;
     str_of_float := fun _ => py "0.0";
     int_of_float := fun _ => None;
     int_of_str := decimal_int;
     repr_object := fun _ => py "<object>" |}.

(** No class other than [PointLoad] is needed in these runs. *)
Definition no_package : data.package :=
  {| data.construct := fun _ _ _ => raise (TypeError (py "no such class"));
     data.other_setattr := fun _ name _ => raise (AttributeError name);
     data.other_delete := fun _ => raise (AttributeError (py "delete")) |}.

End stub.

(* ------------------------------------------------------------------------- *)
(** ** Reference definitions for errors and for letter case

    The package raises plain [Exception] objects; the error categories of the
    specification are told apart by where they are raised, that is by their
    message. *)

Module errors.

(** The text an exception carries. *)
Definition message (e : exn) : str :=
  match e with
  | Exception msg => msg
  | AssertionError => []
  | ValueError what => what
  | AttributeError name => name
  | TypeError what => what
  | RequestException why => why
  end.

(** Raised by [Data._set_property_raise_if_read_only]. *)
Definition ReadOnlyError (e : exn) : Prop :=
  exists cls,
    e = Exception (py "Cannot set properties of read-only " ++ cls ++ py ".").

(** Raised by [_raise_if_invalid_string_property_value]. *)
Definition InvalidValue (e : exn) : Prop :=
  e = Exception (py "String property values cannot contain '['.") \/
  e = Exception (py "String property values cannot contain ']'.").

(** Raised by [Concept._command] on a failure envelope. *)
Definition RemoteError (e : exn) : Prop :=
  exists payload, e = Exception (py "Error: " ++ payload).

(** Raised by [Concept._command] on an unknown envelope and by
    [Data._get_bool_property] on an unknown text. *)
Definition InternalError (e : exn) : Prop :=
  (exists r,
      e = Exception
            (py "Internal Error: Invalid result returned from Concept process: "
                ++ r)) \/
  (exists raw, e = Exception (py "Unexpected bool string: " ++ raw)).

(** The upper-case form of a lower-case ASCII letter. *)
Definition upper_letter (c : ascii) : ascii :=
  let n := nat_of_ascii c in
  if ((97 <=? n) && (n <=? 122))%nat then ascii_of_nat (n - 32) else c.

(** [raw] is a casing of [literal]: letter by letter the same, in lower or in
    upper case. *)
Definition casing_of (literal raw : str) : Prop :=
  Forall2 (fun l r => r = l \/ r = upper_letter l) literal raw.

(** A conversion of tokens to floats with the finite-sentinel convention:
    "infinite" and "-infinite" stand for the largest finite float and its
    negation, every other token is read by [float]. *)
Definition sentinel_float (float_of_str : str -> option float) (token : str)
  : option float :=
  if str_eqb token (py "infinite") then Some utilities.float_info_max
  else if str_eqb token (py "-infinite") then
    Some (- utilities.float_info_max)%float
  else float_of_str token.

End errors.

(* ------------------------------------------------------------------------- *)
(** ** Reference definitions for request identifiers

    The [RequestId] header of a request is meant to tell the requests of a
    session apart. *)

Module numbering.
Import concept.

(** The identifiers of the requests posted so far increase strictly, and
    all lie below the next identifier. *)
Definition well_numbered (c : Concept) : Prop :=
  StronglySorted Z.lt (map fst (posted c)) /\
  Forall (fun rq : request => fst rq < _nextRequestId c) (posted c).

(** Code that runs against a [Concept] keeps the numbering, and only adds
    to the requests that were posted. *)
Definition keeps_numbering {A} (m : M A) : Prop :=
  forall c,
    well_numbered c ->
    well_numbered (snd (m c)) /\
    exists more, posted (snd (m c)) = posted c ++ more.

End numbering.

(* ------------------------------------------------------------------------- *)
(** ** Reference definitions for the texts of floats *)

Module float_text.
Import BracketSpec.

(** The runtime writes the float without a bracket, and reads the text back
    as the float; Python's [str] and [float] do so for every float. *)
Definition reads_back (rt : runtime) (f : float) : Prop :=
  plain (str_of_float rt f) /\
  float_of_str rt (str_of_float rt f) = Some f.

(** A [Point2D] object whose coordinates are such floats. *)
Definition point_reads_back (rt : runtime) (point : pyval) : Prop :=
  exists x y, point = PyPoint2D x y /\ reads_back rt x /\ reads_back rt y.

End float_text.

(* ========================================================================= *)
(** * Properties *)

(** ** Python strings *)

Lemma str_eqb_eq (a b : str) : str_eqb a b = true <-> a = b.
Proof.
  revert b. induction a as [|x a IH]; intros [|y b]; simpl;
    try (split; [discriminate | discriminate]); [tauto|].
  rewrite andb_true_iff, Ascii.eqb_eq, IH. split.
  - intros [-> ->]. reflexivity.
  - intros E. injection E as -> ->. now split.
Qed.

Lemma str_eqb_refl (a : str) : str_eqb a a = true.
Proof. now apply str_eqb_eq. Qed.

Lemma str_eqb_neq (a b : str) : str_eqb a b = false <-> a <> b.
Proof.
  rewrite <- str_eqb_eq. destruct (str_eqb a b); split; congruence.
Qed.

Lemma py_in_true (c : ascii) (s : str) : py_in c s = true <-> In c s.
Proof.
  unfold py_in. rewrite existsb_exists. split.
  - intros (x & Hx & E). apply Ascii.eqb_eq in E. now subst.
  - intros H. exists c. split; [assumption | apply Ascii.eqb_refl].
Qed.

Lemma py_in_false (c : ascii) (s : str) : py_in c s = false <-> ~ In c s.
Proof.
  rewrite <- py_in_true. destruct (py_in c s); split; congruence.
Qed.

Lemma norm_index_nonneg (n i : Z) : 0 <= i -> norm_index n i = i.
Proof.
  intros H. unfold norm_index. destruct (Z.ltb_spec i 0); lia.
Qed.

Lemma skipn_skipn_add {A} (n m : nat) (l : list A) :
  skipn m (skipn n l) = skipn (n + m) l.
Proof.
  revert l. induction n as [|n IH]; intros l; simpl.
  - reflexivity.
  - destruct l; simpl; [now rewrite skipn_nil | apply IH].
Qed.

Lemma skipn_past_prefix {A} (pre : list A) (x : A) (post : list A) (n : nat) (l : list A) :
  skipn n l = pre ++ x :: post ->
  skipn (n + length pre + 1) l = post.
Proof.
  intros H. rewrite <- Nat.add_assoc, <- skipn_skipn_add, H.
  rewrite skipn_app, skipn_all2 by lia.
  replace (length pre + 1 - length pre)%nat with 1%nat by lia.
  reflexivity.
Qed.

Lemma app_same_length {A} (x1 y1 x2 y2 : list A) :
  length x1 = length y1 -> x1 ++ x2 = y1 ++ y2 -> x1 = y1 /\ x2 = y2.
Proof.
  revert y1. induction x1 as [|a x1 IH]; intros [|b y1] Hl E;
    simpl in *; try discriminate.
  - now split.
  - injection E as -> E. injection Hl as Hl.
    destruct (IH y1 Hl E) as [-> ->]. now split.
Qed.

(** [find] from an index inside the string looks at the suffix. *)
Lemma py_find_suffix (s : str) (c : ascii) (i : Z) :
  0 <= i <= py_len s ->
  py_find s c i = find_from (skipn (Z.to_nat i) s) c i.
Proof.
  intros H. unfold py_find. rewrite norm_index_nonneg by lia.
  destruct (Z.ltb_spec (py_len s) i); [lia | reflexivity].
Qed.

Lemma find_from_notin (r : str) (c : ascii) (i : Z) :
  ~ In c r -> find_from r c i = -1.
Proof.
  revert i. induction r as [|x r IH]; intros i H; simpl.
  - reflexivity.
  - destruct (Ascii.eqb_spec x c) as [->|N].
    + exfalso. apply H. now left.
    + apply IH. intros Hin. apply H. now right.
Qed.

Lemma find_from_app_notin (pre x : str) (c : ascii) (i : Z) :
  ~ In c pre ->
  find_from (pre ++ x) c i = find_from x c (i + Z.of_nat (length pre)).
Proof.
  revert i. induction pre as [|a pre IH]; intros i H; simpl.
  - f_equal. lia.
  - destruct (Ascii.eqb_spec a c) as [->|N].
    + exfalso. apply H. now left.
    + rewrite IH by (intros Hin; apply H; now right). f_equal. lia.
Qed.

Lemma find_from_range (r : str) (c : ascii) (i : Z) :
  find_from r c i = -1 \/
  (i <= find_from r c i < i + Z.of_nat (length r)).
Proof.
  revert i. induction r as [|x r IH]; intros i; simpl.
  - now left.
  - destruct (Ascii.eqb x c).
    + right. lia.
    + destruct (IH (i + 1)) as [E|E]; [now left | right; lia].
Qed.

(* ------------------------------------------------------------------------- *)
(** ** The matching algorithm *)

Module MatchingFacts.
Import BracketParser BracketSpec.

Lemma plain_nil : plain [].
Proof. split; intros []. Qed.

Lemma plain_cons (c : ascii) (r : str) :
  c <> "["%char -> c <> "]"%char -> plain r -> plain (c :: r).
Proof.
  intros H1 H2 [P1 P2]. split; intros [E|E]; congruence.
Qed.

(** Every text is plain, or has a first delimiter after a plain prefix. *)
Lemma first_delimiter (r : str) :
  plain r \/
  (exists pre post, r = pre ++ "["%char :: post /\ plain pre) \/
  (exists pre post, r = pre ++ "]"%char :: post /\ plain pre).
Proof.
  induction r as [|c r IH].
  - left. apply plain_nil.
  - destruct (ascii_dec c "["%char) as [->|N1].
    { right; left. exists [], r. split; [reflexivity | apply plain_nil]. }
    destruct (ascii_dec c "]"%char) as [->|N2].
    { right; right. exists [], r. split; [reflexivity | apply plain_nil]. }
    destruct IH as [P | [(pre & post & -> & P) | (pre & post & -> & P)]].
    + left. now apply plain_cons.
    + right; left. exists (c :: pre), post. split; [reflexivity | now apply plain_cons].
    + right; right. exists (c :: pre), post. split; [reflexivity | now apply plain_cons].
Qed.

Lemma depth_scan_plain_app (pre x : str) (pos level : Z) :
  plain pre ->
  depth_scan (pre ++ x) pos level
  = depth_scan x (pos + Z.of_nat (length pre)) level.
Proof.
  revert pos. induction pre as [|c pre IH]; intros pos [P1 P2]; simpl.
  - f_equal. lia.
  - destruct (Ascii.eqb_spec c "["%char) as [->|N1].
    { exfalso. apply P1. now left. }
    destruct (Ascii.eqb_spec c "]"%char) as [->|N2].
    { exfalso. apply P2. now left. }
    rewrite IH.
    + f_equal. lia.
    + split; intros Hin; [apply P1 | apply P2]; now right.
Qed.

Lemma depth_scan_no_close (r : str) (pos level : Z) :
  ~ In "]"%char r -> depth_scan r pos level = -1.
Proof.
  revert pos level. induction r as [|c r IH]; intros pos level H; simpl.
  - reflexivity.
  - assert (Hr : ~ In "]"%char r) by (intros Hin; apply H; now right).
    destruct (Ascii.eqb_spec c "["%char); [now apply IH|].
    destruct (Ascii.eqb_spec c "]"%char) as [->|]; [|now apply IH].
    exfalso. apply H. now left.
Qed.

(** The result of a scan is -1 or an index of the scanned text. *)
Lemma depth_scan_range (r : str) (pos level : Z) :
  depth_scan r pos level = -1 \/
  pos <= depth_scan r pos level < pos + Z.of_nat (length r).
Proof.
  revert pos level. induction r as [|c r IH]; intros pos level; simpl.
  - now left.
  - destruct (Ascii.eqb c "["%char).
    { destruct (IH (pos + 1) (level + 1)) as [E|E]; [now left | right; lia]. }
    destruct (Ascii.eqb c "]"%char).
    + destruct (level - 1 =? 0); [right; lia|].
      destruct (IH (pos + 1) (level - 1)) as [E|E]; [now left | right; lia].
    + destruct (IH (pos + 1) level) as [E|E]; [now left | right; lia].
Qed.

(** What one pass of the loop body does, by the first delimiter of the rest
    of the string. *)
Lemma matching_body_plain (s : str) (cur level : Z) :
  0 <= cur <= py_len s ->
  plain (skipn (Z.to_nat cur) s) ->
  matching_body s (cur, level) = Return (-1).
Proof.
  intros Hc [_ P]. unfold matching_body.
  rewrite (py_find_suffix s END_TAG) by assumption.
  rewrite (find_from_notin _ END_TAG) by exact P. reflexivity.
Qed.

Lemma find_from_in (r : str) (c : ascii) (i : Z) :
  In c r -> i <= find_from r c i < i + Z.of_nat (length r).
Proof.
  revert i. induction r as [|x r IH]; intros i Hin; [destruct Hin|].
  simpl find_from. simpl length. destruct (Ascii.eqb_spec x c) as [->|N].
  - lia.
  - destruct Hin as [E|Hin]; [congruence|].
    specialize (IH (i + 1) Hin). lia.
Qed.

Lemma matching_body_open (s pre post : str) (cur level : Z) :
  0 <= cur <= py_len s ->
  skipn (Z.to_nat cur) s = pre ++ "["%char :: post ->
  plain pre ->
  matching_body s (cur, level)
  = if in_dec ascii_dec "]"%char post
    then Continue (cur + Z.of_nat (length pre) + 1, level + 1)
    else Return (-1).
Proof.
  intros Hc Hs [P1 P2]. unfold matching_body.
  rewrite (py_find_suffix s START_TAG), (py_find_suffix s END_TAG) by assumption.
  rewrite Hs.
  rewrite (find_from_app_notin pre _ START_TAG) by exact P1.
  rewrite (find_from_app_notin pre _ END_TAG) by exact P2.
  simpl find_from.
  destruct (in_dec ascii_dec "]"%char post) as [Hin|Hn].
  - pose proof (find_from_in post END_TAG
                  (cur + Z.of_nat (length pre) + 1) Hin) as R.
    destruct (Z.eqb_spec (find_from post END_TAG
                            (cur + Z.of_nat (length pre) + 1)) (-1)); [lia|].
    destruct (Z.eqb_spec (cur + Z.of_nat (length pre)) (-1)); [lia|].
    destruct (Z.ltb_spec (cur + Z.of_nat (length pre))
                (find_from post END_TAG (cur + Z.of_nat (length pre) + 1)));
      [reflexivity | lia].
  - rewrite (find_from_notin post END_TAG) by exact Hn. reflexivity.
Qed.

Lemma matching_body_close (s pre post : str) (cur level : Z) :
  0 <= cur <= py_len s ->
  py_len s <= sys_maxsize ->
  skipn (Z.to_nat cur) s = pre ++ "]"%char :: post ->
  plain pre ->
  matching_body s (cur, level)
  = if level - 1 =? 0 then Return (cur + Z.of_nat (length pre))
    else Continue (cur + Z.of_nat (length pre) + 1, level - 1).
Proof.
  intros Hc Hmax Hs [P1 P2]. unfold matching_body.
  rewrite (py_find_suffix s START_TAG), (py_find_suffix s END_TAG) by assumption.
  rewrite Hs.
  rewrite (find_from_app_notin pre _ START_TAG) by exact P1.
  rewrite (find_from_app_notin pre _ END_TAG) by exact P2.
  simpl find_from.
  assert (Hlen : Z.of_nat (length (skipn (Z.to_nat cur) s)) = py_len s - cur).
  { rewrite length_skipn. unfold py_len in *. lia. }
  rewrite Hs, length_app in Hlen. simpl length in Hlen.
  set (b := cur + Z.of_nat (length pre)) in *.
  destruct (Z.eqb_spec b (-1)); [lia|].
  pose proof (find_from_range post START_TAG (b + 1)) as R.
  set (a := find_from post START_TAG (b + 1)) in *.
  assert (Ha : ((if a =? -1 then sys_maxsize else a) <? b) = false).
  { destruct (Z.eqb_spec a (-1)); apply Z.ltb_ge; lia. }
  rewrite Ha. reflexivity.
Qed.

(** The loop computes the nesting-depth scan of the rest of the string, as
    soon as the iteration bound exceeds the length of that rest. *)
Lemma matching_loop_scan (fuel : nat) (s : str) (cur level : Z) :
  0 <= cur <= py_len s ->
  py_len s <= sys_maxsize ->
  (length (skipn (Z.to_nat cur) s) < fuel)%nat ->
  matching_loop fuel s (cur, level)
  = Some (depth_scan (skipn (Z.to_nat cur) s) cur level).
Proof.
  revert cur level. induction fuel as [|fuel IH]; intros cur level Hc Hmax Hf;
    [lia|].
  unfold matching_loop in *. cbn [while_true].
  destruct (first_delimiter (skipn (Z.to_nat cur) s))
    as [P | [(pre & post & Hs & P) | (pre & post & Hs & P)]].
  - rewrite matching_body_plain by assumption.
    rewrite depth_scan_no_close by apply P. reflexivity.
  - rewrite (matching_body_open s pre post) by assumption.
    rewrite Hs, depth_scan_plain_app by exact P. simpl depth_scan.
    assert (Hpost : skipn (Z.to_nat (cur + Z.of_nat (length pre) + 1)) s = post).
    { replace (Z.to_nat (cur + Z.of_nat (length pre) + 1))
        with (Z.to_nat cur + length pre + 1)%nat by lia.
      now apply skipn_past_prefix with (x := "["%char). }
    assert (Hlen : length (skipn (Z.to_nat cur) s)
                   = (length pre + S (length post))%nat).
    { rewrite Hs, length_app. reflexivity. }
    destruct (in_dec ascii_dec "]"%char post) as [Hin|Hn].
    + rewrite IH.
      * rewrite Hpost. reflexivity.
      * assert (Z.of_nat (length (skipn (Z.to_nat cur) s)) = py_len s - cur).
        { rewrite length_skipn. unfold py_len in *. lia. }
        lia.
      * assumption.
      * rewrite Hpost. lia.
    + rewrite depth_scan_no_close by exact Hn. reflexivity.
  - rewrite (matching_body_close s pre post) by assumption.
    rewrite Hs, depth_scan_plain_app by exact P. simpl depth_scan.
    assert (Hpost : skipn (Z.to_nat (cur + Z.of_nat (length pre) + 1)) s = post).
    { replace (Z.to_nat (cur + Z.of_nat (length pre) + 1))
        with (Z.to_nat cur + length pre + 1)%nat by lia.
      now apply skipn_past_prefix with (x := "]"%char). }
    assert (Hlen : length (skipn (Z.to_nat cur) s)
                   = (length pre + S (length post))%nat).
    { rewrite Hs, length_app. reflexivity. }
    destruct (level - 1 =? 0); [reflexivity|].
    rewrite IH.
    + rewrite Hpost. reflexivity.
    + assert (Z.of_nat (length (skipn (Z.to_nat cur) s)) = py_len s - cur).
      { rewrite length_skipn. unfold py_len in *. lia. }
      lia.
    + assumption.
    + rewrite Hpost. lia.
Qed.

(** The slice [s[i:i+1]] at an index of [s] is the character there. *)
Lemma py_slice_char (s : str) (i : Z) (c : ascii) :
  0 <= i ->
  nth_error s (Z.to_nat i) = Some c ->
  py_slice s i (i + 1) = [c].
Proof.
  intros Hi Hn.
  assert (Hlt : (Z.to_nat i < length s)%nat).
  { apply nth_error_Some. congruence. }
  unfold py_slice, py_len. rewrite !norm_index_nonneg by lia.
  rewrite !Z.min_l by lia.
  replace (Z.to_nat (i + 1 - i)) with 1%nat by lia.
  destruct (nth_error_split s (Z.to_nat i) Hn) as (l1 & l2 & -> & Hl).
  rewrite skipn_app, skipn_all2 by lia.
  rewrite Hl, Nat.sub_diag. reflexivity.
Qed.

(** [matching_end_tag_index] at an opening delimiter is the nesting-depth
    scan; the iteration bound is never reached. *)
Lemma matching_end_tag_index_scan (s : str) (i : Z) :
  py_len s <= sys_maxsize ->
  0 <= i ->
  nth_error s (Z.to_nat i) = Some START_TAG ->
  matching_end_tag_index s i = Ok (balancing_close s i).
Proof.
  intros Hmax Hi Hn.
  assert (Hlt : (Z.to_nat i < length s)%nat).
  { apply nth_error_Some. congruence. }
  unfold matching_end_tag_index.
  rewrite (py_slice_char s i START_TAG) by assumption.
  rewrite str_eqb_refl. simpl negb. cbv iota.
  rewrite matching_loop_scan.
  - reflexivity.
  - unfold py_len. lia.
  - assumption.
  - rewrite length_skipn. lia.
Qed.

(** Scanning over a text whose nesting is known: the scan goes on behind it,
    at the level the text leaves. *)
Lemma depth_scan_over (t x : str) (d e : nat) (pos level : Z) :
  depth_after t d = Some e ->
  1 <= level ->
  depth_scan (t ++ x) pos (level + Z.of_nat d)
  = depth_scan x (pos + Z.of_nat (length t)) (level + Z.of_nat e).
Proof.
  revert d pos. induction t as [|c t IH]; intros d pos Hd Hl.
  - simpl in *. injection Hd as <-. f_equal. lia.
  - cbn [app depth_scan depth_after length] in *.
    destruct (Ascii.eqb c "["%char).
    { replace (level + Z.of_nat d + 1) with (level + Z.of_nat (S d)) by lia.
      rewrite (IH (S d)) by assumption. f_equal. lia. }
    destruct (Ascii.eqb c "]"%char).
    + destruct d as [|d']; [discriminate|].
      destruct (Z.eqb_spec (level + Z.of_nat (S d') - 1) 0); [lia|].
      replace (level + Z.of_nat (S d') - 1) with (level + Z.of_nat d') by lia.
      rewrite (IH d') by assumption. f_equal. lia.
    + rewrite (IH d) by assumption. f_equal. lia.
Qed.

(** A balanced body followed by a closing delimiter: the scan stops there. *)
Lemma depth_scan_balanced (t rest : str) (pos : Z) :
  balanced t ->
  depth_scan (t ++ "]"%char :: rest) pos 1 = pos + Z.of_nat (length t).
Proof.
  intros H.
  pose proof (depth_scan_over t ("]"%char :: rest) 0 0 pos 1 H) as E.
  simpl Z.of_nat in E. rewrite Z.add_0_r in E. rewrite E by lia.
  reflexivity.
Qed.

(** Conversely a scan that stops has read a body of the right nesting and
    stopped at the closing delimiter behind it. *)
Lemma depth_scan_stops (r : str) (d : nat) (pos : Z) :
  depth_scan r pos (1 + Z.of_nat d) <> -1 ->
  exists t rest,
    r = t ++ "]"%char :: rest /\
    depth_after t d = Some 0%nat /\
    depth_scan r pos (1 + Z.of_nat d) = pos + Z.of_nat (length t).
Proof.
  revert d pos. induction r as [|c r IH]; intros d pos H.
  - simpl in H. congruence.
  - cbn [depth_scan] in *.
    destruct (Ascii.eqb_spec c "["%char) as [->|N1].
    { replace (1 + Z.of_nat d + 1) with (1 + Z.of_nat (S d)) in * by lia.
      destruct (IH (S d) (pos + 1) H) as (t & rest & -> & Ht & E).
      exists ("["%char :: t), rest. split; [reflexivity|]. split.
      - exact Ht.
      - rewrite E. simpl length. lia. }
    destruct (Ascii.eqb_spec c "]"%char) as [->|N2].
    + destruct d as [|d'].
      * exists [], r. simpl. repeat split. lia.
      * destruct (Z.eqb_spec (1 + Z.of_nat (S d') - 1) 0); [lia|].
        replace (1 + Z.of_nat (S d') - 1) with (1 + Z.of_nat d') in * by lia.
        destruct (IH d' (pos + 1) H) as (t & rest & -> & Ht & E).
        exists ("]"%char :: t), rest. split; [reflexivity|]. split.
        -- exact Ht.
        -- rewrite E. simpl length. lia.
    + destruct (IH d (pos + 1) H) as (t & rest & -> & Ht & E).
      exists (c :: t), rest. split; [reflexivity|]. split.
      * cbn [depth_after].
        destruct (Ascii.eqb_spec c "["%char); [congruence|].
        destruct (Ascii.eqb_spec c "]"%char); [congruence|]. exact Ht.
      * rewrite E. simpl length. lia.
Qed.

(** A text splits in at most one way into a balanced body, a closing
    delimiter and a rest. *)
Lemma balanced_split_unique (t1 t2 r1 r2 : str) :
  balanced t1 -> balanced t2 ->
  t1 ++ "]"%char :: r1 = t2 ++ "]"%char :: r2 ->
  t1 = t2 /\ r1 = r2.
Proof.
  intros B1 B2 E.
  pose proof (depth_scan_balanced t1 r1 0 B1) as S1.
  pose proof (depth_scan_balanced t2 r2 0 B2) as S2.
  rewrite E in S1. rewrite S1 in S2.
  assert (Hl : length t1 = length t2) by lia.
  destruct (app_same_length _ _ _ _ Hl E) as [-> E'].
  injection E' as ->. now split.
Qed.

End MatchingFacts.

Module Matching.
Import BracketParser BracketSpec MatchingFacts.

(** A hit of [find] lies at or behind the start index, inside the string. *)
Lemma py_find_range (s : str) (c : ascii) (start : Z) :
  py_find s c start = -1 \/
  (start <= py_find s c start /\ 0 <= py_find s c start < py_len s).
Proof.
  unfold py_find.
  set (n := py_len s). set (st := norm_index n start).
  assert (Hst : 0 <= st /\ start <= st).
  { subst st. unfold norm_index. destruct (Z.ltb_spec start 0); lia. }
  destruct (Z.ltb_spec n st) as [Hlt|Hle]; [now left|].
  destruct (find_from_range (skipn (Z.to_nat st) s) c st) as [E|E];
    [now left | right].
  rewrite length_skipn in E. subst n. unfold py_len in *. lia.
Qed.

(** Every pass through the loop body returns, or moves the scan index
    strictly forward and keeps it inside the string. *)
Lemma matching_body_progress (s : str) (cur level : Z) :
  py_len s <= sys_maxsize ->
  match matching_body s (cur, level) with
  | Return _ => True
  | Continue (cur', _) => cur < cur' <= py_len s
  end.
Proof.
  intros Hmax. unfold matching_body.
  destruct (py_find_range s END_TAG cur) as [E|[E1 E2]].
  { rewrite E. exact I. }
  destruct (Z.eqb_spec (py_find s END_TAG cur) (-1)); [exact I|].
  destruct (py_find_range s START_TAG cur) as [S|[S1 S2]].
  - rewrite S. simpl Z.eqb. cbv iota.
    destruct (Z.ltb_spec sys_maxsize (py_find s END_TAG cur)); [lia|].
    destruct (level - 1 =? 0); [exact I | lia].
  - destruct (Z.eqb_spec (py_find s START_TAG cur) (-1)); [lia|].
    destruct (Z.ltb_spec (py_find s START_TAG cur) (py_find s END_TAG cur)).
    + lia.
    + destruct (level - 1 =? 0); [exact I | lia].
Qed.

(** C1. For every string [s] and every index [i] at which [s] has the opening
    delimiter, [matching_end_tag_index s i] returns the index of the closing
    delimiter that balances it under nesting-depth counting (the scan starts
    just past [i] at level 1, an opening delimiter increments the level, a
    closing delimiter decrements it, the first decrement to zero selects the
    match): that closing delimiter stands right behind a balanced body; and
    it returns -1 when no balancing closing delimiter exists.  On "[[X]]" at
    index 0 the result is 4, not 2. *)
Theorem matching_end_tag_index_balances :
  (forall (s : str) (i : Z),
      py_len s <= sys_maxsize ->
      0 <= i ->
      nth_error s (Z.to_nat i) = Some START_TAG ->
      matching_end_tag_index s i = Ok (balancing_close s i) /\
      ((exists t rest,
           skipn (Z.to_nat (i + 1)) s = t ++ END_TAG :: rest /\
           balanced t /\
           balancing_close s i = i + 1 + py_len t)
       \/
       (balancing_close s i = -1 /\
        ~ exists t rest,
            skipn (Z.to_nat (i + 1)) s = t ++ END_TAG :: rest /\ balanced t)))
  /\ matching_end_tag_index (py "[[X]]") 0 = Ok 4
  /\ matching_end_tag_index (py "[[X]]") 0 <> Ok 2.
Proof.
  split; [|split; [reflexivity | discriminate]].
  intros s i Hmax Hi Hn. split.
  - now apply matching_end_tag_index_scan.
  - unfold balancing_close.
    destruct (Z.eq_dec (depth_scan (skipn (Z.to_nat (i + 1)) s) (i + 1) 1) (-1))
      as [E|N].
    + right. split; [exact E|].
      intros (t & rest & Hs & Hb). rewrite Hs in E.
      unfold END_TAG in E. rewrite depth_scan_balanced in E by exact Hb. lia.
    + left. destruct (depth_scan_stops _ 0 (i + 1) N) as (t & rest & Hs & Hb & E).
      exists t, rest. split; [exact Hs|]. split; [exact Hb|].
      simpl in E. rewrite E. unfold py_len. lia.
Qed.

Lemma matching_end_tag_index_balances_witness :
  matching_end_tag_index (py "[[X]][Y]") 5
  = Ok (balancing_close (py "[[X]][Y]") 5).
Proof.
  apply (proj1 matching_end_tag_index_balances (py "[[X]][Y]") 5).
  - vm_compute. discriminate.
  - lia.
  - reflexivity.
Defined.

(** C10. [matching_end_tag_index] terminates: on a string with an opening
    delimiter at the start index, every pass through the loop body either
    returns or strictly increases the scan index (which stays inside the
    string), and the call returns -1 or an index behind the start index after
    at most [len s + 1] passes; a larger iteration bound changes nothing. *)
Theorem matching_end_tag_index_terminates (s : str) (i : Z) :
  py_len s <= sys_maxsize ->
  0 <= i ->
  nth_error s (Z.to_nat i) = Some START_TAG ->
  (forall cur level,
      match matching_body s (cur, level) with
      | Return _ => True
      | Continue (cur', _) => cur < cur' <= py_len s
      end)
  /\ exists r,
      matching_end_tag_index s i = Ok r /\
      (r = -1 \/ i < r < py_len s) /\
      forall fuel, (length s < fuel)%nat ->
                   matching_loop fuel s (i + 1, 1) = Some r.
Proof.
  intros Hmax Hi Hn.
  assert (Hlt : (Z.to_nat i < length s)%nat).
  { apply nth_error_Some. congruence. }
  split.
  - intros cur level. now apply matching_body_progress.
  - exists (balancing_close s i). split; [|split].
    + now apply matching_end_tag_index_scan.
    + unfold balancing_close.
      destruct (depth_scan_range (skipn (Z.to_nat (i + 1)) s) (i + 1) 1)
        as [E|E]; [now left | right].
      rewrite length_skipn in E. unfold py_len. lia.
    + intros fuel Hf. rewrite matching_loop_scan.
      * reflexivity.
      * unfold py_len. lia.
      * assumption.
      * rewrite length_skipn. lia.
Qed.

Lemma matching_end_tag_index_terminates_witness :
  exists r, matching_end_tag_index (py "[a[b]c]d") 0 = Ok r.
Proof.
  destruct (matching_end_tag_index_terminates (py "[a[b]c]d") 0)
    as (_ & r & Hr & _).
  - vm_compute. discriminate.
  - lia.
  - reflexivity.
  - exists r. exact Hr.
Defined.

End Matching.

(* ------------------------------------------------------------------------- *)
(** ** Validation and tokenizing *)

Module ParsingFacts.
Import BracketParser BracketSpec MatchingFacts.

Lemma encode_cons (t : str) (ts : list str) :
  encode (t :: ts) = "["%char :: t ++ "]"%char :: encode ts.
Proof.
  unfold encode, wrap. simpl. rewrite <- app_assoc. reflexivity.
Qed.

Lemma encode_length (ts : list str) : (length ts <= length (encode ts))%nat.
Proof.
  induction ts as [|t ts IH]; [simpl; lia|].
  rewrite encode_cons. simpl length. rewrite length_app. simpl length. lia.
Qed.

(** [find] of a character at its own index says the character is there. *)
Lemma find_from_here (r : str) (c : ascii) (i : Z) :
  0 <= i -> find_from r c i = i -> exists r', r = c :: r'.
Proof.
  intros Hi H. destruct r as [|x r]; simpl in H; [lia|].
  destruct (Ascii.eqb_spec x c) as [->|N].
  - now exists r.
  - destruct (find_from_range r c (i + 1)); lia.
Qed.

Lemma skipn_cons_nth {A} (n : nat) (l : list A) (x : A) (r : list A) :
  skipn n l = x :: r -> nth_error l n = Some x /\ skipn (S n) l = r.
Proof.
  revert l. induction n as [|n IH]; intros l H.
  - simpl in H. subst l. now split.
  - destruct l as [|y l]; [discriminate|]. simpl in H. now apply IH.
Qed.

Lemma nth_skipn_cons {A} (n : nat) (l : list A) (x : A) :
  nth_error l n = Some x -> skipn n l = x :: skipn (S n) l.
Proof.
  revert l. induction n as [|n IH]; intros l H.
  - destruct l; simpl in *; congruence.
  - destruct l as [|y l]; [discriminate|]. simpl in H. now apply IH.
Qed.

(** [matching_end_tag_index] on a token that starts at [p]. *)
Lemma matching_at_token (s t rest : str) (p : Z) :
  py_len s <= sys_maxsize ->
  0 <= p ->
  skipn (Z.to_nat p) s = "["%char :: t ++ "]"%char :: rest ->
  balanced t ->
  matching_end_tag_index s p = Ok (p + 1 + py_len t).
Proof.
  intros Hmax Hp Hs Hb.
  destruct (skipn_cons_nth _ _ _ _ Hs) as [Hn Hs'].
  rewrite matching_end_tag_index_scan by assumption.
  unfold balancing_close.
  replace (Z.to_nat (p + 1)) with (S (Z.to_nat p)) by lia.
  rewrite Hs', depth_scan_balanced by assumption. reflexivity.
Qed.

(** The length of the string, from a known rest. *)
Lemma py_len_from_suffix (s r : str) (p : Z) :
  0 <= p -> skipn (Z.to_nat p) s = r -> r <> [] ->
  py_len s = p + py_len r.
Proof.
  intros Hp Hs Hr. unfold py_len. subst r.
  rewrite length_skipn.
  destruct (Nat.le_gt_cases (length s) (Z.to_nat p)) as [Hle|Hgt]; [|lia].
  exfalso. apply Hr. now apply skipn_all2.
Qed.

(** The validation loop, started at an opening delimiter, accepts exactly the
    rests that are token sequences. *)
Lemma valid_loop_spec (fuel : nat) (s : str) (p : Z) :
  py_len s <= sys_maxsize ->
  0 <= p ->
  nth_error s (Z.to_nat p) = Some START_TAG ->
  (length (skipn (Z.to_nat p) s) < fuel)%nat ->
  exists b, valid_loop fuel s p = Ok b /\
            (b = true <-> token_sequence (skipn (Z.to_nat p) s)).
Proof.
  revert p. induction fuel as [|fuel IH]; intros p Hmax Hp Hn Hf; [lia|].
  cbn [valid_loop].
  rewrite matching_end_tag_index_scan by assumption. cbn [obind].
  pose proof (nth_skipn_cons _ _ _ Hn) as Hs.
  unfold balancing_close.
  replace (Z.to_nat (p + 1)) with (S (Z.to_nat p)) by lia.
  set (r := skipn (S (Z.to_nat p)) s) in *.
  destruct (Z.eqb_spec (depth_scan r (p + 1) 1) (-1)) as [E|N].
  { (* no balancing closing delimiter *)
    exists false. split; [reflexivity|]. split; [discriminate|].
    intros (ts & Hb & Hts). exfalso. rewrite Hs in Hts.
    destruct ts as [|t ts]; [discriminate|].
    rewrite encode_cons in Hts. injection Hts as Hts.
    inversion Hb as [|? ? Hbt _]; subst.
    rewrite Hts, depth_scan_balanced in E by assumption. lia. }
  destruct (depth_scan_stops r 0 (p + 1) N) as (t & rest & Hr & Hbt & E).
  simpl Z.of_nat in E. simpl Z.add in E. rewrite E.
  assert (Hlen : py_len s = p + Z.of_nat (length t) + 2 + py_len rest).
  { rewrite (py_len_from_suffix s _ p Hp Hs) by discriminate.
    unfold py_len. simpl length. rewrite Hr, length_app. simpl length. lia. }
  assert (Huniq : forall ts, Forall balanced ts ->
            START_TAG :: r = encode ts ->
            exists ts', ts = t :: ts' /\ Forall balanced ts' /\ rest = encode ts').
  { intros ts Hb Hts. destruct ts as [|t2 ts']; [discriminate|].
    rewrite encode_cons in Hts. injection Hts as Hts.
    inversion Hb as [|? ? Hbt2 Hb']; subst.
    rewrite Hr in Hts.
    destruct (balanced_split_unique _ _ _ _ Hbt Hbt2 Hts) as [-> ->].
    now exists ts'. }
  destruct (Z.geb_spec (p + 1 + Z.of_nat (length t) + 1) (py_len s)) as [Hge|Hlt].
  { (* the token ends the string *)
    exists true. split; [reflexivity|]. split; [|reflexivity]. intros _.
    assert (rest = []) as ->.
    { destruct rest; [reflexivity|]. unfold py_len in *. simpl length in *. lia. }
    exists [t]. split; [now constructor|].
    rewrite Hs, Hr. unfold encode, wrap. simpl. rewrite app_nil_r. reflexivity. }
  assert (Hrest : skipn (Z.to_nat (p + 1 + Z.of_nat (length t) + 1)) s = rest).
  { replace (Z.to_nat (p + 1 + Z.of_nat (length t) + 1))
      with (S (Z.to_nat p) + length t + 1)%nat by lia.
    apply skipn_past_prefix with (x := "]"%char). exact Hr. }
  rewrite py_find_suffix by lia. rewrite Hrest.
  set (q := p + 1 + Z.of_nat (length t) + 1) in *.
  destruct (Z.eqb_spec (find_from rest START_TAG q) q) as [Eq|Nq]; cbn [negb].
  - (* the next token starts right behind *)
    destruct (find_from_here rest START_TAG q ltac:(lia) Eq) as (rest' & Hrest').
    assert (Hnq : nth_error s (Z.to_nat q) = Some START_TAG).
    { rewrite Hrest' in Hrest. now apply skipn_cons_nth in Hrest. }
    destruct (IH q Hmax ltac:(lia) Hnq) as (b & Hb & Hiff).
    { rewrite Hrest. rewrite Hs in Hf. simpl length in Hf.
      rewrite Hr, length_app in Hf. simpl length in Hf. lia. }
    exists b. split; [rewrite Eq; exact Hb|]. rewrite Hiff, Hrest, Hs. split.
    + intros (ts' & Hb' & ->). exists (t :: ts'). split; [now constructor|].
      rewrite encode_cons, Hr. reflexivity.
    + intros (ts & Hbs & Hts).
      destruct (Huniq ts Hbs Hts) as (ts' & -> & Hb' & ->). now exists ts'.
  - (* something else stands behind the token *)
    exists false. split; [reflexivity|]. split; [discriminate|].
    intros (ts & Hbs & Hts). exfalso. rewrite Hs in Hts.
    destruct (Huniq ts Hbs Hts) as (ts' & -> & Hb' & Hre).
    destruct ts' as [|t3 ts''].
    + rewrite Hre in Hlen. subst q. unfold py_len in *. simpl in Hlen. lia.
    + rewrite encode_cons in Hre. rewrite Hre in Nq. simpl in Nq. lia.
Qed.

End ParsingFacts.

Module Parsing.
Import BracketParser BracketSpec MatchingFacts ParsingFacts.

(** [is_valid_parse_string] always answers, and says yes exactly on the token
    sequences. *)
Lemma is_valid_parse_string_spec (s : str) :
  py_len s <= sys_maxsize ->
  exists b, is_valid_parse_string s = Ok b /\ (b = true <-> token_sequence s).
Proof.
  intros Hmax. unfold is_valid_parse_string.
  destruct s as [|c r] eqn:Es.
  { exists true. split; [reflexivity|]. split; [|reflexivity].
    intros _. exists []. split; [constructor | reflexivity]. }
  rewrite <- Es in *.
  assert (Hlen : (py_len s =? 0) = false).
  { apply Z.eqb_neq. subst s. unfold py_len. simpl length. lia. }
  rewrite Hlen.
  rewrite py_find_suffix by (unfold py_len; lia). simpl skipn.
  destruct (Z.eqb_spec (find_from s START_TAG 0) 0) as [E|N]; cbn [negb].
  - destruct (find_from_here s START_TAG 0 ltac:(lia) E) as (r' & Hr').
    destruct (valid_loop_spec (S (length s)) s 0 Hmax ltac:(lia)) as (b & Hb & Hiff).
    + rewrite Hr'. reflexivity.
    + simpl skipn. lia.
    + exists b. split; [exact Hb|]. exact Hiff.
  - exists false. split; [reflexivity|]. split; [discriminate|].
    intros (ts & _ & Hts). exfalso.
    destruct ts as [|t ts]; [subst s; discriminate|].
    rewrite encode_cons in Hts. rewrite Hts in N. simpl in N. lia.
Qed.

(** C7. [is_valid_parse_string] accepts exactly the strings that are a
    (possibly empty) concatenation of bracket tokens, each token starting
    where the closing delimiter of the previous one ended, with no gaps and no
    extra characters; an accepted string is empty or begins with an opening
    delimiter.  It accepts "", "[A]" and "[A][B]", and rejects "[A][B]extra"
    and "A]". *)
Theorem is_valid_parse_string_accepts_token_sequences :
  (forall s : str,
      py_len s <= sys_maxsize ->
      exists b,
        is_valid_parse_string s = Ok b /\
        (b = true <-> token_sequence s) /\
        (b = true -> s = [] \/ exists r, s = START_TAG :: r))
  /\ is_valid_parse_string (py "") = Ok true
  /\ is_valid_parse_string (py "[A]") = Ok true
  /\ is_valid_parse_string (py "[A][B]") = Ok true
  /\ is_valid_parse_string (py "[A][B]extra") = Ok false
  /\ is_valid_parse_string (py "A]") = Ok false.
Proof.
  split; [|repeat split; reflexivity].
  intros s Hmax.
  destruct (is_valid_parse_string_spec s Hmax) as (b & Hb & Hiff).
  exists b. split; [exact Hb|]. split; [exact Hiff|].
  intros Ht. apply Hiff in Ht. destruct Ht as (ts & _ & ->).
  destruct ts as [|t ts]; [now left | right].
  rewrite encode_cons. eexists. reflexivity.
Qed.

Lemma is_valid_parse_string_accepts_token_sequences_witness :
  exists b,
    is_valid_parse_string (py "[A][[B1][B2]]") = Ok b /\
    (b = true <-> token_sequence (py "[A][[B1][B2]]")).
Proof.
  destruct (proj1 is_valid_parse_string_accepts_token_sequences
              (py "[A][[B1][B2]]")) as (b & Hb & Hiff & _).
  - vm_compute. discriminate.
  - exists b. split; assumption.
Defined.

(** The slice from a known position over a known prefix of the rest. *)
Lemma py_slice_prefix (s t rest : str) (a : Z) :
  0 <= a ->
  skipn (Z.to_nat a) s = t ++ rest ->
  rest <> [] ->
  py_slice s a (a + py_len t) = t.
Proof.
  intros Ha Hs Hr.
  assert (Hlen : py_len s = a + py_len (t ++ rest)).
  { apply py_len_from_suffix; try assumption. destruct t; [assumption | discriminate]. }
  unfold py_slice. unfold py_len in *. rewrite length_app in Hlen.
  rewrite !norm_index_nonneg by lia. rewrite !Z.min_l by lia.
  rewrite Hs.
  replace (Z.to_nat (a + Z.of_nat (length t) - a)) with (length t) by lia.
  rewrite firstn_app, Nat.sub_diag, firstn_all. simpl. apply app_nil_r.
Qed.

(** The tokenizing loop, from a position whose rest is a token sequence,
    appends exactly its tokens. *)
Lemma parse_loop_encode (ts : list str) :
  forall (fuel : nat) (s : str) (p : Z) (acc : list str),
    py_len s <= sys_maxsize ->
    0 <= p <= py_len s ->
    Forall balanced ts ->
    skipn (Z.to_nat p) s = encode ts ->
    (length ts < fuel)%nat ->
    parse_loop fuel {| _parse_string := s; _current_position := p |} acc
    = Ok (acc ++ ts).
Proof.
  induction ts as [|t ts IH]; intros fuel s p acc Hmax Hp Hb Hs Hf;
    (destruct fuel as [|fuel]; [simpl in Hf; lia|]).
  - cbn [parse_loop]. unfold has_next_token. cbn [_parse_string _current_position].
    assert (Hl : (py_len s - p =? 0) = true).
    { apply Z.eqb_eq. pose proof (length_skipn (Z.to_nat p) s) as L.
      rewrite Hs in L. simpl in L. unfold py_len in *. lia. }
    rewrite Hl. cbn [obind]. now rewrite app_nil_r.
  - rewrite encode_cons in Hs. inversion Hb as [|? ? Hbt Hbs]; subst.
    destruct (skipn_cons_nth _ _ _ _ Hs) as [Hn Hs'].
    assert (Hlen : py_len s = p + (py_len t + 2 + py_len (encode ts))).
    { rewrite (py_len_from_suffix s _ p (proj1 Hp) Hs) by discriminate.
      unfold py_len. simpl length. rewrite length_app. simpl length. lia. }
    assert (Hfind : py_find s START_TAG p = p).
    { rewrite py_find_suffix by lia. rewrite Hs. reflexivity. }
    assert (Hm : matching_end_tag_index s p = Ok (p + 1 + py_len t)).
    { now apply matching_at_token with (rest := encode ts). }
    cbn [parse_loop]. unfold has_next_token, next_token.
    cbn [_parse_string _current_position].
    assert (Hl : (py_len s - p =? 0) = false).
    { apply Z.eqb_neq. unfold py_len in *. lia. }
    rewrite Hl, Hfind, Z.eqb_refl, Hm. cbn [negb obind].
    assert (Hne : (p + 1 + py_len t =? -1) = false).
    { apply Z.eqb_neq. unfold py_len. lia. }
    assert (Hgt : (p + 1 + py_len t >? -1) = true).
    { apply Z.gtb_lt. unfold py_len. lia. }
    rewrite Hne, Hgt. cbn [negb obind].
    assert (Htok : py_slice s (p + 1) (p + 1 + py_len t) = t).
    { apply py_slice_prefix with (rest := "]"%char :: encode ts).
      - lia.
      - replace (Z.to_nat (p + 1)) with (S (Z.to_nat p)) by lia. exact Hs'.
      - discriminate. }
    rewrite Htok.
    rewrite IH; try assumption.
    + rewrite <- app_assoc. reflexivity.
    + unfold py_len in *. lia.
    + replace (Z.to_nat (p + 1 + py_len t + 1))
        with (S (Z.to_nat p) + length t + 1)%nat by (unfold py_len; lia).
      apply skipn_past_prefix with (x := "]"%char). exact Hs'.
    + simpl in Hf. lia.
Qed.

(** C2. For every string [s] that [is_valid_parse_string] accepts, [parse s]
    returns a token list, and writing '[' + t + ']' for each of its tokens
    [t], in order, gives [s] again. *)
Theorem parse_then_encode_is_identity (s : str) :
  py_len s <= sys_maxsize ->
  is_valid_parse_string s = Ok true ->
  exists tokens, parse s = Ok tokens /\ encode tokens = s.
Proof.
  intros Hmax Hv.
  destruct (is_valid_parse_string_spec s Hmax) as (b & Hb & Hiff).
  rewrite Hv in Hb. injection Hb as <-.
  destruct (proj1 Hiff eq_refl) as (ts & Hbs & Hs).
  exists ts. split; [|now symmetry].
  unfold parse. rewrite Hv. cbn [obind negb]. unfold __init__.
  rewrite (parse_loop_encode ts); try assumption.
  - reflexivity.
  - unfold py_len. lia.
  - pose proof (encode_length ts) as L. rewrite <- Hs in L. lia.
Qed.

Lemma parse_then_encode_is_identity_witness :
  exists tokens,
    parse (py "[A][[B1][B2]][]") = Ok tokens /\
    encode tokens = py "[A][[B1][B2]][]".
Proof.
  apply parse_then_encode_is_identity.
  - vm_compute. discriminate.
  - reflexivity.
Defined.

End Parsing.

(* ------------------------------------------------------------------------- *)
(** ** The command channel *)

Module Transport.
Import concept errors.

(** The first ten characters of a text that begins with a ten-character
    marker. *)
Lemma py_slice_to_marker (marker rest : str) :
  length marker = 10%nat ->
  py_slice_to (marker ++ rest) 10 = marker.
Proof.
  intros Hm. unfold py_slice_to, py_slice, py_len.
  rewrite length_app, Hm. rewrite !norm_index_nonneg by lia.
  rewrite !Z.min_l by lia. simpl Z.to_nat. simpl skipn.
  replace (Pos.to_nat 10) with (length marker) by (rewrite Hm; reflexivity).
  rewrite firstn_app, Nat.sub_diag, firstn_all. simpl. apply app_nil_r.
Qed.

(** [r[10:-1]] of a marker, a payload and one last character. *)
Lemma py_slice_payload (marker payload : str) (last : ascii) :
  length marker = 10%nat ->
  py_slice (marker ++ payload ++ [last]) 10 (-1) = payload.
Proof.
  intros Hm. unfold py_slice, py_len.
  rewrite !length_app, Hm. simpl length.
  rewrite (norm_index_nonneg _ 10) by lia.
  replace (norm_index (Z.of_nat (10 + (length payload + 1))) (-1))
    with (Z.of_nat (10 + length payload)).
  2:{ unfold norm_index. destruct (Z.ltb_spec (-1) 0); lia. }
  rewrite !Z.min_l by lia.
  replace (Z.to_nat (Z.of_nat (10 + length payload) - 10))
    with (length payload) by lia.
  replace (Z.to_nat 10) with (length marker) by (rewrite Hm; reflexivity).
  rewrite skipn_app, Nat.sub_diag, skipn_all. simpl.
  rewrite firstn_app, Nat.sub_diag, firstn_all. simpl. apply app_nil_r.
Qed.

(** A well-formed success envelope gives its payload. *)
Lemma unwrap_success (payload : str) :
  unwrap (py "[SUCCESS][" ++ payload ++ py "]") = Ok payload.
Proof.
  unfold unwrap. rewrite py_slice_to_marker by reflexivity.
  change (py "]") with ["]"%char].
  rewrite str_eqb_refl. now rewrite py_slice_payload.
Qed.

(** A well-formed failure envelope raises, with a message made of "Error: "
    and the payload. *)
Lemma unwrap_failure (payload : str) :
  unwrap (py "[FAILURE][" ++ payload ++ py "]")
  = Raise (Exception (py "Error: " ++ payload)).
Proof.
  unfold unwrap. rewrite py_slice_to_marker by reflexivity.
  replace (str_eqb (py "[FAILURE][") (py "[SUCCESS][")) with false by reflexivity.
  change (py "]") with ["]"%char].
  rewrite str_eqb_refl. now rewrite py_slice_payload.
Qed.

(** What [_command] does to the [Concept] object, whatever the reply. *)
Lemma command_state (server : process) (cmd : str) (self : Concept) :
  snd (_command server cmd self)
  = {| _nextRequestId := _nextRequestId self + 1;
       posted := posted self ++ [(_nextRequestId self, cmd)] |}.
Proof.
  unfold _command. destruct (server _ _); reflexivity.
Qed.

(** C5, as the code has it.  For every response text [r] that a round trip
    brings back, exactly one of three outcomes occurs, by the first ten
    characters of [r]: if they are '[SUCCESS][' the call returns the inner
    payload [r[10:-1]]; if they are '[FAILURE][' it raises a RemoteError whose
    message is 'Error: ' followed by the inner payload; otherwise it raises an
    InternalError whose message embeds [r].  The inner payload [r[10:-1]] is
    [r] without the marker and without its last character, the closing
    delimiter of a well-formed envelope. *)
Theorem command_envelope_outcomes (server : process) (self : Concept)
  (cmd r : str) :
  server (posted self) (_nextRequestId self, cmd) = HttpText r ->
  let payload := py_slice r 10 (-1) in
  let out := fst (_command server cmd self) in
  ((py_slice_to r 10 = py "[SUCCESS][" /\ out = Ok payload)
   \/
   (py_slice_to r 10 = py "[FAILURE][" /\
    out = Raise (Exception (py "Error: " ++ payload)) /\
    (forall e, out = Raise e -> RemoteError e /\ message e = py "Error: " ++ payload))
   \/
   (py_slice_to r 10 <> py "[SUCCESS][" /\
    py_slice_to r 10 <> py "[FAILURE][" /\
    out = Raise (Exception
                   (py "Internal Error: Invalid result returned from Concept process: "
                       ++ r)) /\
    (forall e, out = Raise e -> InternalError e)))
  /\ (forall inner last,
         r = py "[SUCCESS][" ++ inner ++ [last] \/
         r = py "[FAILURE][" ++ inner ++ [last] -> payload = inner).
Proof.
  intros Hr payload out. split.
  - subst out. unfold _command. rewrite Hr. cbn [fst]. unfold unwrap.
    fold payload.
    destruct (str_eqb (py_slice_to r 10) (py "[SUCCESS][")) eqn:Es.
    { left. apply str_eqb_eq in Es. now split. }
    apply str_eqb_neq in Es.
    destruct (str_eqb (py_slice_to r 10) (py "[FAILURE][")) eqn:Ef.
    { right; left. apply str_eqb_eq in Ef. split; [exact Ef|].
      split; [reflexivity|]. intros e He. injection He as <-.
      split; [now exists payload | reflexivity]. }
    apply str_eqb_neq in Ef.
    right; right. repeat split; try assumption.
    intros e He. injection He as <-. left. now exists r.
  - intros inner last [-> | ->]; subst payload;
      now apply py_slice_payload.
Qed.

Lemma command_envelope_outcomes_witness :
  fst (_command (fun _ _ => HttpText (py "[SUCCESS][PONG]")) (py "[PING]")
         {| _nextRequestId := 0; posted := [] |})
  = Ok (py "PONG").
Proof.
  destruct (command_envelope_outcomes
              (fun _ _ => HttpText (py "[SUCCESS][PONG]"))
              {| _nextRequestId := 0; posted := [] |}
              (py "[PING]") (py "[SUCCESS][PONG]") eq_refl)
    as [[(_ & H) | [(H & _) | (H & _)]] _].
  - exact H.
  - vm_compute in H. discriminate.
  - exfalso. apply H. reflexivity.
Defined.

(** C5 as stated fails: on the response "[FAILURE][boom]" the call raises, but
    the message of the exception is not the inner payload "boom". *)
Lemma remote_error_message_is_not_the_payload :
  let r := py "[FAILURE][boom]" in
  let out := fst (_command (fun _ _ => HttpText r) (py "[PING]")
                    {| _nextRequestId := 0; posted := [] |}) in
  py_slice r 10 (-1) = py "boom" /\
  ~ exists e, out = Raise e /\ message e = py_slice r 10 (-1).
Proof.
  split; [reflexivity|].
  intros (e & He & Hm). vm_compute in He. injection He as <-.
  vm_compute in Hm. discriminate.
Qed.

End Transport.

(* ------------------------------------------------------------------------- *)
(** ** Property access *)

Module Properties.
Import concept data add_property errors.

Lemma bind_lift_ok {A B} (a : A) (k : A -> M B) (c : Concept) :
  bind (lift (Ok a)) k c = k a c.
Proof. reflexivity. Qed.

(** The validation of a value, by the delimiters in it. *)
Lemma invalid_value_cases (value : str) :
  (In "["%char value /\
   utilities._raise_if_invalid_string_property_value value
   = Raise (Exception (py "String property values cannot contain '['.")))
  \/
  (~ In "["%char value /\ In "]"%char value /\
   utilities._raise_if_invalid_string_property_value value
   = Raise (Exception (py "String property values cannot contain ']'.")))
  \/
  (~ In "["%char value /\ ~ In "]"%char value /\
   utilities._raise_if_invalid_string_property_value value = Ok tt).
Proof.
  unfold utilities._raise_if_invalid_string_property_value.
  destruct (py_in "["%char value) eqn:E1.
  { left. apply py_in_true in E1. now split. }
  apply py_in_false in E1.
  destruct (py_in "]"%char value) eqn:E2.
  { right; left. apply py_in_true in E2. now repeat split. }
  apply py_in_false in E2. right; right. now repeat split.
Qed.

(** C6. For every property write ([Data._set_property], through which every
    typed setter goes): if the value to be transmitted contains an opening or
    a closing delimiter, an InvalidValue error is raised and the [Concept]
    object is untouched, so nothing was posted; a value that contains neither
    delimiter passes the validation, and the write posts its command. *)
Theorem set_property_validates_before_sending (server : process) (self : Data)
  (property_name value : str) (units : _PropertyUnits) (c : Concept) :
  (In "["%char value \/ In "]"%char value ->
   exists e,
     _set_property server self property_name value units c = (Raise e, c) /\
     InvalidValue e)
  /\
  (~ In "["%char value -> ~ In "]"%char value ->
   utilities._raise_if_invalid_string_property_value value = Ok tt /\
   posted (snd (_set_property server self property_name value units c))
   = posted c
       ++ [(_nextRequestId c,
            py "[WITH_TARGET][" ++ str_of_int (_uid self) ++ py "]["
               ++ (py "["
                      ++ match units with
                         | Internal => py "SET_PROP_INTERNAL"
                         | User => py "SET_PROP_USER"
                         end
                      ++ py "][" ++ property_name ++ py "][" ++ value ++ py "]")
               ++ py "]")]).
Proof.
  unfold _set_property.
  destruct (invalid_value_cases value)
    as [(H1 & E) | [(H1 & H2 & E) | (H1 & H2 & E)]]; rewrite E; split.
  - intros _. eexists. split; [reflexivity | now left].
  - intros N. contradiction.
  - intros _. eexists. split; [reflexivity | now right].
  - intros _ N. contradiction.
  - intros [H | H]; contradiction.
  - intros _ _. split; [reflexivity|].
    rewrite bind_lift_ok. unfold bind, data._command.
    match goal with |- context [concept._command server ?cmd c] =>
      pose proof (Transport.command_state server cmd c) as S;
      destruct (concept._command server cmd c) as [[a|e|] c'] end;
      cbn [snd] in *; subst c'; reflexivity.
Qed.

Lemma set_property_validates_before_sending_witness :
  exists e,
    _set_property (fun _ _ => HttpText (py "[SUCCESS][]"))
      (PointLoad 7 1) (py "Name") (py "a[b") Internal
      {| _nextRequestId := 0; posted := [] |}
    = (Raise e, {| _nextRequestId := 0; posted := [] |}) /\
    InvalidValue e.
Proof.
  apply (proj1 (set_property_validates_before_sending
                  (fun _ _ => HttpText (py "[SUCCESS][]"))
                  (PointLoad 7 1) (py "Name") (py "a[b") Internal
                  {| _nextRequestId := 0; posted := [] |})).
  left. simpl. auto.
Defined.

(** [lower_char] against every lower-case letter, on all 256 characters. *)
Lemma lower_char_table :
  forallb (fun n =>
    forallb (fun m =>
      Bool.eqb (Ascii.eqb (lower_char (ascii_of_nat n)) (ascii_of_nat m))
               (Ascii.eqb (ascii_of_nat n) (ascii_of_nat m)
                || Ascii.eqb (ascii_of_nat n) (upper_letter (ascii_of_nat m))))
      (seq 97 26))
    (seq 0 256) = true.
Proof. vm_compute. reflexivity. Qed.

(** A character lowers to a lower-case letter exactly when it is that letter,
    in lower or in upper case. *)
Lemma lower_char_letter (c l : ascii) :
  (97 <= nat_of_ascii l <= 122)%nat ->
  lower_char c = l <-> (c = l \/ c = upper_letter l).
Proof.
  intros Hl.
  pose proof lower_char_table as T. rewrite forallb_forall in T.
  specialize (T (nat_of_ascii c)).
  rewrite forallb_forall in T.
  assert (Hc : In (nat_of_ascii c) (seq 0 256)).
  { apply in_seq. pose proof (nat_ascii_bounded c). lia. }
  specialize (T Hc (nat_of_ascii l)).
  assert (Hm : In (nat_of_ascii l) (seq 97 26)) by (apply in_seq; lia).
  specialize (T Hm). rewrite !ascii_nat_embedding in T.
  apply Bool.eqb_prop in T.
  split.
  - intros E. apply Ascii.eqb_eq in E. rewrite T in E.
    apply orb_true_iff in E. destruct E as [E|E]; apply Ascii.eqb_eq in E; auto.
  - intros E. apply Ascii.eqb_eq. rewrite T. apply orb_true_iff.
    destruct E as [E|E]; [left | right]; now apply Ascii.eqb_eq.
Qed.

(** A text lowers to a word of lower-case letters exactly when it is a casing
    of that word. *)
Lemma py_lower_casing (literal raw : str) :
  Forall (fun l => (97 <= nat_of_ascii l <= 122)%nat) literal ->
  py_lower raw = literal <-> casing_of literal raw.
Proof.
  intros Hl. revert raw. induction Hl as [|l literal Hl _ IH]; intros raw.
  - split.
    + destruct raw; [constructor | discriminate].
    + intros H. inversion H. reflexivity.
  - split.
    + destruct raw as [|r raw]; [discriminate|]. simpl. intros E.
      injection E as E1 E2. constructor.
      * now apply lower_char_letter.
      * now apply IH.
    + intros H. inversion H as [|? r ? raw' Hr Hraw]; subst. simpl. f_equal.
      * now apply lower_char_letter.
      * now apply IH.
Qed.

Lemma true_is_letters :
  Forall (fun l => (97 <= nat_of_ascii l <= 122)%nat) (py "true").
Proof. repeat constructor; simpl; lia. Qed.

Lemma false_is_letters :
  Forall (fun l => (97 <= nat_of_ascii l <= 122)%nat) (py "false").
Proof. repeat constructor; simpl; lia. Qed.

(** The text of the command that reads a property in internal units. *)
Lemma get_bool_property_run (server : process) (self : Data)
  (property_name raw : str) (c : Concept) :
  server (posted c)
    (_nextRequestId c,
     py "[WITH_TARGET][" ++ str_of_int (_uid self) ++ py "]["
        ++ (py "[GET_PROP_INTERNAL][" ++ property_name ++ py "]") ++ py "]")
  = HttpText (py "[SUCCESS][" ++ raw ++ py "]") ->
  fst (_get_bool_property server self property_name c)
  = if str_eqb (py_lower raw) (py "true") then Ok true
    else if str_eqb (py_lower raw) (py "false") then Ok false
    else Raise (Exception (py "Unexpected bool string: " ++ raw)).
Proof.
  intros Hr.
  unfold _get_bool_property, _get_property, data._command, bind,
    concept._command.
  cbv zeta.
  match goal with
  | |- context [server ?h ?rq] =>
      replace (server h rq) with (HttpText (py "[SUCCESS][" ++ raw ++ py "]"))
        by (symmetry; exact Hr)
  end.
  rewrite Transport.unwrap_success.
  destruct (str_eqb (py_lower raw) _); [reflexivity|].
  destruct (str_eqb (py_lower raw) _); reflexivity.
Qed.

(** C8. For every property name, decoding a bool property compares the raw
    internal string, whatever its letter case, with "true" and "false": every
    casing of "true" decodes to True, every casing of "false" to False, and
    any other raw value raises an InternalError. *)
Theorem bool_property_decodes_case_insensitively (server : process)
  (self : Data) (property_name raw : str) (c : Concept) :
  server (posted c)
    (_nextRequestId c,
     py "[WITH_TARGET][" ++ str_of_int (_uid self) ++ py "]["
        ++ (py "[GET_PROP_INTERNAL][" ++ property_name ++ py "]") ++ py "]")
  = HttpText (py "[SUCCESS][" ++ raw ++ py "]") ->
  let out := fst (_get_bool_property server self property_name c) in
  (casing_of (py "true") raw -> out = Ok true) /\
  (casing_of (py "false") raw -> out = Ok false) /\
  (~ casing_of (py "true") raw -> ~ casing_of (py "false") raw ->
   out = Raise (Exception (py "Unexpected bool string: " ++ raw)) /\
   InternalError (Exception (py "Unexpected bool string: " ++ raw))).
Proof.
  intros Hr out. subst out. rewrite (get_bool_property_run _ _ _ raw) by exact Hr.
  pose proof (py_lower_casing (py "true") raw true_is_letters) as Ht.
  pose proof (py_lower_casing (py "false") raw false_is_letters) as Hf.
  destruct (str_eqb (py_lower raw) (py "true")) eqn:Et.
  { apply str_eqb_eq in Et. split; [reflexivity|]. split.
    - intros H. apply Hf in H. rewrite Et in H. discriminate.
    - intros N. exfalso. apply N, Ht, Et. }
  apply str_eqb_neq in Et.
  destruct (str_eqb (py_lower raw) (py "false")) eqn:Ef.
  { apply str_eqb_eq in Ef. split; [|split].
    - intros H. exfalso. apply Et, Ht, H.
    - reflexivity.
    - intros _ N. exfalso. apply N, Hf, Ef. }
  apply str_eqb_neq in Ef. split; [|split].
  - intros H. exfalso. apply Et, Ht, H.
  - intros H. exfalso. apply Ef, Hf, H.
  - intros _ _. split; [reflexivity|]. right. now exists raw.
Qed.

Lemma bool_property_decodes_case_insensitively_witness :
  fst (_get_bool_property (fun _ _ => HttpText (py "[SUCCESS][True]"))
         (PointLoad 7 1) (py "Visible") {| _nextRequestId := 0; posted := [] |})
  = Ok true
  /\
  fst (_get_bool_property (fun _ _ => HttpText (py "[SUCCESS][maybe]"))
         (PointLoad 7 1) (py "Visible") {| _nextRequestId := 0; posted := [] |})
  = Raise (Exception (py "Unexpected bool string: maybe")).
Proof.
  split.
  - apply (bool_property_decodes_case_insensitively
             (fun _ _ => HttpText (py "[SUCCESS][True]"))
             (PointLoad 7 1) (py "Visible") (py "True")
             {| _nextRequestId := 0; posted := [] |} eq_refl).
    unfold casing_of, py. simpl.
    repeat (apply Forall2_cons; [first [now left | now right]|]).
    apply Forall2_nil.
  - apply (bool_property_decodes_case_insensitively
             (fun _ _ => HttpText (py "[SUCCESS][maybe]"))
             (PointLoad 7 1) (py "Visible") (py "maybe")
             {| _nextRequestId := 0; posted := [] |} eq_refl).
    + intros H. apply Forall2_length in H. discriminate.
    + intros H. inversion H as [|? ? ? ? H1 _]; subst.
      destruct H1 as [E|E]; vm_compute in E; discriminate.
Defined.

(** Every property constructor other than [_point_property] makes a setter
    that first checks the read-only flag: on a read-only entity it raises a
    ReadOnlyError and leaves the [Concept] object untouched, so nothing was
    encoded or posted. *)
Lemma setters_check_read_only_first (rt : runtime) (pkg : package)
  (server : process) (kind : property_kind) (name : str) (self : Data)
  (value : pyval) (c : Concept) :
  kind <> PointProperty ->
  _read_only self = true ->
  exists e,
    assign (make_property rt pkg server kind name) self value c = (Raise e, c)
    /\ ReadOnlyError e.
Proof.
  intros Hk Hro.
  exists (Exception (py "Cannot set properties of read-only "
                        ++ class_name self ++ py ".")).
  split; [|now exists (class_name self)].
  destruct kind; try congruence;
    unfold assign, make_property; cbn [fset _string_property _float_property
      _int_property _bool_property _bool_string_property _data_property
      _no_none_data_property _enum_string_property _enum_int_property];
    unfold _set_property_raise_if_read_only, _class_name; rewrite Hro;
    reflexivity.
Qed.


End Properties.

(* ------------------------------------------------------------------------- *)
(** ** Lists of floats *)

Module Floats.
Import BracketParser errors.

Lemma user_str_to_API_float_sentinel (float_of_str : str -> option float)
  (token : str) :
  utilities._user_str_to_API_float float_of_str token
  = match sentinel_float float_of_str token with
    | Some v => Ok v
    | None => Raise (ValueError token)
    end.
Proof.
  unfold utilities._user_str_to_API_float, sentinel_float.
  destruct (str_eqb token (py "infinite")); [reflexivity|].
  destruct (str_eqb token (py "-infinite")); [reflexivity|].
  destruct (float_of_str token); reflexivity.
Qed.

Lemma floats_loop_converts (float_of_str : str -> option float)
  (tokens : list str) (values acc : list float) :
  Forall2 (fun t v => sentinel_float float_of_str t = Some v) tokens values ->
  floats_loop float_of_str tokens acc = Ok (acc ++ values).
Proof.
  intros H. revert acc. induction H as [|t v tokens values Ht _ IH]; intros acc.
  - simpl. now rewrite app_nil_r.
  - cbn [floats_loop]. rewrite user_str_to_API_float_sentinel, Ht.
    cbn [obind]. rewrite IH, <- app_assoc. reflexivity.
Qed.

(** C9. [parse_floats] tokenizes its input and converts each token to a float;
    the tokens "infinite" and "-infinite" stand for the largest finite float
    and its negation, not for an infinity; and
    [parse_floats("[1.5][infinite][-infinite]")] is [[1.5, MAX_FLOAT,
    -MAX_FLOAT]]. *)
Theorem parse_floats_finite_sentinels (float_of_str : str -> option float) :
  (forall s tokens values,
      parse s = Ok tokens ->
      Forall2 (fun t v => sentinel_float float_of_str t = Some v) tokens values ->
      parse_floats float_of_str s = Ok values)
  /\ utilities._user_str_to_API_float float_of_str (py "infinite")
     = Ok utilities.float_info_max
  /\ utilities._user_str_to_API_float float_of_str (py "-infinite")
     = Ok (- utilities.float_info_max)%float
  /\ PrimFloat.is_infinity utilities.float_info_max = false
  /\ PrimFloat.is_nan utilities.float_info_max = false
  /\ PrimFloat.next_up utilities.float_info_max = PrimFloat.infinity
  /\ PrimFloat.next_down (- utilities.float_info_max)%float
     = PrimFloat.neg_infinity
  /\ (float_of_str (py "1.5") = Some 1.5%float ->
      parse_floats float_of_str (py "[1.5][infinite][-infinite]")
      = Ok [1.5%float; utilities.float_info_max;
            (- utilities.float_info_max)%float]).
Proof.
  split; [|repeat split; try reflexivity].
  - intros s tokens values Hp Hv. unfold parse_floats. rewrite Hp.
    cbn [obind]. now rewrite (floats_loop_converts _ _ values).
  - intros H. unfold parse_floats.
    replace (parse (py "[1.5][infinite][-infinite]"))
      with (@Ok (list str) [py "1.5"; py "infinite"; py "-infinite"])
      by reflexivity.
    cbn [obind floats_loop]. unfold utilities._user_str_to_API_float at 1.
    replace (str_eqb (py "1.5") (py "infinite")) with false by reflexivity.
    replace (str_eqb (py "1.5") (py "-infinite")) with false by reflexivity.
    rewrite H. reflexivity.
Qed.

Lemma parse_floats_finite_sentinels_witness :
  parse_floats
    (fun s => if str_eqb s (py "1.5") then Some 1.5%float else None)
    (py "[1.5][infinite][-infinite]")
  = Ok [1.5%float; utilities.float_info_max; (- utilities.float_info_max)%float].
Proof.
  apply (parse_floats_finite_sentinels
           (fun s => if str_eqb s (py "1.5") then Some 1.5%float else None)).
  reflexivity.
Defined.

End Floats.

(* ------------------------------------------------------------------------- *)
(** ** Bulk creation against the stand-in process *)

Module Numerals.

(** The characters of a decimal numeral. *)
Lemma uint_chars (d : Decimal.uint) :
  Forall (fun c => In c (py "0123456789"))
         (list_ascii_of_string (NilEmpty.string_of_uint d)).
Proof.
  induction d; simpl; constructor; try assumption; simpl; tauto.
Qed.

Lemma str_of_int_chars (z : Z) :
  Forall (fun c => In c (py "-0123456789")) (str_of_int z).
Proof.
  unfold str_of_int.
  assert (U : forall d, Forall (fun c => In c (py "-0123456789"))
                (list_ascii_of_string (NilZero.string_of_uint d))).
  { intros d. assert (H := uint_chars d).
    destruct d;
      try (eapply Forall_impl; [|exact H]; simpl; tauto).
    simpl. constructor; [simpl; tauto | constructor]. }
  destruct (Z.to_int z) as [d|d]; simpl.
  - apply U.
  - constructor; [simpl; tauto | apply U].
Qed.

Lemma str_of_int_no_close (z : Z) : ~ In "]"%char (str_of_int z).
Proof.
  intros H. pose proof (str_of_int_chars z) as F.
  rewrite Forall_forall in F. specialize (F _ H). simpl in F.
  repeat (destruct F as [F|F]; [discriminate|]). exact F.
Qed.

Lemma str_of_int_head (z : Z) :
  exists c r, str_of_int z = c :: r /\ c <> "$"%char.
Proof.
  pose proof (str_of_int_chars z) as F.
  destruct (str_of_int z) as [|c r] eqn:E.
  - exfalso. unfold str_of_int in E.
    destruct (Z.to_int z) as [d|d]; simpl in E; [|discriminate].
    destruct d; discriminate.
  - exists c, r. split; [reflexivity|]. inversion F as [|? ? Hc _]; subst.
    intros ->. simpl in Hc.
    repeat (destruct Hc as [Hc|Hc]; [discriminate|]). exact Hc.
Qed.

(** Reading a decimal numeral back. *)
Lemma decimal_int_str_of_int (z : Z) :
  stub.decimal_int (str_of_int z) = Some z.
Proof.
  unfold stub.decimal_int, str_of_int.
  rewrite string_of_list_ascii_of_string.
  rewrite <- (DecimalZ.of_to z) at 2.
  destruct (Z.to_int z) as [d|d] eqn:E.
  - destruct d; try (rewrite NilZero.isi by discriminate; reflexivity).
    reflexivity.
  - destruct d; try (rewrite NilZero.isi by discriminate; reflexivity).
    reflexivity.
Qed.

End Numerals.

Module StubFacts.
Import concept data stub.

Lemma strip_prefix_app (p x : str) : strip_prefix p (p ++ x) = Some x.
Proof.
  induction p as [|a p IH]; simpl; [reflexivity|].
  now rewrite Ascii.eqb_refl.
Qed.

Lemma split_at_close_app (a b : str) :
  ~ In "]"%char a -> split_at_close (a ++ "]"%char :: b) = Some (a, b).
Proof.
  induction a as [|c a IH]; intros H; simpl.
  - reflexivity.
  - destruct (Ascii.eqb_spec c "]"%char) as [->|N].
    + exfalso. apply H. now left.
    + rewrite IH; [reflexivity|]. intros Hin. apply H. now right.
Qed.

(** The command of a [Data] object is read off behind its uid. *)
Lemma classify_target (z : Z) (inner : str) :
  classify (py "[WITH_TARGET][" ++ str_of_int z ++ "]"%char :: inner)
  = classify_inner (str_of_int z) inner.
Proof.
  unfold classify. rewrite strip_prefix_app.
  rewrite split_at_close_app by apply Numerals.str_of_int_no_close.
  reflexivity.
Qed.

Lemma classify_delete (z : Z) :
  classify (py "[WITH_TARGET][" ++ str_of_int z ++ py "][" ++ py "[DELETE]"
               ++ py "]")
  = Delete (str_of_int z).
Proof. exact (classify_target z (py "[[DELETE]]")). Qed.

Lemma classify_get_type (z : Z) :
  classify (py "[WITH_TARGET][" ++ str_of_int z ++ py "][[GET_TYPE]]")
  = GetType (str_of_int z).
Proof. exact (classify_target z (py "[[GET_TYPE]]")). Qed.

Lemma classify_new_entity (z : Z) (location : str) :
  classify (py "[WITH_TARGET][" ++ str_of_int z ++ py "]["
               ++ (py "[NEW_ENTITY_USER][" ++ py "PointLoad" ++ py "]" ++ location)
               ++ py "]")
  = NewEntity (str_of_int z).
Proof.
  exact (classify_target z
           ("["%char :: (py "[NEW_ENTITY_USER][" ++ py "PointLoad" ++ py "]"
                            ++ location) ++ py "]")).
Qed.

Lemma classify_set_prop_user (z : Z) (name value : str) :
  classify (py "[WITH_TARGET][" ++ str_of_int z ++ py "]["
               ++ (py "[" ++ py "SET_PROP_USER" ++ py "][" ++ name ++ py "]["
                      ++ value ++ py "]")
               ++ py "]")
  = SetProp (str_of_int z).
Proof.
  exact (classify_target z
           ("["%char :: (py "[" ++ py "SET_PROP_USER" ++ py "][" ++ name
                            ++ py "][" ++ value ++ py "]") ++ py "]")).
Qed.

Section Process.
Variable faulty : request -> option fault.

Lemma state_after_snoc (history : list request) (rq : request) :
  state_after faulty (history ++ [rq])
  = snd (step faulty (state_after faulty history) rq).
Proof.
  unfold state_after. rewrite fold_left_app. reflexivity.
Qed.

(** One command against the stand-in: the outcome is read off the reply of
    one step, and the state moves by that step. *)
Lemma command_step (cmd : str) (c : Concept) :
  let rq := (_nextRequestId c, cmd) in
  let st := state_after faulty (posted c) in
  exists c',
    concept._command (server faulty) cmd c
    = (match fst (step faulty st rq) with
       | HttpFault why => Raise (RequestException why)
       | HttpText r => unwrap r
       end, c')
    /\ state_after faulty (posted c') = snd (step faulty st rq).
Proof.
  intros rq st.
  exists {| _nextRequestId := _nextRequestId c + 1;
            posted := posted c ++ [rq] |}.
  split.
  - unfold concept._command, server. fold rq. fold st.
    destruct (fst (step faulty st rq)); reflexivity.
  - cbn [posted]. apply state_after_snoc.
Qed.

(** The entities of the stand-in carry the texts of numbers below the next
    uid. *)
Lemma entities_below_next (history : list request) :
  forall e, In e (entities (state_after faulty history)) ->
            exists z, e = str_of_int z /\
                      z < next_uid (state_after faulty history).
Proof.
  induction history as [|rq history IH] using rev_ind.
  - intros e [].
  - rewrite state_after_snoc.
    set (st := state_after faulty history) in *.
    unfold step. destruct (faulty rq); [exact IH|].
    destruct (classify (snd rq)) as [t|t|t|t|]; cbn [snd].
    + intros e He. cbn [entities next_uid] in *.
      apply in_app_or in He. destruct He as [He|[<-|[]]].
      * destruct (IH e He) as (z & -> & Hz). exists z. split; [reflexivity | lia].
      * exists (next_uid st). split; [reflexivity | lia].
    + destruct (known st t); exact IH.
    + destruct (known st t); exact IH.
    + destruct (known st t); [|exact IH].
      intros e He. cbn [snd entities next_uid] in *.
      apply in_remove in He. destruct He as [He _]. exact (IH e He).
    + exact IH.
Qed.

End Process.

End StubFacts.

Module BulkCreation.
Import concept data stub StubFacts.

Section Run.
Variable rt : runtime.
Variable pkg : package.
Variable faulty : request -> option fault.

(** [int] reads back what [str] writes. *)
Hypothesis int_str : forall z, int_of_str rt (str_of_int z) = Some z.

(** Only creation requests and property assignments fail. *)
Hypothesis only_these_fail :
  forall rq, creation_or_assignment (snd rq) = false -> faulty rq = None.

Local Abbreviation srv := (server faulty).
Local Abbreviation after c := (state_after faulty (posted c)).
Local Abbreviation mk m := (fun u : Z => Some (PointLoad u m)).

Lemma str_of_int_inj (a b : Z) : str_of_int a = str_of_int b -> a = b.
Proof.
  intros E. pose proof (int_str a) as Ha. rewrite E, int_str in Ha.
  now injection Ha.
Qed.

Lemma known_in (st : state) (u : str) :
  known st u = true <-> In u (entities st).
Proof.
  unfold known. rewrite existsb_exists. split.
  - intros (x & Hx & E). apply str_eqb_eq in E. now subst.
  - intros H. exists u. split; [assumption | apply str_eqb_refl].
Qed.

(** A fault is an exception for the caller. *)
Lemma fault_raises (f : fault) :
  exists e,
    match fault_reply f with
    | HttpFault why => Raise (RequestException why)
    | HttpText r => unwrap r
    end = @Raise str e.
Proof.
  destruct f as [why|msg]; simpl.
  - eexists. reflexivity.
  - eexists. apply Transport.unwrap_failure.
Qed.

(** Asking for the type of an entity that exists. *)
Lemma get_data_from_uid_run (model u : Z) (c : Concept) :
  In (str_of_int u) (entities (after c)) ->
  exists c',
    _get_data_from_uid pkg srv model u c = (Ok (PointLoad u model), c') /\
    after c' = after c.
Proof.
  intros Hin. unfold _get_data_from_uid. cbv zeta.
  set (cmd := py "[WITH_TARGET][" ++ str_of_int u ++ py "][[GET_TYPE]]").
  destruct (command_step faulty cmd c) as (c' & Hrun & Hst).
  exists c'. cbv zeta in Hrun, Hst. unfold step in Hrun, Hst.
  rewrite only_these_fail in Hrun, Hst
    by (unfold creation_or_assignment; cbn [snd]; subst cmd;
        now rewrite classify_get_type).
  cbn [snd] in Hrun, Hst. subst cmd. rewrite classify_get_type in Hrun, Hst.
  apply known_in in Hin. rewrite Hin in Hrun, Hst. cbn [fst snd] in Hrun, Hst.
  unfold success in Hrun. rewrite Transport.unwrap_success in Hrun.
  split; [|exact Hst].
  unfold bind. rewrite Hrun. reflexivity.
Qed.

(** Deleting an entity that exists. *)
Lemma delete_run (u m : Z) (c : Concept) :
  In (str_of_int u) (entities (after c)) ->
  exists c',
    objects.delete pkg srv (Some (PointLoad u m)) c = (Ok tt, c') /\
    entities (after c')
    = remove (list_eq_dec ascii_dec) (str_of_int u) (entities (after c)) /\
    next_uid (after c') = next_uid (after c).
Proof.
  intros Hin. unfold objects.delete, cad_entity.delete, _delete, data._command.
  cbn [class_name PointLoad _read_only _uid]. cbv zeta.
  replace (str_eqb (py "PointLoad") (py "PointLoad")) with true by reflexivity.
  set (cmd := py "[WITH_TARGET][" ++ str_of_int u ++ py "][" ++ py "[DELETE]"
                 ++ py "]").
  destruct (command_step faulty cmd c) as (c' & Hrun & Hst).
  exists c'. cbv zeta in Hrun, Hst. unfold step in Hrun, Hst.
  rewrite only_these_fail in Hrun, Hst
    by (unfold creation_or_assignment; cbn [snd]; subst cmd;
        now rewrite classify_delete).
  cbn [snd] in Hrun, Hst. subst cmd. rewrite classify_delete in Hrun, Hst.
  apply known_in in Hin. rewrite Hin in Hrun, Hst. cbn [fst snd] in Hrun, Hst.
  unfold success in Hrun. rewrite Transport.unwrap_success in Hrun.
  split; [|now rewrite Hst].
  unfold bind. rewrite Hrun. reflexivity.
Qed.

(** Any command that the stand-in reads as a property assignment leaves its
    state as it is, and the caller gets a value or an exception. *)
Lemma set_command_run (cmd : str) (target : str) (c : Concept) :
  classify cmd = SetProp target ->
  exists out c',
    concept._command srv cmd c = (out, c') /\
    out <> Diverge /\
    after c' = after c.
Proof.
  intros Hc.
  destruct (command_step faulty cmd c) as (c' & Hrun & Hst).
  cbv zeta in Hrun, Hst. unfold step in Hrun, Hst.
  match type of Hst with
  | context [faulty ?rq] => destruct (faulty rq) as [f|]
  end.
  - cbn [fst snd] in Hrun, Hst.
    destruct (fault_raises f) as (e & He). rewrite He in Hrun.
    exists (Raise e), c'. repeat split; try assumption. discriminate.
  - cbn [snd] in Hrun, Hst. rewrite Hc in Hrun, Hst.
    destruct (known _ target); cbn [fst snd] in Hrun, Hst;
      eexists; exists c'; (split; [exact Hrun|]); (split; [|exact Hst]).
    + unfold success. rewrite Transport.unwrap_success. discriminate.
    + discriminate.
Qed.

(** Creating one point load: either the call raises and the stand-in is as
    before, or the entity with the next uid exists and is returned. *)
Lemma add_point_load_run (layer : Data) (x y : float) (c : Concept) :
  exists c',
    (exists e,
        force_loading_layer.add_point_load rt pkg srv layer (PyPoint2D x y) c
        = (Raise e, c') /\
        after c' = after c)
    \/
    (force_loading_layer.add_point_load rt pkg srv layer (PyPoint2D x y) c
     = (Ok (Some (PointLoad (next_uid (after c)) (_model layer))), c') /\
     entities (after c')
     = entities (after c) ++ [str_of_int (next_uid (after c))] /\
     next_uid (after c') = next_uid (after c) + 1).
Proof.
  destruct (force_loading_layer.add_point_load rt pkg srv layer (PyPoint2D x y) c)
    as [out cf] eqn:Hadd.
  exists cf. revert Hadd.
  unfold force_loading_layer.add_point_load, _operation_raise_if_read_only.
  destruct (_read_only layer).
  { intros Hadd. injection Hadd as <- <-. left. eexists. split; reflexivity. }
  rewrite Properties.bind_lift_ok.
  unfold cad_layer._add_cad_entity_with_point, cad_layer._add_cad_entity,
    data._command. cbv zeta.
  set (cmd := py "[WITH_TARGET][" ++ str_of_int (_uid layer) ++ py "]["
                 ++ (py "[NEW_ENTITY_USER][" ++ py "PointLoad" ++ py "]"
                        ++ Point2D.to_point_list_bracket_string rt x y)
                 ++ py "]").
  destruct (command_step faulty cmd c) as (c1 & Hrun & Hst).
  cbv zeta in Hrun, Hst. unfold step in Hrun, Hst.
  unfold bind at 1. rewrite Hrun. clear Hrun.
  match type of Hst with
  | context [faulty ?rq] => destruct (faulty rq) as [f|]
  end.
  { cbn [fst snd] in *. destruct (fault_raises f) as (e & He). rewrite He.
    intros Hadd. injection Hadd as <- <-. left. exists e. now split. }
  cbn [snd] in Hst |- *. subst cmd. rewrite classify_new_entity in Hst |- *.
  cbn [fst snd] in Hst |- *.
  set (n := next_uid (after c)) in *.
  unfold success. rewrite Transport.unwrap_success.
  (* the uid comes back; the client asks for its type *)
  unfold _get_data.
  destruct (Numerals.str_of_int_head n) as (h & r & Hn & Hh).
  assert (Hlen : (py_len (str_of_int n) =? 0) = false).
  { rewrite Hn. reflexivity. }
  rewrite Hlen.
  assert (Hkey : str_eqb (py_slice (str_of_int n) 0 1) (py "$") = false).
  { apply str_eqb_neq.
    pose proof (MatchingFacts.py_slice_char (str_of_int n) 0 h ltac:(lia)) as Hs.
    simpl Z.add in Hs. rewrite Hs by (rewrite Hn; reflexivity).
    intros E. injection E as E. contradiction. }
  rewrite Hkey, int_str.
  destruct (get_data_from_uid_run (_model layer) n c1) as (c2 & Hget & Hst2).
  { rewrite Hst. cbn [entities]. apply in_or_app. right. now left. }
  unfold bind. rewrite Hget. unfold ret.
  intros Hadd. injection Hadd as <- <-. right. split; [reflexivity|].
  rewrite Hst2, Hst. cbn [entities next_uid]. now split.
Qed.

(** Assigning a float property of a point load never changes what exists. *)
Lemma float_property_set_run (iname : str) (u m : Z) (value : pyval)
  (c : Concept) :
  exists out c',
    add_property.assign (add_property._float_property rt srv iname)
      (PointLoad u m) value c = (out, c') /\
    out <> Diverge /\
    after c' = after c.
Proof.
  unfold add_property.assign. cbn [add_property.fset add_property._float_property].
  unfold _set_property_raise_if_read_only. cbn [_read_only PointLoad].
  rewrite Properties.bind_lift_ok.
  unfold _set_float_property.
  destruct (utilities._API_float_to_user_str rt value) as [fs|e|] eqn:Ef.
  - rewrite Properties.bind_lift_ok. unfold _set_property.
    destruct (utilities._raise_if_invalid_string_property_value fs)
      as [[]|e|] eqn:Ev.
    + rewrite Properties.bind_lift_ok. unfold data._command. cbv zeta.
      cbn [_uid PointLoad].
      destruct (set_command_run _ (str_of_int u) c
                  (classify_set_prop_user u iname fs))
        as (out & c' & Hrun & Hout & Hst).
      unfold bind. rewrite Hrun.
      destruct out as [a|e|]; [| |congruence].
      * exists (Ok tt), c'. repeat split; [discriminate | exact Hst].
      * exists (Raise e), c'. repeat split; [discriminate | exact Hst].
    + exists (Raise e), c. repeat split. discriminate.
    + exfalso. unfold utilities._raise_if_invalid_string_property_value in Ev.
      destruct (py_in _ fs); [discriminate|].
      destruct (py_in _ fs); discriminate.
  - exists (Raise e), c. repeat split. discriminate.
  - exfalso. unfold utilities._API_float_to_user_str in Ef.
    destruct (py_float rt value); [|discriminate].
    destruct (PrimFloat.eqb _ _); [discriminate|].
    destruct (PrimFloat.eqb _ _); discriminate.
Qed.

(** The names that [add_point_loads] assigns. *)
Lemma load_value_attribute (name : str) :
  In name [py "elevation"; py "Fx"; py "Fy"; py "Fz"; py "Mx"; py "My"] ->
  exists iname,
    point_load.attribute rt srv name
    = Some (add_property._float_property rt srv iname).
Proof.
  intros [<-|[<-|[<-|[<-|[<-|[<-|[]]]]]]]; eexists; reflexivity.
Qed.

Lemma bulk_set_run (name : str) (m : Z) (us : list Z)
  (values : option (list pyval)) (c : Concept) :
  In name [py "elevation"; py "Fx"; py "Fy"; py "Fz"; py "Mx"; py "My"] ->
  exists out c',
    utilities._bulk_set (objects.setattr rt pkg srv) (map (mk m) us) name
      values c = (out, c') /\
    out <> Diverge /\
    after c' = after c.
Proof.
  intros Hname. destruct (load_value_attribute name Hname) as (iname & Ha).
  unfold utilities._bulk_set. destruct values as [values|].
  2:{ exists (Ok tt), c. repeat split. discriminate. }
  destruct (negb _).
  { eexists; exists c. repeat split. discriminate. }
  revert values c. induction us as [|u us IH]; intros values c.
  - exists (Ok tt), c. repeat split. discriminate.
  - destruct values as [|value values].
    { exists (Ok tt), c. repeat split. discriminate. }
    cbn [map utilities.bulk_set_loop].
    unfold objects.setattr at 1. cbn [class_name PointLoad].
    replace (str_eqb (py "PointLoad") (py "PointLoad")) with true by reflexivity.
    rewrite Ha.
    destruct (float_property_set_run iname u m value c)
      as (out & c1 & Hrun & Hout & Hst).
    unfold bind at 1. rewrite Hrun.
    destruct out as [[]|e|]; [| |congruence].
    + destruct (IH values c1) as (out2 & c2 & Hrun2 & Hout2 & Hst2).
      exists out2, c2. repeat split; try assumption. congruence.
    + exists (Raise e), c1. repeat split; [discriminate | assumption].
Qed.

Lemma upfrom_in (z n : Z) (k : nat) :
  In z (upfrom n k) <-> n <= z < n + Z.of_nat k.
Proof.
  revert n. induction k as [|k IH]; intros n; simpl upfrom.
  - simpl. lia.
  - simpl In. rewrite IH. lia.
Qed.

Lemma upfrom_nodup (n : Z) (k : nat) : NoDup (upfrom n k).
Proof.
  revert n. induction k as [|k IH]; intros n; simpl; constructor.
  - rewrite upfrom_in. lia.
  - apply IH.
Qed.

(** The creation loop: it creates the entities with the next [k] uids, and
    [k] is the number of locations unless it stopped at an exception. *)
Lemma create_all_run (layer : Data) (pts : list (float * float)) :
  forall (acc : list (option Data)) (c : Concept),
  exists k r c',
    cad_layer.create_all (force_loading_layer.add_point_load rt pkg srv layer)
      (map (fun xy => PyPoint2D (fst xy) (snd xy)) pts) acc c
    = (acc ++ map (mk (_model layer)) (upfrom (next_uid (after c)) k), r, c') /\
    entities (after c')
    = entities (after c) ++ map str_of_int (upfrom (next_uid (after c)) k) /\
    next_uid (after c') = next_uid (after c) + Z.of_nat k /\
    ((r = Ok tt /\ k = length pts) \/ exists e, r = Raise e).
Proof.
  induction pts as [|[x y] pts IH]; intros acc c.
  - exists 0%nat, (Ok tt), c. simpl. rewrite !app_nil_r.
    repeat split; [lia | now left].
  - cbn [map fst snd cad_layer.create_all].
    destruct (add_point_load_run layer x y c)
      as (c1 & [(e & Hrun & Hst) | (Hrun & He & Hn)]); rewrite Hrun.
    + exists 0%nat, (Raise e), c1. simpl. rewrite !app_nil_r, Hst.
      repeat split; [lia | right; now exists e].
    + destruct (IH (acc ++ [Some (PointLoad (next_uid (after c)) (_model layer))]) c1)
        as (k & r & c2 & Hloop & He2 & Hn2 & Hr).
      exists (S k), r, c2. rewrite Hloop, He2, Hn2, He, Hn.
      cbn [upfrom map]. rewrite <- !app_assoc. cbn [app].
      repeat split; [lia|].
      destruct Hr as [[-> ->] | (e & ->)]; [left; now split | right; now exists e].
Qed.

(** The clean-up loop over entities that exist: every one is deleted. *)
Lemma delete_all_run (m : Z) (us : list Z) :
  forall c : Concept,
    NoDup us ->
    (forall u, In u us -> In (str_of_int u) (entities (after c))) ->
    exists c',
      objects.delete_all pkg srv (map (mk m) us) c = (Ok tt, c') /\
      entities (after c')
      = fold_left (fun E u => remove (list_eq_dec ascii_dec) (str_of_int u) E)
          us (entities (after c)) /\
      next_uid (after c') = next_uid (after c).
Proof.
  induction us as [|u us IH]; intros c Hnd Hin.
  - exists c. repeat split.
  - inversion Hnd as [|? ? Hu Hnd']; subst.
    cbn [map objects.delete_all fold_left].
    destruct (delete_run u m c (Hin u (or_introl eq_refl)))
      as (c1 & Hrun & He & Hn).
    unfold bind at 1. rewrite Hrun.
    destruct (IH c1 Hnd') as (c2 & Hrun2 & He2 & Hn2).
    { intros v Hv. rewrite He. apply in_in_remove.
      - intros E. apply str_of_int_inj in E. subst v. contradiction.
      - apply Hin. now right. }
    exists c2. rewrite Hrun2, He2, Hn2, He, Hn. repeat split.
Qed.

(** Removing, one after the other, the entities that were appended last
    leaves the list as it was before. *)
Lemma remove_appended (us : list Z) (E0 : list str) :
  NoDup us ->
  (forall u, In u us -> ~ In (str_of_int u) E0) ->
  fold_left (fun E u => remove (list_eq_dec ascii_dec) (str_of_int u) E)
    us (E0 ++ map str_of_int us) = E0.
Proof.
  induction us as [|u us IH]; intros Hnd Hfresh.
  - simpl. apply app_nil_r.
  - inversion Hnd as [|? ? Hu Hnd']; subst. cbn [fold_left map].
    rewrite remove_app, remove_cons.
    rewrite (notin_remove _ E0) by (apply Hfresh; now left).
    rewrite (notin_remove _ (map str_of_int us)).
    + apply IH; [assumption|]. intros v Hv. apply Hfresh. now right.
    + intros Hin. apply in_map_iff in Hin. destruct Hin as (v & E & Hv).
      apply str_of_int_inj in E. subst v. contradiction.
Qed.

(** The entities created in a run are new. *)
Lemma created_are_new (c : Concept) (k : nat) (u : Z) :
  In u (upfrom (next_uid (after c)) k) ->
  ~ In (str_of_int u) (entities (after c)).
Proof.
  intros Hu Hin. apply upfrom_in in Hu.
  destruct (entities_below_next faulty (posted c) _ Hin) as (z & E & Hz).
  apply str_of_int_inj in E. lia.
Qed.

(** The clean-up after a run that created [k] entities restores the list of
    entities. *)
Lemma clean_up_run (m : Z) (c c1 : Concept) (k : nat) :
  entities (after c1)
  = entities (after c) ++ map str_of_int (upfrom (next_uid (after c)) k) ->
  exists c2,
    objects.delete_all pkg srv
      (map (mk m) (upfrom (next_uid (after c)) k)) c1 = (Ok tt, c2) /\
    entities (after c2) = entities (after c).
Proof.
  intros He.
  destruct (delete_all_run m (upfrom (next_uid (after c)) k) c1)
    as (c2 & Hrun & He2 & _).
  - apply upfrom_nodup.
  - intros u Hu. rewrite He. apply in_or_app. right. now apply in_map.
  - exists c2. split; [exact Hrun|]. rewrite He2, He.
    apply remove_appended.
    + apply upfrom_nodup.
    + intros u Hu. now apply created_are_new with (k := k).
Qed.

(** Two pieces of code that leave the stand-in as it is, one after the
    other. *)
Lemma quiet_bind {A B} (m : M A) (k : A -> M B) :
  (forall c, exists out c',
      m c = (out, c') /\ out <> Diverge /\ after c' = after c) ->
  (forall a c, exists out c',
      k a c = (out, c') /\ out <> Diverge /\ after c' = after c) ->
  forall c, exists out c',
      bind m k c = (out, c') /\ out <> Diverge /\ after c' = after c.
Proof.
  intros Hm Hk c. destruct (Hm c) as (out & c1 & Hrun & Hout & Hst).
  unfold bind. rewrite Hrun. destruct out as [a|e|]; [| |congruence].
  - destruct (Hk a c1) as (out2 & c2 & Hrun2 & Hout2 & Hst2).
    exists out2, c2. repeat split; try assumption. congruence.
  - exists (Raise e), c1. repeat split; [discriminate | assumption].
Qed.

(** The whole call. *)
Lemma add_point_loads_run (layer : Data) (x y : list float)
  (elevation Fx Fy Fz Mx My : option (list pyval)) (c : Concept) :
  exists c',
    (force_loading_layer.add_point_loads rt pkg srv layer x y
       elevation Fx Fy Fz Mx My c
     = (Ok (map (mk (_model layer)) (upfrom (next_uid (after c)) (length x))),
        c') /\
     entities (after c')
     = entities (after c)
         ++ map str_of_int (upfrom (next_uid (after c)) (length x)))
    \/
    (exists e,
        force_loading_layer.add_point_loads rt pkg srv layer x y
          elevation Fx Fy Fz Mx My c
        = (Raise e, c') /\
        entities (after c') = entities (after c)).
Proof.
  destruct (force_loading_layer.add_point_loads rt pkg srv layer x y
              elevation Fx Fy Fz Mx My c) as [out cf] eqn:Hrun.
  exists cf. revert Hrun.
  unfold force_loading_layer.add_point_loads, _operation_raise_if_read_only.
  destruct (_read_only layer).
  { intros H. injection H as <- <-. right. eexists. now split. }
  rewrite Properties.bind_lift_ok. cbv zeta.
  destruct (Nat.eqb_spec (length y) (length x)) as [Hlen|Hlen]; cbn [negb].
  2:{ intros H. injection H as <- <-. right. eexists. now split. }
  set (pts := combine x y).
  assert (Hpts : length pts = length x).
  { subst pts. rewrite length_combine. lia. }
  unfold bind at 1. unfold cad_layer._bulk_add.
  destruct (create_all_run layer pts [] c)
    as (k & r & c1 & Hloop & He & Hn & Hr).
  rewrite Hloop. cbn [app].
  destruct (clean_up_run (_model layer) c c1 k He) as (c2 & Hclean & He2).
  destruct Hr as [[-> ->] | (e & ->)].
  - (* all entities were created; the values are assigned *)
    rewrite Hpts in *.
    set (ents := map (mk (_model layer)) (upfrom (next_uid (after c)) (length x))) in *.
    match goal with
    | |- context [try_except_reraise ?body ?handler] =>
        assert (Hbody : forall c0, exists out c',
                   body c0 = (out, c') /\ out <> Diverge /\ after c' = after c0)
    end.
    { repeat (apply quiet_bind; [|intros _]);
        intros c0; apply bulk_set_run; simpl; tauto. }
    destruct (Hbody c1) as (outb & cb & Hb & Houtb & Hstb).
    unfold bind at 1, try_except_reraise. rewrite Hb.
    destruct outb as [[]|e|]; [| |congruence].
    + unfold ret. intros H. injection H as <- <-. left.
      split; [reflexivity|]. now rewrite Hstb.
    + destruct (clean_up_run (_model layer) c cb (length x)) as (c3 & Hclean3 & He3).
      { now rewrite Hstb. }
      fold ents in Hclean3. rewrite Hclean3.
      intros H. injection H as <- <-. right. exists e. now split.
  - (* a creation failed *)
    rewrite Hclean. intros H. injection H as <- <-. right. exists e. now split.
Qed.

End Run.




End BulkCreation.

(* ------------------------------------------------------------------------- *)
(** ** Tokens: decoding, counting, stepping *)

Module Tokens.
Import BracketParser BracketSpec MatchingFacts ParsingFacts Parsing.

Lemma encode_app (a b : list str) : encode (a ++ b) = encode a ++ encode b.
Proof. unfold encode. now rewrite map_app, concat_app. Qed.

Lemma token_sequence_encode (ts : list str) :
  Forall balanced ts -> token_sequence (encode ts).
Proof. intros H. now exists ts. Qed.

(** [parse] on the encoding of a token list. *)
Lemma parse_encode (ts : list str) :
  py_len (encode ts) <= sys_maxsize ->
  Forall balanced ts ->
  parse (encode ts) = Ok ts.
Proof.
  intros Hmax Hb.
  destruct (is_valid_parse_string_spec _ Hmax) as (b & Hv & Hiff).
  assert (b = true) as -> by (apply Hiff; now apply token_sequence_encode).
  unfold parse. rewrite Hv. cbn [obind negb]. unfold __init__.
  rewrite (parse_loop_encode ts); try assumption.
  - reflexivity.
  - unfold py_len. lia.
  - reflexivity.
  - pose proof (encode_length ts). lia.
Qed.

(** What [parse] does on any string. *)
Lemma parse_cases (s : str) :
  py_len s <= sys_maxsize ->
  (exists ts, Forall balanced ts /\ s = encode ts /\ parse s = Ok ts) \/
  (~ token_sequence s /\
   parse s = Raise (Exception (py "'" ++ s ++ py "' is not a valid bracket string"))).
Proof.
  intros Hmax.
  destruct (is_valid_parse_string_spec _ Hmax) as (b & Hv & Hiff).
  destruct b.
  - left. destruct (proj1 Hiff eq_refl) as (ts & Hb & ->).
    exists ts. repeat split; try assumption. now apply parse_encode.
  - right. split.
    + intros H. apply Hiff in H. discriminate.
    + unfold parse. rewrite Hv. reflexivity.
Qed.

Lemma parse_ok (s : str) (ts : list str) :
  py_len s <= sys_maxsize ->
  parse s = Ok ts -> Forall balanced ts /\ s = encode ts.
Proof.
  intros Hmax H.
  destruct (parse_cases s Hmax) as [(ts' & Hb & Hs & Hp) | (_ & Hp)];
    rewrite Hp in H; [|discriminate].
  injection H as <-. now split.
Qed.

(** One token at the position of the parser. *)
Lemma token_step (s t rest : str) (p : Z) :
  py_len s <= sys_maxsize ->
  0 <= p ->
  skipn (Z.to_nat p) s = wrap t ++ rest ->
  balanced t ->
  let self := {| _parse_string := s; _current_position := p |} in
  let self' := {| _parse_string := s; _current_position := p + py_len t + 2 |} in
  has_next_token self = Ok true /\
  next_token self = Ok (t, self') /\
  skip_token self = Ok (true, self') /\
  skipn (Z.to_nat (p + py_len t + 2)) s = rest.
Proof.
  intros Hmax Hp Hs Hb self self'. subst self self'.
  unfold wrap in Hs. simpl in Hs. rewrite <- app_assoc in Hs. simpl in Hs.
  destruct (skipn_cons_nth _ _ _ _ Hs) as [Hn Hs'].
  assert (Hlen : py_len s = p + (py_len t + 2 + py_len rest)).
  { rewrite (py_len_from_suffix s _ p Hp Hs) by discriminate.
    unfold py_len. simpl length. rewrite length_app. simpl length. lia. }
  assert (Hfind : py_find s START_TAG p = p).
  { rewrite py_find_suffix by (unfold py_len in *; lia). rewrite Hs. reflexivity. }
  assert (Hm : matching_end_tag_index s p = Ok (p + 1 + py_len t)).
  { now apply matching_at_token with (rest := rest). }
  assert (Hl : (py_len s - p =? 0) = false).
  { apply Z.eqb_neq. unfold py_len in *. lia. }
  assert (Hne : (p + 1 + py_len t =? -1) = false).
  { apply Z.eqb_neq. unfold py_len. lia. }
  assert (Hgt : (p + 1 + py_len t >? -1) = true).
  { apply Z.gtb_lt. unfold py_len. lia. }
  assert (Hle : (p + 1 + py_len t <=? -1) = false).
  { apply Z.leb_gt. unfold py_len. lia. }
  assert (Htok : py_slice s (p + 1) (p + 1 + py_len t) = t).
  { apply py_slice_prefix with (rest := "]"%char :: rest).
    - lia.
    - replace (Z.to_nat (p + 1)) with (S (Z.to_nat p)) by lia. exact Hs'.
    - discriminate. }
  replace (p + py_len t + 2) with (p + 1 + py_len t + 1) by lia.
  unfold has_next_token, next_token, skip_token.
  cbn [_parse_string _current_position].
  rewrite Hl, Hfind, Z.eqb_refl, Hm. cbn [negb obind].
  rewrite Hne, Hgt, Hle, Htok. cbn [negb].
  repeat split.
  replace (Z.to_nat (p + 1 + py_len t + 1))
    with (S (Z.to_nat p) + length t + 1)%nat by (unfold py_len; lia).
  apply skipn_past_prefix with (x := "]"%char). exact Hs'.
Qed.

Lemma has_next_token_end (s : str) (p : Z) :
  0 <= p -> skipn (Z.to_nat p) s = [] -> p <= py_len s ->
  has_next_token {| _parse_string := s; _current_position := p |} = Ok false.
Proof.
  intros Hp Hs Hle. unfold has_next_token. cbn [_parse_string _current_position].
  assert (Hl : (py_len s - p =? 0) = true).
  { apply Z.eqb_eq. pose proof (length_skipn (Z.to_nat p) s) as L.
    rewrite Hs in L. simpl in L. unfold py_len in *. lia. }
  now rewrite Hl.
Qed.

Lemma count_loop_encode (ts : list str) :
  forall (fuel : nat) (s : str) (p acc : Z),
    py_len s <= sys_maxsize ->
    0 <= p <= py_len s ->
    Forall balanced ts ->
    skipn (Z.to_nat p) s = encode ts ->
    (length ts < fuel)%nat ->
    count_loop fuel {| _parse_string := s; _current_position := p |} acc
    = Ok (acc + Z.of_nat (length ts)).
Proof.
  induction ts as [|t ts IH]; intros fuel s p acc Hmax Hp Hb Hs Hf;
    (destruct fuel as [|fuel]; [simpl in Hf; lia|]).
  - cbn [count_loop]. rewrite has_next_token_end by (try assumption; lia).
    cbn [obind length]. f_equal. lia.
  - inversion Hb as [|? ? Hbt Hbs]; subst.
    change (encode (t :: ts)) with (wrap t ++ encode ts) in Hs.
    destruct (token_step s t (encode ts) p Hmax (proj1 Hp) Hs Hbt)
      as (Hh & _ & Hk & Hr).
    cbn [count_loop]. rewrite Hh. cbn [obind]. rewrite Hk. cbn [obind].
    assert (Hlen : py_len s = p + py_len (wrap t ++ encode ts)).
    { apply py_len_from_suffix; [lia | assumption | discriminate]. }
    rewrite IH; try assumption.
    + f_equal. simpl length. lia.
    + unfold py_len, wrap in *. rewrite length_app in Hlen. simpl length in Hlen.
      rewrite length_app in Hlen. simpl length in Hlen. lia.
    + simpl in Hf. lia.
Qed.

Lemma count_encode (ts : list str) :
  py_len (encode ts) <= sys_maxsize ->
  Forall balanced ts ->
  count_remaining_tokens (__init__ (encode ts)) = Ok (Z.of_nat (length ts)).
Proof.
  intros Hmax Hb. unfold count_remaining_tokens, __init__.
  cbn [_parse_string].
  rewrite (count_loop_encode ts); try assumption.
  - reflexivity.
  - unfold py_len. lia.
  - reflexivity.
  - pose proof (encode_length ts). lia.
Qed.


Lemma py_find_here (s : str) (c : ascii) (p : Z) :
  0 <= p -> py_find s c p = p -> exists r, skipn (Z.to_nat p) s = c :: r.
Proof.
  intros Hp H. unfold py_find in H. rewrite norm_index_nonneg in H by assumption.
  destruct (py_len s <? p); [lia|].
  now apply find_from_here with (i := p).
Qed.

(** X1. Decoding undoes encoding: for every list of tokens with properly
    nested delimiters, [parse] of the tokens written as '[' + t + ']' one
    after the other returns the list. *)
Theorem parse_inverts_encode (tokens : list str) :
  py_len (encode tokens) <= sys_maxsize ->
  Forall balanced tokens ->
  parse (encode tokens) = Ok tokens.
Proof. exact (parse_encode tokens). Qed.

Lemma parse_inverts_encode_witness :
  parse (encode [py "SET_PROP_USER"; py "PLFz"; py "-12.5"; py "[a][]"])
  = Ok [py "SET_PROP_USER"; py "PLFz"; py "-12.5"; py "[a][]"].
Proof.
  apply parse_inverts_encode.
  - vm_compute. discriminate.
  - repeat constructor.
Defined.

(** X2. [parse] fails in one way only: on a string that is not a
    concatenation of bracket tokens it raises the exception whose message
    quotes the string, and on every other string it returns tokens with
    properly nested delimiters that spell the string.  No assertion fails and
    no loop runs on. *)
Theorem parse_raises_on_other_strings (s : str) :
  py_len s <= sys_maxsize ->
  (exists tokens,
      Forall balanced tokens /\ s = encode tokens /\ parse s = Ok tokens) \/
  (~ token_sequence s /\
   parse s = Raise (Exception (py "'" ++ s ++ py "' is not a valid bracket string"))).
Proof. exact (parse_cases s). Qed.

Lemma parse_raises_on_other_strings_witness :
  (exists tokens,
      Forall balanced tokens /\ py "[A]]" = encode tokens
      /\ parse (py "[A]]") = Ok tokens) \/
  (~ token_sequence (py "[A]]") /\
   parse (py "[A]]")
   = Raise (Exception (py "'" ++ py "[A]]" ++ py "' is not a valid bracket string"))).
Proof.
  apply parse_raises_on_other_strings. vm_compute. discriminate.
Defined.

(** X3. [count_remaining_tokens] of a fresh parser over an encoded token list
    is the number of top-level tokens, whatever the tokens nest. *)
Theorem count_remaining_tokens_counts_top_level (tokens : list str) :
  py_len (encode tokens) <= sys_maxsize ->
  Forall balanced tokens ->
  count_remaining_tokens (__init__ (encode tokens))
  = Ok (Z.of_nat (length tokens)).
Proof. exact (count_encode tokens). Qed.

Lemma count_remaining_tokens_counts_top_level_witness :
  count_remaining_tokens (__init__ (encode [py "[1][2]"; py "[3][4]"; py ""]))
  = Ok 3.
Proof.
  apply (count_remaining_tokens_counts_top_level [py "[1][2]"; py "[3][4]"; py ""]).
  - vm_compute. discriminate.
  - repeat constructor.
Defined.

(** X4. Parsing distributes over concatenation: when [a] and [b] parse, so
    does [a + b], into the tokens of [a] followed by the tokens of [b]. *)
Theorem parse_concatenation (a b : str) (ta tb : list str) :
  py_len (a ++ b) <= sys_maxsize ->
  parse a = Ok ta ->
  parse b = Ok tb ->
  parse (a ++ b) = Ok (ta ++ tb).
Proof.
  intros Hmax Ha Hb.
  assert (La : py_len a <= sys_maxsize).
  { unfold py_len in *. rewrite length_app in Hmax. lia. }
  assert (Lb : py_len b <= sys_maxsize).
  { unfold py_len in *. rewrite length_app in Hmax. lia. }
  destruct (parse_ok a ta La Ha) as [Ba ->].
  destruct (parse_ok b tb Lb Hb) as [Bb ->].
  rewrite <- encode_app in *.
  apply parse_encode; [assumption|].
  apply Forall_app. now split.
Qed.

Lemma parse_concatenation_witness :
  parse (py "[A][[B]]" ++ py "[][C]") = Ok ([py "A"; py "[B]"] ++ [py ""; py "C"]).
Proof.
  apply parse_concatenation.
  - vm_compute. discriminate.
  - reflexivity.
  - reflexivity.
Defined.

(** X5. When [has_next_token] answers [True], a complete bracket token sits
    at the position of the parser: [next_token] returns its body, whose
    delimiters are properly nested, without failing an assertion, and
    [skip_token] answers [True]; both leave the parser just behind the
    closing delimiter of the token, two characters plus the body further. *)
Theorem has_next_token_announces_a_token (self : parser) :
  py_len (_parse_string self) <= sys_maxsize ->
  0 <= _current_position self ->
  has_next_token self = Ok true ->
  exists token rest,
    let self' := {| _parse_string := _parse_string self;
                    _current_position :=
                      _current_position self + py_len token + 2 |} in
    balanced token /\
    skipn (Z.to_nat (_current_position self)) (_parse_string self)
    = wrap token ++ rest /\
    next_token self = Ok (token, self') /\
    skip_token self = Ok (true, self') /\
    skipn (Z.to_nat (_current_position self')) (_parse_string self) = rest.
Proof.
  destruct self as [s p]. cbn [_parse_string _current_position].
  intros Hmax Hp H. unfold has_next_token in H.
  cbn [_parse_string _current_position] in H.
  destruct (py_len s - p =? 0); [discriminate|].
  destruct (Z.eqb_spec (py_find s START_TAG p) p) as [Hf|]; [|discriminate].
  cbn [negb] in H.
  destruct (py_find_here s START_TAG p Hp Hf) as (r & Hr).
  destruct (skipn_cons_nth _ _ _ _ Hr) as [Hn Hr'].
  rewrite matching_end_tag_index_scan in H by assumption. cbn [obind] in H.
  destruct (Z.eqb_spec (balancing_close s p) (-1)) as [|Hne]; [discriminate|].
  unfold balancing_close in Hne.
  destruct (depth_scan_stops _ 0 _ Hne) as (t & rest & Ht & Hb & _).
  replace (Z.to_nat (p + 1)) with (S (Z.to_nat p)) in Ht by lia.
  rewrite Hr' in Ht. rewrite Ht in Hr.
  exists t, rest.
  assert (Hs : skipn (Z.to_nat p) s = wrap t ++ rest).
  { rewrite Hr. unfold wrap. cbn [app]. rewrite <- app_assoc. reflexivity. }
  destruct (token_step s t rest p Hmax Hp Hs Hb) as (_ & Hnx & Hsk & Hrest).
  cbn [_current_position]. repeat split; assumption.
Qed.

Lemma has_next_token_announces_a_token_witness :
  exists token rest,
    balanced token /\
    skipn 3 (py "[A][[B1][B2]][C]") = wrap token ++ rest /\
    next_token {| _parse_string := py "[A][[B1][B2]][C]"; _current_position := 3 |}
    = Ok (token, {| _parse_string := py "[A][[B1][B2]][C]";
                    _current_position := 3 + py_len token + 2 |}).
Proof.
  destruct (has_next_token_announces_a_token
              {| _parse_string := py "[A][[B1][B2]][C]"; _current_position := 3 |})
    as (token & rest & Hb & Hs & Hn & _).
  - vm_compute. discriminate.
  - simpl. lia.
  - reflexivity.
  - exists token, rest. repeat split; assumption.
Defined.

(** X6. [has_next_token] answers [False] exactly at the end of the string.
    Before the end it answers [True] or raises one of its two exceptions: the
    one for a position that is not at an opening delimiter exactly when the
    character there is another one, the one for a missing end tag exactly
    when the opening delimiter there is never balanced.  The assertion of
    [matching_end_tag_index] cannot fail under it. *)
Theorem has_next_token_outcomes (self : parser) :
  py_len (_parse_string self) <= sys_maxsize ->
  0 <= _current_position self <= py_len (_parse_string self) ->
  match skipn (Z.to_nat (_current_position self)) (_parse_string self) with
  | [] => has_next_token self = Ok false
  | c :: _ =>
      if Ascii.eqb c START_TAG then
        if balancing_close (_parse_string self) (_current_position self) =? -1
        then
          has_next_token self
          = Raise (Exception
                     (py "Unexpected state in BracketString (missing end tag)"))
        else has_next_token self = Ok true
      else
        has_next_token self
        = Raise (Exception
                   (py "Unexpected state in BracketString (not at a start tag)"))
  end.
Proof.
  destruct self as [s p]. cbn [_parse_string _current_position].
  intros Hmax Hp.
  destruct (skipn (Z.to_nat p) s) as [|c r] eqn:Hs.
  { apply has_next_token_end; [lia | assumption | lia]. }
  assert (Hlen : py_len s = p + py_len (c :: r)).
  { apply py_len_from_suffix; [lia | assumption | discriminate]. }
  assert (Hl : (py_len s - p =? 0) = false).
  { apply Z.eqb_neq. unfold py_len in *. simpl length in Hlen. lia. }
  unfold has_next_token. cbn [_parse_string _current_position]. rewrite Hl.
  rewrite py_find_suffix by lia. rewrite Hs. cbn [find_from].
  destruct (Ascii.eqb_spec c START_TAG) as [->|Hc].
  - rewrite Z.eqb_refl. cbn [negb].
    destruct (skipn_cons_nth _ _ _ _ Hs) as [Hn _].
    rewrite matching_end_tag_index_scan by (assumption || lia). cbn [obind].
    destruct (balancing_close s p =? -1); reflexivity.
  - assert (Hne : (find_from r START_TAG (p + 1) =? p) = false).
    { apply Z.eqb_neq. destruct (find_from_range r START_TAG (p + 1)); lia. }
    rewrite Hne. reflexivity.
Qed.

Lemma has_next_token_outcomes_witness :
  has_next_token {| _parse_string := py "[A][[B]"; _current_position := 3 |}
  = Raise (Exception (py "Unexpected state in BracketString (missing end tag)")).
Proof.
  apply (has_next_token_outcomes
           {| _parse_string := py "[A][[B]"; _current_position := 3 |}).
  - vm_compute. discriminate.
  - vm_compute. split; discriminate.
Defined.

End Tokens.

(* ------------------------------------------------------------------------- *)
(** ** Nesting of delimiters *)

Module Nesting.
Import BracketSpec MatchingFacts.

(** Reading a text from a deeper level. *)
Lemma depth_after_raise (t : str) (d e k : nat) :
  depth_after t d = Some e -> depth_after t (d + k) = Some (e + k)%nat.
Proof.
  revert d. induction t as [|c t IH]; intros d H; cbn [depth_after] in *.
  - injection H as <-. reflexivity.
  - destruct (Ascii.eqb c "["%char); [exact (IH (S d) H)|].
    destruct (Ascii.eqb c "]"%char); [|exact (IH d H)].
    destruct d as [|d']; [discriminate|]. exact (IH d' H).
Qed.

Lemma depth_after_app (a b : str) (d : nat) :
  depth_after (a ++ b) d
  = match depth_after a d with
    | Some e => depth_after b e
    | None => None
    end.
Proof.
  revert d. induction a as [|c a IH]; intros d; cbn [app depth_after].
  - reflexivity.
  - destruct (Ascii.eqb c "["%char); [apply IH|].
    destruct (Ascii.eqb c "]"%char); [|apply IH].
    destruct d; [reflexivity | apply IH].
Qed.

Lemma balanced_app (a b : str) : balanced a -> balanced b -> balanced (a ++ b).
Proof.
  unfold balanced. intros Ha Hb. now rewrite depth_after_app, Ha.
Qed.

Lemma balanced_wrap (t : str) : balanced t -> balanced (wrap t).
Proof.
  unfold balanced, wrap. intros H.
  change (depth_after (t ++ ["]"%char]) 1 = Some 0%nat).
  rewrite depth_after_app.
  pose proof (depth_after_raise t 0 0 1 H) as E. cbn [Nat.add] in E.
  rewrite E. reflexivity.
Qed.

Lemma balanced_encode (ts : list str) : Forall balanced ts -> balanced (encode ts).
Proof.
  induction 1 as [|t ts Ht _ IH]; [reflexivity|].
  change (encode (t :: ts)) with (wrap t ++ encode ts).
  apply balanced_app; [now apply balanced_wrap | exact IH].
Qed.

Lemma plain_balanced (t : str) : plain t -> balanced t.
Proof.
  unfold balanced. generalize 0%nat.
  induction t as [|c t IH]; intros d [P1 P2]; cbn [depth_after]; [reflexivity|].
  destruct (Ascii.eqb_spec c "["%char) as [->|_]; [exfalso; apply P1; now left|].
  destruct (Ascii.eqb_spec c "]"%char) as [->|_]; [exfalso; apply P2; now left|].
  apply IH. split; intros H; [apply P1 | apply P2]; now right.
Qed.

Lemma plain_str_of_int (z : Z) : plain (str_of_int z).
Proof.
  pose proof (Numerals.str_of_int_chars z) as F. rewrite Forall_forall in F.
  split; intros H; specialize (F _ H); simpl in F;
    repeat (destruct F as [F|F]; [discriminate|]); exact F.
Qed.

Lemma plain_valid (value : str) :
  plain value ->
  utilities._raise_if_invalid_string_property_value value = Ok tt.
Proof.
  intros [P1 P2]. unfold utilities._raise_if_invalid_string_property_value.
  apply py_in_false in P1, P2. now rewrite P1, P2.
Qed.

End Nesting.

(* ------------------------------------------------------------------------- *)
(** ** Property writes on the wire *)

Module Wire.
Import concept data add_property BracketSpec Nesting.
Local Open Scope M_scope.

(** One command that the process answers. *)
Lemma command_run (server : process) (cmd reply : str) (c : Concept) :
  server (posted c) (_nextRequestId c, cmd) = HttpText reply ->
  concept._command server cmd c
  = (unwrap reply,
     {| _nextRequestId := _nextRequestId c + 1;
        posted := posted c ++ [(_nextRequestId c, cmd)] |}).
Proof.
  intros H. unfold concept._command.
  match goal with
  | |- context [server ?h ?rq] =>
      replace (server h rq) with (HttpText reply) by (symmetry; exact H)
  end.
  reflexivity.
Qed.

(** X7. A [Point2D] property can never be written: the text of the point is
    in brackets, so the validation of [_set_property] rejects it.  Whatever
    the value and the entity, [_set_point2D_property] raises and leaves the
    [Concept] object as it was; nothing is posted. *)
Theorem set_point2D_property_never_sends (rt : runtime) (server : process)
  (self : Data) (property_name : str) (value : pyval) (c : Concept) :
  exists msg,
    _set_point2D_property rt server self property_name value c
    = (Raise (Exception msg), c) /\
    match value with
    | PyPoint2D _ _ => msg = py "String property values cannot contain '['."
    | _ => msg = py "Attempting to set non-Point2D in Point2D property: "
                    ++ py_str rt value
    end.
Proof.
  destruct value; eexists; (split; [reflexivity|]); reflexivity.
Qed.

(** X8. The request of a property write is a well-formed bracket string that
    decodes to what was written: its body parses into the three tokens
    [WITH_TARGET], the uid of the entity and the inner command, and the inner
    command parses into the command name, the property name and the value. *)
Theorem set_property_request_decodes (server : process) (self : Data)
  (property_name value : str) (units : _PropertyUnits) (c : Concept) :
  balanced property_name ->
  plain value ->
  exists body inner,
    posted (snd (_set_property server self property_name value units c))
    = posted c ++ [(_nextRequestId c, body)] /\
    (py_len body <= sys_maxsize ->
     BracketParser.parse body
     = Ok [py "WITH_TARGET"; str_of_int (_uid self); inner] /\
     BracketParser.parse inner
     = Ok [match units with
           | Internal => py "SET_PROP_INTERNAL"
           | User => py "SET_PROP_USER"
           end; property_name; value]).
Proof.
  intros Hn Hv.
  set (command_name := match units with
                       | Internal => py "SET_PROP_INTERNAL"
                       | User => py "SET_PROP_USER"
                       end).
  assert (Hc : plain command_name).
  { subst command_name. destruct units; split; simpl; intuition discriminate. }
  exists (encode [py "WITH_TARGET"; str_of_int (_uid self);
                  encode [command_name; property_name; value]]),
         (encode [command_name; property_name; value]).
  assert (Hin : Forall balanced [command_name; property_name; value]).
  { repeat constructor; try assumption; now apply plain_balanced. }
  split.
  - unfold _set_property. rewrite (plain_valid value Hv).
    rewrite Properties.bind_lift_ok. unfold bind, data._command.
    match goal with |- context [concept._command server ?cmd c] =>
      pose proof (Transport.command_state server cmd c) as S;
      destruct (concept._command server cmd c) as [[a|e|] c'] end;
      cbn [snd] in *; subst c'; cbn [posted]; do 3 f_equal;
      fold command_name; unfold encode, wrap; cbn [map concat];
      cbn [py list_ascii_of_string app]; rewrite <- ?app_assoc;
      cbn [app]; rewrite ?app_nil_r; repeat f_equal;
      rewrite <- ?app_assoc; reflexivity.
  - intros Hlen. split.
    + apply Tokens.parse_encode; [assumption|].
      repeat constructor.
      * apply plain_balanced, plain_str_of_int.
      * now apply balanced_encode.
    + apply Tokens.parse_encode; [|assumption].
      unfold py_len in *. unfold encode in Hlen at 1.
      cbn [map concat] in Hlen. rewrite !length_app in Hlen.
      unfold wrap in Hlen at 3. cbn [length] in Hlen.
      rewrite length_app in Hlen. lia.
Qed.


Lemma set_property_request_decodes_witness :
  exists body inner,
    posted (snd (_set_property (fun _ _ => HttpText (py "[SUCCESS][]"))
                   (PointLoad 7 1) (py "PLFz") (py "-12.5") User
                   {| _nextRequestId := 4; posted := [] |}))
    = [(4, body)] /\
    (py_len body <= sys_maxsize ->
     BracketParser.parse body = Ok [py "WITH_TARGET"; str_of_int 7; inner] /\
     BracketParser.parse inner
     = Ok [py "SET_PROP_USER"; py "PLFz"; py "-12.5"]).
Proof.
  apply (set_property_request_decodes (fun _ _ => HttpText (py "[SUCCESS][]"))
           (PointLoad 7 1) (py "PLFz") (py "-12.5") User
           {| _nextRequestId := 4; posted := [] |}).
  - reflexivity.
  - split; simpl; intuition discriminate.
Defined.

Section SetThenGet.
Variable server : process.
Variable self : Data.
Variable name : str.
Variable c : Concept.

Local Abbreviation set_request units text :=
  (_nextRequestId c,
   py "[WITH_TARGET][" ++ str_of_int (_uid self) ++ py "]["
      ++ (py "[" ++ match units with
                    | Internal => py "SET_PROP_INTERNAL"
                    | User => py "SET_PROP_USER"
                    end
             ++ py "][" ++ name ++ py "][" ++ text ++ py "]")
      ++ py "]").

Local Abbreviation get_request units :=
  (_nextRequestId c + 1,
   py "[WITH_TARGET][" ++ str_of_int (_uid self) ++ py "]["
      ++ (py "[" ++ match units with
                    | Internal => py "GET_PROP_INTERNAL"
                    | User => py "GET_PROP_USER"
                    end
             ++ py "][" ++ name ++ py "]")
      ++ py "]").

(** The process stores what is written: it acknowledges the write of [text]
    and then answers the read of the property with [text]. *)
Local Abbreviation stores units text :=
  ((exists ack,
       server (posted c) (set_request units text)
       = HttpText (py "[SUCCESS][" ++ ack ++ py "]")) /\
   server (posted c ++ [set_request units text]) (get_request units)
   = HttpText (py "[SUCCESS][" ++ text ++ py "]")).

(** A write followed by a read, against a process that stores the text. *)
Lemma set_then_get_run (units : _PropertyUnits) (text : str)
  {A} (k : str -> M A) :
  plain text ->
  stores units text ->
  (_ <- _set_property server self name text units ;;
   r <- _get_property server self name units ;; k r) c
  = k text {| _nextRequestId := _nextRequestId c + 1 + 1;
              posted := (posted c ++ [set_request units text])
                          ++ [get_request units] |}.
Proof.
  intros Hp [(ack & Hset) Hget].
  unfold _set_property, _get_property.
  rewrite (plain_valid text Hp).
  unfold bind, lift, ret, data._command. cbv beta iota zeta.
  destruct units;
    (erewrite command_run by exact Hset); rewrite Transport.unwrap_success;
    cbv beta iota;
    (erewrite command_run by exact Hget); rewrite Transport.unwrap_success;
    reflexivity.
Qed.

(** X9. A bool property reads back what was written: after the setter of
    [_bool_property] has run on a writable entity, against a process that
    stores the text it receives, the getter returns [bool(value)]. *)
Theorem bool_property_set_then_get (rt : runtime) (value : pyval) (text : str) :
  _read_only self = false ->
  utilities._API_bool_to_user_str rt value = Ok text ->
  stores Internal text ->
  let p := _bool_property rt server name in
  fst ((_ <- assign p self value ;; fget p self) c) = Ok (PyBool (py_bool value)).
Proof.
  intros Hro Htext Hst p. subst p.
  unfold assign. cbn [fset fget _bool_property].
  unfold _set_property_raise_if_read_only. rewrite Hro.
  unfold _set_bool_property, _get_bool_property. rewrite Htext.
  unfold utilities._API_bool_to_user_str in Htext. injection Htext as <-.
  assert (Hp : plain (py_str rt (PyBool (py_bool value)))).
  { cbn [py_str]. destruct (py_bool value); split; simpl; intuition discriminate. }
  match goal with
  | |- fst (?m c) = _ =>
      replace (m c) with
        ((_ <- _set_property server self name
                 (py_str rt (PyBool (py_bool value))) Internal ;;
          r <- _get_property server self name Internal ;;
          b <- (let lc := py_lower r in
                if str_eqb lc (py "true") then ret true
                else if str_eqb lc (py "false") then ret false
                else raise (Exception (py "Unexpected bool string: " ++ r))) ;;
          ret (PyBool b)) c)
  end.
  2:{ unfold bind, lift. cbv zeta.
      destruct (_set_property server self name _ Internal c) as [[[]|e|] c1];
        try reflexivity.
      destruct (_get_property server self name Internal c1) as [[r|e|] c2];
        reflexivity. }
  rewrite set_then_get_run by assumption.
  cbn [py_str]. destruct (py_bool value); reflexivity.
Qed.


(** X10. A float property reads back what was written: when [float] reads
    back the text that [str] gives the number, and that text has no bracket
    and is not one of the two sentinel words, the getter of [_float_property]
    after its setter returns the same float; the largest finite float and its
    negation travel as 'infinite' and '-infinite' and come back as
    themselves. *)
Theorem float_property_set_then_get (rt : runtime) (value : pyval)
  (f : float) (text : str) :
  _read_only self = false ->
  py_float rt value = Some f ->
  utilities._API_float_to_user_str rt value = Ok text ->
  float_of_str rt (str_of_float rt f) = Some f ->
  plain (str_of_float rt f) ->
  str_of_float rt f <> py "infinite" ->
  str_of_float rt f <> py "-infinite" ->
  stores User text ->
  let p := _float_property rt server name in
  exists f',
    fst ((_ <- assign p self value ;; fget p self) c) = Ok (PyFloat f') /\
    (f' = f \/ (f =? f')%float = true).
Proof.
  intros Hro Hf Htext Hback Hplain Hn1 Hn2 Hst p. subst p.
  unfold assign. cbn [fset fget _float_property].
  unfold _set_property_raise_if_read_only. rewrite Hro.
  unfold _set_float_property, _get_float_property. rewrite Htext.
  assert (Hp : plain text).
  { unfold utilities._API_float_to_user_str in Htext. rewrite Hf in Htext.
    destruct (f =? _)%float.
    { injection Htext as <-. split; simpl; intuition discriminate. }
    destruct (f =? _)%float.
    { injection Htext as <-. split; simpl; intuition discriminate. }
    now injection Htext as <-. }
  match goal with
  | |- exists f', fst (?m c) = _ /\ _ =>
      replace (m c) with
        ((_ <- _set_property server self name text User ;;
          r <- _get_property server self name User ;;
          x <- lift (utilities._user_str_to_API_float (float_of_str rt) r) ;;
          ret (PyFloat x)) c)
  end.
  2:{ unfold bind, lift. cbv zeta.
      destruct (_set_property server self name _ User c) as [[[]|e|] c1];
        try reflexivity.
      destruct (_get_property server self name User c1) as [[r|e|] c2];
        reflexivity. }
  rewrite set_then_get_run by assumption.
  unfold utilities._API_float_to_user_str in Htext. rewrite Hf in Htext.
  destruct (f =? utilities.float_info_max)%float eqn:E1.
  { injection Htext as <-. exists utilities.float_info_max.
    split; [reflexivity | now right]. }
  destruct (f =? - utilities.float_info_max)%float eqn:E2.
  { injection Htext as <-. exists (- utilities.float_info_max)%float.
    split; [reflexivity | now right]. }
  injection Htext as <-. exists f. split; [|now left].
  unfold bind, lift, ret, utilities._user_str_to_API_float.
  apply str_eqb_neq in Hn1, Hn2. rewrite Hn1, Hn2, Hback. reflexivity.
Qed.

(** X11. A bool property that travels as one of two strings reads back what
    was written, provided the two strings differ and hold no bracket: the
    getter of [_bool_string_property] after its setter returns
    [bool(value)]. *)
Theorem bool_string_property_set_then_get (true_value false_value : str)
  (value : pyval) :
  _read_only self = false ->
  true_value <> false_value ->
  plain true_value ->
  plain false_value ->
  stores Internal (if py_bool value then true_value else false_value) ->
  let p := _bool_string_property server name true_value false_value in
  fst ((_ <- assign p self value ;; fget p self) c) = Ok (PyBool (py_bool value)).
Proof.
  intros Hro Hne Ht Hf Hst p. subst p.
  unfold assign. cbn [fset fget _bool_string_property].
  unfold _set_property_raise_if_read_only. rewrite Hro.
  set (text := if py_bool value then true_value else false_value) in *.
  assert (Hp : plain text) by (subst text; now destruct (py_bool value)).
  match goal with
  | |- fst (?m c) = _ =>
      replace (m c) with
        ((_ <- _set_property server self name text Internal ;;
          r <- _get_property server self name Internal ;;
          (if str_eqb r true_value then ret (PyBool true)
           else if str_eqb r false_value then ret (PyBool false)
           else raise (Exception (py "Internal Error: unexpected value in "
                                     ++ name ++ py " property: " ++ r)))) c)
  end.
  2:{ unfold bind, lift, _set_string_property, _get_string_property. cbv zeta.
      subst text. destruct (py_bool value); reflexivity. }
  rewrite set_then_get_run by assumption.
  subst text. destruct (py_bool value).
  - now rewrite str_eqb_refl.
  - apply not_eq_sym in Hne. apply str_eqb_neq in Hne.
    now rewrite Hne, str_eqb_refl.
Qed.


(** X12. A reference property only sends a valid reference: [None] travels
    as uid 0, a [Data] object of the required class and of the same model as
    its uid; every other value makes [_set_data_property] raise with the
    [Concept] object untouched. *)
Theorem set_data_property_sends_valid_references (rt : runtime)
  (required_class : py_class) (value : pyval) :
  let run := _set_data_property rt server self name required_class value c in
  match value with
  | PyNone => posted (snd run) = posted c ++ [set_request Internal (py "0")]
  | PyData d =>
      if isinstance required_class value && (_model d =? _model self) then
        posted (snd run)
        = posted c ++ [set_request Internal (str_of_int (_uid d))]
      else exists e, run = (Raise e, c)
  | _ => exists e, run = (Raise e, c)
  end.
Proof.
  assert (Hsend : forall text, plain text ->
            posted (snd (_set_property server self name text Internal c))
            = posted c ++ [set_request Internal text]).
  { intros text Hp. unfold _set_property. rewrite (plain_valid text Hp).
    rewrite Properties.bind_lift_ok. unfold bind, data._command.
    match goal with |- context [concept._command server ?cmd c] =>
      pose proof (Transport.command_state server cmd c) as S;
      destruct (concept._command server cmd c) as [[a|e|] c'] end;
      cbn [snd] in *; subst c'; reflexivity. }
  intros run. subst run. unfold _set_data_property.
  destruct value as [|b|z|f|s|x y|d|ec m v]; cbv beta iota;
    try (destruct (isinstance required_class _); cbn [negb];
         eexists; reflexivity).
  - apply Hsend. split; simpl; intuition discriminate.
  - destruct (isinstance required_class (PyData d)); cbn [negb andb].
    + destruct (_model d =? _model self); cbn [negb].
      * apply Hsend, plain_str_of_int.
      * eexists; reflexivity.
    + eexists; reflexivity.
Qed.

End SetThenGet.

Lemma bool_property_set_then_get_witness :
  let server : process := fun history _ =>
    match history with
    | [] => HttpText (py "[SUCCESS][]")
    | _ => HttpText (py "[SUCCESS][True]")
    end in
  let p := _bool_property stub.plain_runtime server (py "Visible") in
  fst ((_ <- assign p (PointLoad 7 1) (PyInt 3) ;; fget p (PointLoad 7 1))
         {| _nextRequestId := 0; posted := [] |})
  = Ok (PyBool (py_bool (PyInt 3))).
Proof.
  intros server p.
  apply (bool_property_set_then_get server (PointLoad 7 1) (py "Visible")
           {| _nextRequestId := 0; posted := [] |} stub.plain_runtime
           (PyInt 3) (py "True")).
  - reflexivity.
  - reflexivity.
  - split; [exists []|]; reflexivity.
Defined.

Lemma float_property_set_then_get_witness :
  let rt := {| float_of_str := fun _ => Some 2.5%float;
               float_of_int := fun _ => None;
               str_of_float := fun _ => py "2.5";
               int_of_float := fun _ => None;
               int_of_str := fun _ => None;
               repr_object := fun _ => py "<object>" |} in
  let server : process := fun history _ =>
    match history with
    | [] => HttpText (py "[SUCCESS][]")
    | _ => HttpText (py "[SUCCESS][2.5]")
    end in
  let p := _float_property rt server (py "PLFz") in
  exists f',
    fst ((_ <- assign p (PointLoad 7 1) (PyFloat 2.5) ;; fget p (PointLoad 7 1))
           {| _nextRequestId := 0; posted := [] |})
    = Ok (PyFloat f') /\
    (f' = 2.5%float \/ (2.5 =? f')%float = true).
Proof.
  intros rt server p.
  apply (float_property_set_then_get server (PointLoad 7 1) (py "PLFz")
           {| _nextRequestId := 0; posted := [] |} rt (PyFloat 2.5) 2.5%float
           (py "2.5")).
  - reflexivity.
  - reflexivity.
  - reflexivity.
  - reflexivity.
  - split; simpl; intuition discriminate.
  - discriminate.
  - discriminate.
  - split; [exists []|]; reflexivity.
Defined.

Lemma bool_string_property_set_then_get_witness :
  let server : process := fun history _ =>
    match history with
    | [] => HttpText (py "[SUCCESS][]")
    | _ => HttpText (py "[SUCCESS][no]")
    end in
  let p := _bool_string_property server (py "Mirror") (py "yes") (py "no") in
  fst ((_ <- assign p (PointLoad 7 1) (PyStr []) ;; fget p (PointLoad 7 1))
         {| _nextRequestId := 0; posted := [] |})
  = Ok (PyBool (py_bool (PyStr []))).
Proof.
  intros server p.
  apply (bool_string_property_set_then_get server (PointLoad 7 1) (py "Mirror")
           {| _nextRequestId := 0; posted := [] |} (py "yes") (py "no")
           (PyStr [])).
  - reflexivity.
  - discriminate.
  - split; simpl; intuition discriminate.
  - split; simpl; intuition discriminate.
  - split; [exists []|]; reflexivity.
Defined.


Lemma set_data_property_sends_valid_references_witness :
  let layer_class := {| class_repr := py "<class 'Layer'>";
                        isinstance := fun _ => true |} in
  exists e,
    _set_data_property stub.plain_runtime
      (fun _ _ => HttpText (py "[SUCCESS][]")) (PointLoad 7 1) (py "Layer")
      layer_class (PyData (PointLoad 9 2))
      {| _nextRequestId := 0; posted := [] |}
    = (Raise e, {| _nextRequestId := 0; posted := [] |}).
Proof.
  intros layer_class.
  apply (set_data_property_sends_valid_references
           (fun _ _ => HttpText (py "[SUCCESS][]")) (PointLoad 7 1) (py "Layer")
           {| _nextRequestId := 0; posted := [] |} stub.plain_runtime
           layer_class (PyData (PointLoad 9 2))).
Defined.

End Wire.

(* ------------------------------------------------------------------------- *)
(** ** Rejected and empty bulk creations *)

Module Guards.
Import concept data.
Local Open Scope M_scope.

(** X13. [add_point_loads] posts nothing when there is nothing to add or
    when its arguments are rejected: on a read-only layer and on coordinate
    lists of different lengths it raises with the [Concept] object untouched,
    and for empty coordinate lists without value lists it returns the empty
    list without a request. *)
Theorem add_point_loads_posts_nothing (rt : runtime) (pkg : package)
  (server : process) (self : Data) (x y : list float)
  (elevation Fx Fy Fz Mx My : option (list pyval)) (c : Concept) :
  let run :=
    force_loading_layer.add_point_loads rt pkg server self x y
      elevation Fx Fy Fz Mx My c in
  (_read_only self = true ->
   run = (Raise (Exception (py "Cannot add_point_loads()with read-only "
                               ++ class_name self ++ py ".")), c))
  /\
  (_read_only self = false -> length x <> length y ->
   run = (Raise (Exception
                   (py "Length of y parameter must be same as length of x parameter.")),
          c))
  /\
  (_read_only self = false -> x = [] -> y = [] ->
   elevation = None -> Fx = None -> Fy = None -> Fz = None -> Mx = None ->
   My = None ->
   run = (Ok [], c)).
Proof.
  intros run. subst run.
  unfold force_loading_layer.add_point_loads, _operation_raise_if_read_only,
    _class_name.
  repeat split.
  - intros ->. reflexivity.
  - intros -> Hl. rewrite Properties.bind_lift_ok.
    destruct (Nat.eqb_spec (length y) (length x)); [congruence | reflexivity].
  - intros -> -> -> -> -> -> -> -> ->. reflexivity.
Qed.

Lemma add_point_loads_posts_nothing_witness :
  force_loading_layer.add_point_loads stub.plain_runtime stub.no_package
    (fun _ _ => HttpText (py "[SUCCESS][]"))
    {| _uid := 100; _model := 1; _read_only := false;
       class_name := py "ForceLoadingLayer" |}
    [1; 2]%float [1]%float None None None None None None
    {| _nextRequestId := 0; posted := [] |}
  = (Raise (Exception
              (py "Length of y parameter must be same as length of x parameter.")),
     {| _nextRequestId := 0; posted := [] |}).
Proof.
  apply (proj1 (proj2 (add_point_loads_posts_nothing stub.plain_runtime
                         stub.no_package
                         (fun _ _ => HttpText (py "[SUCCESS][]"))
                         {| _uid := 100; _model := 1; _read_only := false;
                            class_name := py "ForceLoadingLayer" |}
                         [1; 2]%float [1]%float None None None None None None
                         {| _nextRequestId := 0; posted := [] |}))).
  - reflexivity.
  - simpl. lia.
Defined.

End Guards.

(* ------------------------------------------------------------------------- *)
(** ** Request identifiers *)

Module RequestIds.
Import concept data numbering.
Local Open Scope M_scope.

Lemma keeps_ret {A} (a : A) : keeps_numbering (ret a).
Proof. intros c H. split; [exact H | exists []; now rewrite app_nil_r]. Qed.

Lemma keeps_raise {A} (e : exn) : keeps_numbering (@raise A e).
Proof. intros c H. split; [exact H | exists []; now rewrite app_nil_r]. Qed.

Lemma keeps_lift {A} (o : outcome A) : keeps_numbering (lift o).
Proof. intros c H. split; [exact H | exists []; now rewrite app_nil_r]. Qed.

Lemma keeps_bind {A B} (m : M A) (k : A -> M B) :
  keeps_numbering m -> (forall a, keeps_numbering (k a)) ->
  keeps_numbering (bind m k).
Proof.
  intros Hm Hk c H. unfold bind.
  destruct (Hm c H) as [H1 (more & E1)].
  destruct (m c) as [[a|e|] c1]; cbn [snd] in *.
  - destruct (Hk a c1 H1) as [H2 (more2 & E2)]. split; [exact H2|].
    exists (more ++ more2). now rewrite E2, E1, app_assoc.
  - split; [exact H1 | now exists more].
  - split; [exact H1 | now exists more].
Qed.

Lemma keeps_try {A} (body : M A) (handler : M unit) :
  keeps_numbering body -> keeps_numbering handler ->
  keeps_numbering (try_except_reraise body handler).
Proof.
  intros Hb Hh c H. unfold try_except_reraise.
  destruct (Hb c H) as [H1 (more & E1)].
  destruct (body c) as [[a|e|] c1]; cbn [snd] in *;
    try (split; [exact H1 | now exists more]).
  destruct (Hh c1 H1) as [H2 (more2 & E2)].
  destruct (handler c1) as [[[]|e'|] c2]; cbn [snd] in *;
    (split; [exact H2|]); exists (more ++ more2);
    now rewrite E2, E1, app_assoc.
Qed.

Lemma sorted_snoc (l : list Z) (n : Z) :
  StronglySorted Z.lt l -> Forall (fun i => i < n) l ->
  StronglySorted Z.lt (l ++ [n]).
Proof.
  induction 1 as [|i l Hs IH Hi]; intros Hn; cbn [app].
  - repeat constructor.
  - inversion Hn as [|? ? Hin Hln]; subst. constructor.
    + now apply IH.
    + apply Forall_app. split; [exact Hi | now constructor].
Qed.

Lemma keeps_command (server : process) (cmd : str) :
  keeps_numbering (concept._command server cmd).
Proof.
  intros c [Hs Hb]. rewrite Transport.command_state. unfold well_numbered.
  cbn [posted _nextRequestId snd].
  split; [split|].
  - rewrite map_app. cbn [map fst]. apply sorted_snoc; [exact Hs|].
    rewrite Forall_map. exact Hb.
  - apply Forall_app. split.
    + eapply Forall_impl; [|exact Hb]. cbv beta. intros; lia.
    + constructor; [cbn [fst]; lia | constructor].
  - eexists. reflexivity.
Qed.


(** Code built from commands with the operators of the monad keeps the
    numbering. *)
Ltac keeps_step :=
  first
    [ assumption
    | apply keeps_ret
    | apply keeps_raise
    | apply keeps_lift
    | apply keeps_command
    | apply keeps_bind; [|intros ?]
    | apply keeps_try
    | match goal with
      | |- keeps_numbering (match ?x with _ => _ end) => destruct x
      | |- keeps_numbering (let _ := _ in _) => cbv zeta
      | H : forall a b c, keeps_numbering _ |- _ => apply H
      | H : forall a, keeps_numbering _ |- _ => apply H
      end ].

Ltac keeps := repeat keeps_step.

Section Operations.
Variable rt : runtime.
Variable pkg : package.
Variable server : process.

(** The classes that are kept abstract keep the numbering. *)
Hypothesis construct_keeps :
  forall t u m, keeps_numbering (construct pkg t u m).
Hypothesis setattr_keeps :
  forall d n v, keeps_numbering (other_setattr pkg d n v).
Hypothesis delete_keeps : forall d, keeps_numbering (other_delete pkg d).

Lemma keeps_data_command (self : Data) (cmd : str) :
  keeps_numbering (data._command server self cmd).
Proof. unfold data._command. keeps. Qed.

Lemma keeps_get_property (self : Data) (n : str) (u : _PropertyUnits) :
  keeps_numbering (_get_property server self n u).
Proof. unfold _get_property. cbv zeta. apply keeps_data_command. Qed.

Lemma keeps_set_property (self : Data) (n v : str) (u : _PropertyUnits) :
  keeps_numbering (_set_property server self n v u).
Proof.
  unfold _set_property. keeps.
Qed.

Lemma keeps_get_data (model : Z) (uid_or_key : str) :
  keeps_numbering (_get_data rt pkg server model uid_or_key).
Proof.
  unfold _get_data, _get_data_from_key, _get_data_from_uid. keeps.
Qed.

Lemma keeps_fget (kind : add_property.property_kind) (n : str) (self : Data) :
  keeps_numbering
    (add_property.fget (add_property.make_property rt pkg server kind n) self).
Proof.
  destruct kind; cbn [add_property.make_property add_property.fget
    add_property._string_property add_property._float_property
    add_property._int_property add_property._bool_property
    add_property._bool_string_property add_property._data_property
    add_property._no_none_data_property add_property._enum_string_property
    add_property._enum_int_property add_property._point_property];
    unfold _get_string_property, _get_float_property, _get_int_property,
      _get_bool_property, _get_data_property, _get_point2D_property;
    repeat first [apply keeps_get_property | apply keeps_get_data | keeps_step].
Qed.

Lemma keeps_assign (kind : add_property.property_kind) (n : str) (self : Data)
  (value : pyval) :
  keeps_numbering
    (add_property.assign (add_property.make_property rt pkg server kind n)
       self value).
Proof.
  unfold add_property.assign.
  destruct kind; cbn [add_property.make_property add_property.fset
    add_property._string_property add_property._float_property
    add_property._int_property add_property._bool_property
    add_property._bool_string_property add_property._data_property
    add_property._no_none_data_property add_property._enum_string_property
    add_property._enum_int_property add_property._point_property];
    unfold _set_string_property, _set_float_property, _set_int_property,
      _set_bool_property, _set_data_property, _set_point2D_property;
    repeat first [apply keeps_set_property | keeps_step].
Qed.


Lemma keeps_setattr (entity : option Data) (n : str) (value : pyval) :
  keeps_numbering (objects.setattr rt pkg server entity n value).
Proof.
  unfold objects.setattr. destruct entity as [d|]; [|keeps].
  destruct (str_eqb (class_name d) (py "PointLoad")); [|keeps].
  unfold point_load.attribute.
  repeat match goal with
         | |- context [if ?b then _ else _] => destruct b
         end;
    first [ apply (keeps_assign add_property.FloatProperty)
          | apply (keeps_assign add_property.StringProperty)
          | keeps ].
Qed.

Lemma keeps_delete (entity : option Data) :
  keeps_numbering (objects.delete pkg server entity).
Proof.
  unfold objects.delete, cad_entity.delete, _delete. keeps.
Qed.

Lemma keeps_delete_all (entities : list (option Data)) :
  keeps_numbering (objects.delete_all pkg server entities).
Proof.
  induction entities as [|entity entities IH]; cbn [objects.delete_all].
  - keeps.
  - apply keeps_bind; [apply keeps_delete | intros _; exact IH].
Qed.

Lemma keeps_bulk_set (entities : list (option Data)) (n : str)
  (values : option (list pyval)) :
  keeps_numbering
    (utilities._bulk_set (objects.setattr rt pkg server) entities n values).
Proof.
  unfold utilities._bulk_set. destruct values as [values|]; [|keeps].
  destruct (negb _); [keeps|].
  revert values. induction entities as [|entity entities IH]; intros values;
    cbn [utilities.bulk_set_loop]; [keeps|].
  destruct values as [|value values]; [keeps|].
  apply keeps_bind; [apply keeps_setattr | intros _; apply IH].
Qed.

Lemma keeps_add_point_load (self : Data) (location : pyval) :
  keeps_numbering (force_loading_layer.add_point_load rt pkg server self location).
Proof.
  unfold force_loading_layer.add_point_load,
    cad_layer._add_cad_entity_with_point, cad_layer._add_cad_entity.
  keeps; try apply keeps_data_command; try apply keeps_get_data.
Qed.

Lemma keeps_create_all (method : pyval -> M (option Data)) :
  (forall location, keeps_numbering (method location)) ->
  forall locations entities c,
    well_numbered c ->
    let c' := snd (cad_layer.create_all method locations entities c) in
    well_numbered c' /\ exists more, posted c' = posted c ++ more.
Proof.
  intros Hm. induction locations as [|location locations IH];
    intros entities c H; cbn [cad_layer.create_all].
  - split; [exact H | exists []; now rewrite app_nil_r].
  - destruct (Hm location c H) as [H1 (more & E1)].
    destruct (method location c) as [[entity|e|] c1]; cbn [snd] in *;
      try (split; [exact H1 | now exists more]).
    destruct (IH (entities ++ [entity]) c1 H1) as [H2 (more2 & E2)].
    split; [exact H2|]. exists (more ++ more2). now rewrite E2, E1, app_assoc.
Qed.

Lemma keeps_bulk_add (method : pyval -> M (option Data))
  (locations : list pyval) :
  (forall location, keeps_numbering (method location)) ->
  keeps_numbering (cad_layer._bulk_add pkg server method locations).
Proof.
  intros Hm c H. unfold cad_layer._bulk_add.
  destruct (keeps_create_all method Hm locations [] c H) as [H1 (more & E1)].
  destruct (cad_layer.create_all method locations [] c) as [[entities out] c1].
  cbn [snd] in *.
  destruct out as [[]|e|]; try (split; [exact H1 | now exists more]).
  destruct (keeps_delete_all entities c1 H1) as [H2 (more2 & E2)].
  destruct (objects.delete_all pkg server entities c1) as [[[]|e'|] c2];
    cbn [snd] in *; (split; [exact H2|]); exists (more ++ more2);
    now rewrite E2, E1, app_assoc.
Qed.

Lemma keeps_add_point_loads (self : Data) (x y : list float)
  (elevation Fx Fy Fz Mx My : option (list pyval)) :
  keeps_numbering
    (force_loading_layer.add_point_loads rt pkg server self x y
       elevation Fx Fy Fz Mx My).
Proof.
  unfold force_loading_layer.add_point_loads.
  apply keeps_bind; [keeps | intros _]. cbv zeta.
  destruct (negb _); [keeps|].
  apply keeps_bind; [apply keeps_bulk_add; intros; apply keeps_add_point_load|].
  intros point_loads.
  apply keeps_bind; [|intros; keeps].
  apply keeps_try; [|apply keeps_delete_all].
  repeat (apply keeps_bind; [apply keeps_bulk_set | intros _]).
  apply keeps_bulk_set.
Qed.

End Operations.

Lemma keeps_no_package :
  (forall t u m, keeps_numbering (construct stub.no_package t u m)) /\
  (forall d n v, keeps_numbering (other_setattr stub.no_package d n v)) /\
  (forall d, keeps_numbering (other_delete stub.no_package d)).
Proof. split; [|split]; intros; apply keeps_raise. Qed.

Lemma well_numbered_fresh (n : Z) :
  well_numbered {| _nextRequestId := n; posted := [] |}.
Proof. split; constructor. Qed.



(** X15. A bulk creation of point loads keeps the request identifiers
    apart, on every path: the creations, the value assignments and the
    deletions of a clean-up only add requests to those posted before, with
    identifiers that increase strictly, provided the classes that are kept
    abstract do. *)
Theorem add_point_loads_keeps_request_ids (rt : runtime) (pkg : package)
  (server : process) (self : Data) (x y : list float)
  (elevation Fx Fy Fz Mx My : option (list pyval)) :
  (forall t u m, keeps_numbering (construct pkg t u m)) ->
  (forall d n v, keeps_numbering (other_setattr pkg d n v)) ->
  (forall d, keeps_numbering (other_delete pkg d)) ->
  keeps_numbering
    (force_loading_layer.add_point_loads rt pkg server self x y
       elevation Fx Fy Fz Mx My).
Proof. intros. now apply keeps_add_point_loads. Qed.

Lemma add_point_loads_keeps_request_ids_witness :
  let c := {| _nextRequestId := 1; posted := [] |} in
  let run :=
    force_loading_layer.add_point_loads stub.plain_runtime stub.no_package
      (stub.server (fun _ => None))
      {| _uid := 100; _model := 1; _read_only := false;
         class_name := py "ForceLoadingLayer" |}
      [1; 2]%float [3; 4]%float None None None None None None c in
  well_numbered (snd run) /\ exists more, posted (snd run) = posted c ++ more.
Proof.
  intros c run.
  apply (add_point_loads_keeps_request_ids stub.plain_runtime stub.no_package
           (stub.server (fun _ => None))
           {| _uid := 100; _model := 1; _read_only := false;
              class_name := py "ForceLoadingLayer" |}
           [1; 2]%float [3; 4]%float None None None None None None).
  - apply keeps_no_package.
  - apply keeps_no_package.
  - apply keeps_no_package.
  - apply well_numbered_fresh.
Defined.

End RequestIds.

(* ------------------------------------------------------------------------- *)
(** ** Points, segments, polygons and locations *)

Module Geometry.
Import BracketParser BracketSpec Nesting Tokens float_text.

Lemma py_len_app (a b : str) : py_len (a ++ b) = py_len a + py_len b.
Proof. unfold py_len. rewrite length_app. lia. Qed.

Lemma py_len_wrap (t : str) : py_len (wrap t) = py_len t + 2.
Proof. unfold wrap, py_len. simpl length. rewrite length_app. simpl length. lia. Qed.

Lemma py_len_nonneg (s : str) : 0 <= py_len s.
Proof. unfold py_len. lia. Qed.

(** Two tokens, as the point and segment decoders read them. *)
Lemma two_tokens (a b : str) :
  py_len (encode [a; b]) <= sys_maxsize ->
  balanced a -> balanced b ->
  let s := encode [a; b] in
  exists p1 p2,
    count_remaining_tokens (__init__ s) = Ok 2 /\
    next_token (__init__ s) = Ok (a, p1) /\
    next_token p1 = Ok (b, p2).
Proof.
  intros Hmax Ha Hb s.
  exists {| _parse_string := s; _current_position := 0 + py_len a + 2 |},
         {| _parse_string := s;
            _current_position := 0 + py_len a + 2 + py_len b + 2 |}.
  split; [|split].
  - apply (count_encode [a; b]); [assumption | now repeat constructor].
  - apply (token_step s a (encode [b]) 0 Hmax ltac:(lia)); [|assumption].
    reflexivity.
  - apply (token_step s b [] (0 + py_len a + 2) Hmax); [|  |assumption].
    + pose proof (py_len_nonneg a). lia.
    + replace (Z.to_nat (0 + py_len a + 2)) with (length (wrap a)).
      2:{ pose proof (py_len_wrap a). unfold py_len in *. lia. }
      subst s. change (encode [a; b]) with (wrap a ++ wrap b ++ []).
      rewrite skipn_app, skipn_all, Nat.sub_diag. reflexivity.
Qed.

(** [Point2D.from_bracket_string] on two tokens. *)
Lemma point_from_two_tokens (rt : runtime) (a b : str) :
  py_len (encode [a; b]) <= sys_maxsize ->
  balanced a -> balanced b ->
  Point2D.from_bracket_string rt (encode [a; b])
  = match float_of_str rt a with
    | None => Raise (ValueError a)
    | Some x =>
        match float_of_str rt b with
        | None => Raise (ValueError b)
        | Some y => Ok (PyPoint2D x y)
        end
    end.
Proof.
  intros Hmax Ha Hb.
  destruct (two_tokens a b Hmax Ha Hb) as (p1 & p2 & Hc & H1 & H2).
  unfold Point2D.from_bracket_string. cbv zeta.
  rewrite Hc. cbn [obind Z.eqb Pos.eqb negb]. rewrite H1. cbn [obind].
  destruct (float_of_str rt a); [|reflexivity].
  rewrite H2. cbn [obind]. reflexivity.
Qed.

Lemma to_bracket_string_encode (rt : runtime) (x y : float) :
  Point2D.to_bracket_string rt x y
  = encode [str_of_float rt x; str_of_float rt y].
Proof.
  unfold Point2D.to_bracket_string, encode, wrap. cbn [map concat].
  cbn [py list_ascii_of_string app]. rewrite <- !app_assoc. cbn [app].
  rewrite ?app_nil_r. reflexivity.
Qed.

Lemma point_round_trip (rt : runtime) (x y : float) :
  reads_back rt x -> reads_back rt y ->
  py_len (Point2D.to_bracket_string rt x y) <= sys_maxsize ->
  Point2D.from_bracket_string rt (Point2D.to_bracket_string rt x y)
  = Ok (PyPoint2D x y).
Proof.
  intros [Px Rx] [Py Ry] Hmax. rewrite to_bracket_string_encode in *.
  rewrite point_from_two_tokens by (try assumption; now apply plain_balanced).
  now rewrite Rx, Ry.
Qed.

Lemma balanced_point (rt : runtime) (x y : float) :
  reads_back rt x -> reads_back rt y ->
  balanced (Point2D.to_bracket_string rt x y).
Proof.
  intros [Px _] [Py _]. rewrite to_bracket_string_encode.
  apply balanced_encode. repeat constructor; now apply plain_balanced.
Qed.

(** The text of a point that reads back. *)
Lemma point_text (rt : runtime) (point : pyval) :
  point_reads_back rt point ->
  exists t,
    methods.to_bracket_string rt point = Ok t /\ balanced t /\
    (py_len t <= sys_maxsize -> Point2D.from_bracket_string rt t = Ok point).
Proof.
  intros (x & y & -> & Hx & Hy). eexists. split; [reflexivity|]. split.
  - now apply balanced_point.
  - intros Hmax. now apply point_round_trip.
Qed.

(** X16. A point reads back from its bracket string: when the runtime writes
    the two coordinates without brackets and reads their texts back,
    [Point2D.from_bracket_string] of [to_bracket_string] is the point. *)
Theorem point2D_from_to_bracket_string (rt : runtime) (x y : float) :
  reads_back rt x -> reads_back rt y ->
  py_len (Point2D.to_bracket_string rt x y) <= sys_maxsize ->
  Point2D.from_bracket_string rt (Point2D.to_bracket_string rt x y)
  = Ok (PyPoint2D x y).
Proof. exact (point_round_trip rt x y). Qed.

(** [Point2D.from_bracket_string] on another number of tokens than two. *)
Lemma point_wrong_count (rt : runtime) (tokens : list str) :
  py_len (encode tokens) <= sys_maxsize ->
  Forall balanced tokens ->
  length tokens <> 2%nat ->
  Point2D.from_bracket_string rt (encode tokens)
  = Raise (Exception (py "Invalid Point2D bracket string: " ++ encode tokens)).
Proof.
  intros Hmax Hb Hn. unfold Point2D.from_bracket_string. cbv zeta.
  rewrite count_encode by assumption. cbn [obind].
  destruct (Z.eqb_spec (Z.of_nat (length tokens)) 2) as [E|_]; [lia|].
  reflexivity.
Qed.

(** X17. [Point2D.from_bracket_string] takes exactly two top-level tokens:
    on a bracket string with another number of tokens it raises the
    exception that quotes the string.  So it does not read the point-list
    format [[[x][y]]] that [to_point_list_bracket_string] writes, which is
    one token. *)
Theorem point2D_from_bracket_string_wants_two_tokens (rt : runtime) :
  (forall tokens : list str,
      py_len (encode tokens) <= sys_maxsize ->
      Forall balanced tokens ->
      length tokens <> 2%nat ->
      Point2D.from_bracket_string rt (encode tokens)
      = Raise (Exception (py "Invalid Point2D bracket string: "
                             ++ encode tokens)))
  /\
  (forall x y : float,
      plain (str_of_float rt x) -> plain (str_of_float rt y) ->
      let s := Point2D.to_point_list_bracket_string rt x y in
      py_len s <= sys_maxsize ->
      Point2D.from_bracket_string rt s
      = Raise (Exception (py "Invalid Point2D bracket string: " ++ s))).
Proof.
  split; [exact (point_wrong_count rt)|].
  intros x y Px Py s Hmax.
  assert (E : s = encode [Point2D.to_bracket_string rt x y]).
  { subst s. unfold Point2D.to_point_list_bracket_string, encode, wrap.
    cbn [map concat]. now rewrite app_nil_r. }
  rewrite E in *. apply point_wrong_count; [assumption | | simpl; lia].
  repeat constructor. rewrite to_bracket_string_encode.
  apply balanced_encode. repeat constructor; now apply plain_balanced.
Qed.

Lemma point2D_from_to_bracket_string_witness :
  let rt := {| float_of_str := fun _ => Some 2.5%float;
               float_of_int := fun _ => None;
               str_of_float := fun _ => py "2.5";
               int_of_float := fun _ => None;
               int_of_str := fun _ => None;
               repr_object := fun _ => py "<object>" |} in
  Point2D.from_bracket_string rt (Point2D.to_bracket_string rt 2.5 2.5)
  = Ok (PyPoint2D 2.5 2.5).
Proof.
  intros rt. apply point2D_from_to_bracket_string.
  - split; [split; simpl; intuition discriminate | reflexivity].
  - split; [split; simpl; intuition discriminate | reflexivity].
  - vm_compute. discriminate.
Defined.

Lemma point2D_from_bracket_string_wants_two_tokens_witness :
  Point2D.from_bracket_string stub.plain_runtime
    (Point2D.to_point_list_bracket_string stub.plain_runtime 1 2)
  = Raise (Exception
             (py "Invalid Point2D bracket string: "
                 ++ Point2D.to_point_list_bracket_string stub.plain_runtime 1 2)).
Proof.
  apply (proj2 (point2D_from_bracket_string_wants_two_tokens
                  stub.plain_runtime) 1%float 2%float).
  - split; simpl; intuition discriminate.
  - split; simpl; intuition discriminate.
  - vm_compute. discriminate.
Defined.

Lemma segment_round_trip (rt : runtime)
  (segment : LineSegment2D.LineSegment2D) (s : str) :
  point_reads_back rt (LineSegment2D._start_point segment) ->
  point_reads_back rt (LineSegment2D._end_point segment) ->
  LineSegment2D.to_point_list_bracket_string rt segment = Ok s ->
  py_len s <= sys_maxsize ->
  LineSegment2D.from_bracket_string rt s = Ok segment.
Proof.
  destruct segment as [p q]. cbn [LineSegment2D._start_point LineSegment2D._end_point].
  intros Hp Hq Hs Hmax.
  destruct (point_text rt p Hp) as (a & Ha & Ba & Ra).
  destruct (point_text rt q Hq) as (b & Hb & Bb & Rb).
  unfold LineSegment2D.to_point_list_bracket_string in Hs.
  cbn [LineSegment2D._start_point LineSegment2D._end_point] in Hs.
  rewrite Ha, Hb in Hs. cbn [obind] in Hs.
  assert (E : py "[" ++ a ++ py "][" ++ b ++ py "]" = encode [a; b]).
  { unfold encode, wrap. cbn [map concat].
    cbn [py list_ascii_of_string app]. rewrite <- !app_assoc. cbn [app].
    rewrite ?app_nil_r. reflexivity. }
  assert (Es : s = encode [a; b]) by (injection Hs as <-; exact E).
  subst s. clear Hs E.
  assert (La : py_len a <= sys_maxsize /\ py_len b <= sys_maxsize).
  { change (encode [a; b]) with (wrap a ++ wrap b ++ []) in Hmax.
    rewrite !py_len_app, !py_len_wrap in Hmax.
    pose proof (py_len_nonneg a). pose proof (py_len_nonneg b).
    unfold py_len in Hmax at 3. simpl length in Hmax. lia. }
  destruct (two_tokens a b Hmax Ba Bb) as (p1 & p2 & Hc & H1 & H2).
  unfold LineSegment2D.from_bracket_string. cbv zeta.
  rewrite Hc. cbn [obind Z.eqb Pos.eqb negb]. rewrite H1. cbn [obind].
  rewrite Ra by apply La. cbn [obind]. rewrite H2. cbn [obind].
  rewrite Rb by apply La. reflexivity.
Qed.

(** X18. A line segment reads back from its point-list bracket string: when
    the coordinates of its two points read back,
    [LineSegment2D.from_bracket_string] of [to_point_list_bracket_string] is
    the segment. *)
Theorem line_segment_from_to_bracket_string (rt : runtime)
  (segment : LineSegment2D.LineSegment2D) (s : str) :
  point_reads_back rt (LineSegment2D._start_point segment) ->
  point_reads_back rt (LineSegment2D._end_point segment) ->
  LineSegment2D.to_point_list_bracket_string rt segment = Ok s ->
  py_len s <= sys_maxsize ->
  LineSegment2D.from_bracket_string rt s = Ok segment.
Proof. exact (segment_round_trip rt segment s). Qed.

Lemma line_segment_from_to_bracket_string_witness :
  let rt := {| float_of_str := fun _ => Some 2.5%float;
               float_of_int := fun _ => None;
               str_of_float := fun _ => py "2.5";
               int_of_float := fun _ => None;
               int_of_str := fun _ => None;
               repr_object := fun _ => py "<object>" |} in
  let segment :=
    LineSegment2D.__init__ (PyPoint2D 2.5 2.5) (PyPoint2D 2.5 2.5) in
  LineSegment2D.from_bracket_string rt (py "[[2.5][2.5]][[2.5][2.5]]")
  = Ok segment.
Proof.
  intros rt segment. apply line_segment_from_to_bracket_string.
  - exists 2.5%float, 2.5%float. split; [reflexivity|].
    split; (split; [split; simpl; intuition discriminate | reflexivity]).
  - exists 2.5%float, 2.5%float. split; [reflexivity|].
    split; (split; [split; simpl; intuition discriminate | reflexivity]).
  - reflexivity.
  - vm_compute. discriminate.
Defined.

(** The texts of the points of a polygon. *)
Lemma polygon_texts (rt : runtime) (points : list pyval) :
  Forall (point_reads_back rt) points ->
  exists ts,
    length ts = length points /\
    Forall balanced ts /\
    (forall acc,
        Polygon2D.to_point_list_loop rt points acc = Ok (acc ++ encode ts)) /\
    (py_len (encode ts) <= sys_maxsize ->
     Forall2 (fun t point => Point2D.from_bracket_string rt t = Ok point)
             ts points).
Proof.
  induction 1 as [|point points Hp _ IH].
  - exists []. repeat split; try constructor.
    intros acc. cbn. now rewrite app_nil_r.
  - destruct IH as (ts & Hl & Hb & Hloop & Hback).
    destruct (point_text rt point Hp) as (t & Ht & Bt & Rt).
    exists (t :: ts). split; [simpl; now rewrite Hl|]. split; [now constructor|].
    split.
    + intros acc. cbn [Polygon2D.to_point_list_loop]. rewrite Ht. cbn [obind].
      rewrite Hloop. f_equal.
      change (encode (t :: ts)) with (wrap t ++ encode ts).
      rewrite <- app_assoc. reflexivity.
    + intros Hmax.
      change (encode (t :: ts)) with (wrap t ++ encode ts) in Hmax.
      rewrite py_len_app, py_len_wrap in Hmax.
      pose proof (py_len_nonneg t). pose proof (py_len_nonneg (encode ts)).
      constructor; [apply Rt; lia | apply Hback; lia].
Qed.

(** The decoding loop of a polygon, from a position whose rest is the
    encoding of point texts. *)
Lemma points_loop_encode (rt : runtime) (ts : list str) :
  forall (points : list pyval) (fuel : nat) (s : str) (p : Z) (acc : list pyval),
    py_len s <= sys_maxsize ->
    0 <= p <= py_len s ->
    Forall balanced ts ->
    Forall2 (fun t point => Point2D.from_bracket_string rt t = Ok point)
            ts points ->
    skipn (Z.to_nat p) s = encode ts ->
    (length ts < fuel)%nat ->
    Polygon2D.points_loop rt fuel {| _parse_string := s; _current_position := p |}
      acc
    = Ok (acc ++ points).
Proof.
  induction ts as [|t ts IH]; intros points fuel s p acc Hmax Hp Hb Hr Hs Hf;
    (destruct fuel as [|fuel]; [simpl in Hf; lia|]);
    cbn [Polygon2D.points_loop].
  - inversion Hr; subst.
    rewrite has_next_token_end by (assumption || lia).
    cbn [obind]. now rewrite app_nil_r.
  - inversion Hr as [|? point ? points' Ht Hr']; subst.
    inversion Hb as [|? ? Bt Bs]; subst.
    change (encode (t :: ts)) with (wrap t ++ encode ts) in Hs.
    destruct (token_step s t (encode ts) p Hmax (proj1 Hp) Hs Bt)
      as (Hh & Hn & _ & Hrest).
    assert (Hlen : py_len s = p + py_len (wrap t ++ encode ts)).
    { apply ParsingFacts.py_len_from_suffix; [lia | assumption | discriminate]. }
    rewrite py_len_app, py_len_wrap in Hlen.
    pose proof (py_len_nonneg (encode ts)). pose proof (py_len_nonneg t).
    rewrite Hh. cbn [obind]. rewrite Hn. cbn [obind]. rewrite Ht. cbn [obind].
    rewrite (IH points'); try assumption.
    + now rewrite <- app_assoc.
    + lia.
    + simpl in Hf. lia.
Qed.

Lemma polygon_round_trip (rt : runtime)
  (polygon : Polygon2D.Polygon2D) (s : str) :
  Forall (point_reads_back rt) (Polygon2D._points polygon) ->
  Polygon2D.to_point_list_bracket_string rt polygon = Ok s ->
  py_len s <= sys_maxsize ->
  Polygon2D.from_bracket_string rt s
  = if Polygon2D.point_count polygon <? 3 then
      Raise (Exception (py "Invalid Polygon2D bracket string: " ++ s))
    else Ok polygon.
Proof.
  destruct polygon as [points]. cbn [Polygon2D._points].
  intros Hp Hs Hmax.
  destruct (polygon_texts rt points Hp) as (ts & Hl & Hb & Hloop & Hback).
  unfold Polygon2D.to_point_list_bracket_string in Hs.
  cbn [Polygon2D._points] in Hs. rewrite Hloop in Hs. cbn [app] in Hs.
  injection Hs as <-.
  unfold Polygon2D.from_bracket_string, Polygon2D.point_count. cbv zeta.
  cbn [Polygon2D._points].
  rewrite count_encode by assumption. cbn [obind]. rewrite Hl.
  destruct (Z.of_nat (length points) <? 3); [reflexivity|].
  unfold __init__.
  rewrite (points_loop_encode rt ts points); try assumption.
  - reflexivity.
  - pose proof (py_len_nonneg (encode ts)). lia.
  - now apply Hback.
  - reflexivity.
  - pose proof (ParsingFacts.encode_length ts). lia.
Qed.

(** X19. A polygon of at least three points reads back from its point-list
    bracket string, and a polygon of fewer points does not:
    [Polygon2D.from_bracket_string] of [to_point_list_bracket_string] is the
    polygon when it has three points or more, and otherwise raises the
    exception that quotes the string. *)
Theorem polygon_from_to_bracket_string (rt : runtime)
  (polygon : Polygon2D.Polygon2D) (s : str) :
  Forall (point_reads_back rt) (Polygon2D._points polygon) ->
  Polygon2D.to_point_list_bracket_string rt polygon = Ok s ->
  py_len s <= sys_maxsize ->
  Polygon2D.from_bracket_string rt s
  = if Polygon2D.point_count polygon <? 3 then
      Raise (Exception (py "Invalid Polygon2D bracket string: " ++ s))
    else Ok polygon.
Proof. exact (polygon_round_trip rt polygon s). Qed.

Lemma polygon_from_to_bracket_string_witness :
  let rt := {| float_of_str := fun _ => Some 2.5%float;
               float_of_int := fun _ => None;
               str_of_float := fun _ => py "2.5";
               int_of_float := fun _ => None;
               int_of_str := fun _ => None;
               repr_object := fun _ => py "<object>" |} in
  let polygon := Polygon2D.__init__ [PyPoint2D 2.5 2.5; PyPoint2D 2.5 2.5] in
  Polygon2D.from_bracket_string rt (py "[[2.5][2.5]][[2.5][2.5]]")
  = if Polygon2D.point_count polygon <? 3 then
      Raise (Exception (py "Invalid Polygon2D bracket string: "
                           ++ py "[[2.5][2.5]][[2.5][2.5]]"))
    else Ok polygon.
Proof.
  intros rt polygon. apply polygon_from_to_bracket_string.
  - repeat constructor;
      (exists 2.5%float, 2.5%float; split; [reflexivity|];
       split; (split; [split; simpl; intuition discriminate | reflexivity])).
  - reflexivity.
  - vm_compute. discriminate.
Defined.


(** The text of a segment or of a polygon nests its delimiters properly. *)
Lemma balanced_segment_text (rt : runtime)
  (segment : LineSegment2D.LineSegment2D) (s : str) :
  point_reads_back rt (LineSegment2D._start_point segment) ->
  point_reads_back rt (LineSegment2D._end_point segment) ->
  LineSegment2D.to_point_list_bracket_string rt segment = Ok s ->
  balanced s.
Proof.
  destruct segment as [p q].
  cbn [LineSegment2D._start_point LineSegment2D._end_point].
  intros Hp Hq Hs.
  destruct (point_text rt p Hp) as (a & Ha & Ba & _).
  destruct (point_text rt q Hq) as (b & Hb & Bb & _).
  unfold LineSegment2D.to_point_list_bracket_string in Hs.
  cbn [LineSegment2D._start_point LineSegment2D._end_point] in Hs.
  rewrite Ha, Hb in Hs. cbn [obind] in Hs.
  assert (E : py "[" ++ a ++ py "][" ++ b ++ py "]" = encode [a; b]).
  { unfold encode, wrap. cbn [map concat].
    cbn [py list_ascii_of_string app]. rewrite <- !app_assoc. cbn [app].
    rewrite ?app_nil_r. reflexivity. }
  assert (Es : s = encode [a; b]) by (injection Hs as <-; exact E).
  subst s. apply balanced_encode. now repeat constructor.
Qed.

Lemma balanced_polygon_text (rt : runtime) (polygon : Polygon2D.Polygon2D)
  (s : str) :
  Forall (point_reads_back rt) (Polygon2D._points polygon) ->
  Polygon2D.to_point_list_bracket_string rt polygon = Ok s ->
  balanced s.
Proof.
  destruct polygon as [points]. cbn [Polygon2D._points]. intros Hp Hs.
  destruct (polygon_texts rt points Hp) as (ts & _ & Hb & Hloop & _).
  unfold Polygon2D.to_point_list_bracket_string in Hs.
  cbn [Polygon2D._points] in Hs. rewrite Hloop in Hs. cbn [app] in Hs.
  injection Hs as <-. now apply balanced_encode.
Qed.

(** [location_of_string] on a type name and a data string. *)
Lemma location_of_two_tokens (rt : runtime) (type_string data_string : str) :
  py_len (encode [type_string; data_string]) <= sys_maxsize ->
  balanced type_string -> balanced data_string ->
  CadEntity.location_of_string rt (encode [type_string; data_string])
  = if str_eqb type_string (py "Point2D") then
      p <- Point2D.from_bracket_string rt data_string ;;
      Ok (CadEntity.Point p)
    else if str_eqb type_string (py "LineSeg2D") then
      s <- LineSegment2D.from_bracket_string rt data_string ;;
      Ok (CadEntity.LineSegment s)
    else if str_eqb type_string (py "Polyline2D") then
      Raise (Exception (py "Unsupported [GET_LOCATION_USER] geometry type: Polyline2D"))
    else if str_eqb type_string (py "Polygon2D") then
      p <- Polygon2D.from_bracket_string rt data_string ;;
      Ok (CadEntity.Polygon p)
    else if str_eqb type_string (py "Rect2D") then
      Raise (Exception (py "Unsupported [GET_LOCATION_USER] geometry type: Rect2D"))
    else if str_eqb type_string (py "Compound2D") then
      Raise (Exception (py "Unsupported [GET_LOCATION_USER] geometry type: Compound2D"))
    else if str_eqb type_string (py "BoundaryShape2D") then
      Raise (Exception (py "Unsupported [GET_LOCATION_USER] geometry type: BoundaryShape2D"))
    else if str_eqb type_string (py "Circle") then
      Raise (Exception (py "Unsupported [GET_LOCATION_USER] geometry type: Circle"))
    else
      Raise (Exception (py "Unknown [GET_LOCATION_USER] geometry type: "
                           ++ type_string)).
Proof.
  intros Hmax Ha Hb.
  destruct (two_tokens _ _ Hmax Ha Hb) as (p1 & p2 & Hc & H1 & H2).
  unfold CadEntity.location_of_string. cbv zeta.
  rewrite Hc. cbn [obind Z.eqb Pos.eqb negb]. rewrite H1. cbn [obind].
  rewrite H2. reflexivity.
Qed.

Lemma data_len (type_string data_string : str) :
  py_len (encode [type_string; data_string]) <= sys_maxsize ->
  py_len data_string <= sys_maxsize.
Proof.
  change (encode [type_string; data_string])
    with (wrap type_string ++ wrap data_string ++ []).
  rewrite !py_len_app, !py_len_wrap.
  pose proof (py_len_nonneg type_string). unfold py_len at 3. simpl length. lia.
Qed.

(** X20. [_get_location] reads back the three kinds of location it supports
    and refuses every other kind.  From a reply of two tokens, a type name
    and a data string, it returns the point for [Point2D] and the
    [[x][y]] text of a point, the segment for [LineSeg2D] and the point-list
    text of a segment, the polygon for [Polygon2D] and the point-list text of
    a polygon of three points or more; for any other type name it raises. *)
Theorem get_location_decodes (rt : runtime) (server : concept.process)
  (self : Data) (c : concept.Concept) (type_string data_string : str) :
  server (concept.posted c)
    (concept._nextRequestId c,
     py "[WITH_TARGET][" ++ str_of_int (_uid self) ++ py "]["
        ++ py "[GET_LOCATION_USER]" ++ py "]")
  = concept.HttpText
      (py "[SUCCESS][" ++ encode [type_string; data_string] ++ py "]") ->
  py_len (encode [type_string; data_string]) <= sys_maxsize ->
  balanced type_string ->
  let result := fst (CadEntity._get_location rt server self c) in
  (forall x y,
      type_string = py "Point2D" ->
      reads_back rt x -> reads_back rt y ->
      data_string = Point2D.to_bracket_string rt x y ->
      result = Ok (CadEntity.Point (PyPoint2D x y)))
  /\
  (forall segment,
      type_string = py "LineSeg2D" ->
      point_reads_back rt (LineSegment2D._start_point segment) ->
      point_reads_back rt (LineSegment2D._end_point segment) ->
      LineSegment2D.to_point_list_bracket_string rt segment = Ok data_string ->
      result = Ok (CadEntity.LineSegment segment))
  /\
  (forall polygon,
      type_string = py "Polygon2D" ->
      Forall (point_reads_back rt) (Polygon2D._points polygon) ->
      3 <= Polygon2D.point_count polygon ->
      Polygon2D.to_point_list_bracket_string rt polygon = Ok data_string ->
      result = Ok (CadEntity.Polygon polygon))
  /\
  (balanced data_string ->
   ~ In type_string [py "Point2D"; py "LineSeg2D"; py "Polygon2D"] ->
   exists msg, result = Raise (Exception msg)).
Proof.
  intros Hreply Hmax Ht result.
  assert (Hrun : result
                 = CadEntity.location_of_string rt
                     (encode [type_string; data_string])).
  { subst result.
    unfold CadEntity._get_location, concept.bind, data._command.
    erewrite Wire.command_run by exact Hreply.
    rewrite Transport.unwrap_success. reflexivity. }
  rewrite Hrun. clear Hrun result.
  pose proof (data_len _ _ Hmax) as Hdl.
  repeat split.
  - intros x y -> Hx Hy ->.
    rewrite location_of_two_tokens
      by (try assumption; now apply balanced_point). change (str_eqb (py "Point2D") (py "Point2D")) with true.
    cbv iota. now rewrite point_round_trip.
  - intros segment -> Hp Hq Hs.
    rewrite location_of_two_tokens
      by (try assumption; now apply (balanced_segment_text rt segment)).
    change (str_eqb (py "LineSeg2D") (py "Point2D")) with false.
    change (str_eqb (py "LineSeg2D") (py "LineSeg2D")) with true.
    cbv iota. now rewrite (segment_round_trip rt segment).
  - intros polygon -> Hp Hn Hs.
    rewrite location_of_two_tokens
      by (try assumption; now apply (balanced_polygon_text rt polygon)).
    change (str_eqb (py "Polygon2D") (py "Point2D")) with false.
    change (str_eqb (py "Polygon2D") (py "LineSeg2D")) with false.
    change (str_eqb (py "Polygon2D") (py "Polyline2D")) with false.
    change (str_eqb (py "Polygon2D") (py "Polygon2D")) with true.
    cbv iota. rewrite (polygon_round_trip rt polygon) by assumption.
    destruct (Z.ltb_spec (Polygon2D.point_count polygon) 3); [lia|].
    reflexivity.
  - intros Hd Hnot. rewrite location_of_two_tokens by assumption.
    destruct (str_eqb type_string (py "Point2D")) eqn:E1.
    { apply str_eqb_eq in E1. exfalso. apply Hnot. simpl. auto. }
    destruct (str_eqb type_string (py "LineSeg2D")) eqn:E2.
    { apply str_eqb_eq in E2. exfalso. apply Hnot. simpl. auto. }
    destruct (str_eqb type_string (py "Polyline2D")); [eexists; reflexivity|].
    destruct (str_eqb type_string (py "Polygon2D")) eqn:E3.
    { apply str_eqb_eq in E3. exfalso. apply Hnot. simpl. auto. }
    repeat (match goal with
            | |- context [if ?b then _ else _] => destruct b
            end; [eexists; reflexivity|]).
    eexists; reflexivity.
Qed.

Lemma get_location_decodes_witness :
  let rt := {| float_of_str := fun _ => Some 2.5%float;
               float_of_int := fun _ => None;
               str_of_float := fun _ => py "2.5";
               int_of_float := fun _ => None;
               int_of_str := fun _ => None;
               repr_object := fun _ => py "<object>" |} in
  fst (CadEntity._get_location rt
         (fun _ _ => concept.HttpText (py "[SUCCESS][[Point2D][[2.5][2.5]]]"))
         (data.PointLoad 7 1)
         {| concept._nextRequestId := 1; concept.posted := [] |})
  = Ok (CadEntity.Point (PyPoint2D 2.5 2.5)).
Proof.
  intros rt.
  apply (proj1 (get_location_decodes rt
                  (fun _ _ => concept.HttpText
                                (py "[SUCCESS][[Point2D][[2.5][2.5]]]"))
                  (data.PointLoad 7 1)
                  {| concept._nextRequestId := 1; concept.posted := [] |}
                  (py "Point2D") (py "[2.5][2.5]") eq_refl
                  ltac:(vm_compute; discriminate) eq_refl)
           2.5%float 2.5%float).
  - reflexivity.
  - split; [split; simpl; intuition discriminate | reflexivity].
  - split; [split; simpl; intuition discriminate | reflexivity].
  - reflexivity.
Defined.

End Geometry.

(* ------------------------------------------------------------------------- *)
(** ** Loading types *)

Module Loading.
Import LoadingCause LoadingType.

Lemma py_slice_from_app (p r : str) : py_slice_from (p ++ r) (py_len p) = r.
Proof.
  unfold py_slice_from, py_slice, py_len. rewrite length_app.
  rewrite !norm_index_nonneg by lia. rewrite !Z.min_l by lia.
  rewrite Nat2Z.id, skipn_app, skipn_all, Nat.sub_diag. cbn [app skipn].
  replace (Z.to_nat _) with (length r) by lia. apply firstn_all.
Qed.

Lemma py_slice_to_app (d suffix : str) :
  py_slice_to (d ++ suffix) (py_len (d ++ suffix) - py_len suffix) = d.
Proof.
  unfold py_slice_to, py_slice, py_len. rewrite length_app.
  rewrite !norm_index_nonneg by lia. rewrite !Z.min_l by lia.
  cbn [Z.to_nat skipn].
  replace (Z.to_nat _) with (length d) by lia.
  rewrite firstn_app, Nat.sub_diag, firstn_all. cbn [firstn]. apply app_nil_r.
Qed.

Lemma py_endswith_app (d suffix : str) : py_endswith (d ++ suffix) suffix = true.
Proof.
  unfold py_endswith. rewrite length_app.
  replace (length d + length suffix - length suffix)%nat with (length d) by lia.
  rewrite skipn_app, skipn_all, Nat.sub_diag. cbn [app skipn].
  rewrite str_eqb_refl, andb_true_r. apply Nat.leb_le. lia.
Qed.

(** A numeral does not end in a word. *)
Lemma py_endswith_numeral (z : Z) :
  py_endswith (str_of_int z) (py "_transfer") = false.
Proof.
  unfold py_endswith.
  destruct (str_eqb _ _) eqn:E; [|apply andb_false_r].
  apply str_eqb_eq in E. exfalso.
  assert (Hin : In "_"%char (str_of_int z)).
  { rewrite <- (firstn_skipn (length (str_of_int z) - length (py "_transfer"))).
    apply in_or_app. right. rewrite E. now left. }
  pose proof (Numerals.str_of_int_chars z) as F. rewrite Forall_forall in F.
  specialize (F _ Hin). simpl in F.
  repeat (destruct F as [F|F]; [discriminate|]). exact F.
Qed.

Lemma numeral_not_empty (z : Z) : (py_len (str_of_int z) =? 0) = false.
Proof.
  destruct (Numerals.str_of_int_head z) as (c & r & -> & _).
  apply Z.eqb_neq. unfold py_len. simpl length. lia.
Qed.

Lemma py_startswith_app_self (v rest : str) :
  py_startswith (v ++ rest) v = true.
Proof.
  induction v as [|c v IH]; cbn [app py_startswith]; [reflexivity|].
  now rewrite Ascii.eqb_refl, IH.
Qed.

(** A text that starts with [v] does not start with a word that differs from
    [v] among the first characters. *)
Lemma py_startswith_app_other (v rest p : str) :
  py_startswith v (firstn (length v) p) = false ->
  py_startswith (v ++ rest) p = false.
Proof.
  revert p. induction v as [|d v IH]; intros p H.
  - discriminate.
  - destruct p as [|c p]; [discriminate|].
    cbn [length firstn app py_startswith] in *.
    destruct (Ascii.eqb d c); [|reflexivity]. cbn [andb] in *. now apply IH.
Qed.

Lemma find_cause_none (value : str) (causes : list LoadingCause.LoadingCause) :
  Forall (fun cause => py_startswith value (LoadingCause._to_internal cause) = false)
         causes ->
  find_cause causes value = None.
Proof.
  induction 1 as [|cause causes H _ IH]; cbn [find_cause]; [reflexivity|].
  cbv zeta. now rewrite H.
Qed.

(** Decoding the text of an indexed variation. *)
Lemma to_API_indexed (rt : runtime) (cause : LoadingCause.LoadingCause)
  (index : Z) (is_transfer : bool) :
  can_have_indexed_variations cause = true ->
  0 < index ->
  int_of_str rt (str_of_int index) = Some index ->
  _to_API rt (LoadingCause.value cause ++ str_of_int index
                ++ if is_transfer then py "_transfer" else [])
  = Outcome (__init__ cause is_transfer index).
Proof.
  intros Hc Hi Hint.
  set (rest := str_of_int index ++ if is_transfer then py "_transfer" else []).
  assert (Hf : find_cause LoadingCause.members (LoadingCause.value cause ++ rest)
               = Some (cause, rest)).
  { destruct cause; try discriminate Hc;
      unfold LoadingCause.members; cbn [find_cause]; cbv zeta;
      unfold LoadingCause._to_internal;
      repeat (rewrite py_startswith_app_other by reflexivity);
      rewrite py_startswith_app_self, py_slice_from_app; reflexivity. }
  unfold _to_API. rewrite Hf. cbv zeta. subst rest.
  assert (Hgt : (index >? 0) = true) by (apply Z.gtb_lt; lia).
  destruct is_transfer.
  - rewrite py_endswith_app, py_slice_to_app, numeral_not_empty, Hint, Hgt.
    reflexivity.
  - rewrite app_nil_r, py_endswith_numeral, numeral_not_empty, Hint, Hgt.
    reflexivity.
Qed.


(** Decoding the text of a loading type that the constructor accepts. *)
Lemma loading_round_trip (rt : runtime)
  (cause : LoadingCause.LoadingCause) (is_transfer : bool) (index : Z)
  (loading_type : LoadingType.LoadingType) :
  __init__ cause is_transfer index = Ok loading_type ->
  int_of_str rt (str_of_int index) = Some index ->
  _to_API rt (_to_internal loading_type) = Outcome (Ok loading_type).
Proof.
  intros H Hint. pose proof H as H0. unfold __init__ in H.
  destruct (Z.eqb_spec index 0) as [->|Hne]; cbn [negb andb] in H.
  - (* no index: the text is one of finitely many *)
    destruct cause, is_transfer; try discriminate H;
      injection H as <-; vm_compute; reflexivity.
  - destruct (can_have_indexed_variations cause) eqn:Hc; cbn [negb] in H;
      [|destruct (is_transfer && _); discriminate].
    destruct (is_transfer && _); [discriminate|].
    destruct (Z.ltb_spec index 0) as [|Hge]; [discriminate|].
    injection H as <-.
    unfold _to_internal. cbn [_cause _index _is_transfer]. cbv zeta.
    assert (Hgt : (index >? 0) = true) by (apply Z.gtb_lt; lia).
    rewrite Hgt. unfold LoadingCause._to_internal.
    rewrite <- H0.
    replace (if is_transfer
             then (value cause ++ str_of_int index) ++ py "_transfer"
             else value cause ++ str_of_int index)
      with (value cause ++ str_of_int index
              ++ if is_transfer then py "_transfer" else []).
    + apply to_API_indexed; [assumption | lia | assumption].
    + destruct is_transfer; [now rewrite app_assoc | now rewrite app_nil_r].
Qed.

(** X21. A loading type reads back from its internal string: for every
    loading type that the constructor accepts, [_to_API] of [_to_internal]
    returns the same cause, transfer flag and index, provided [int] reads
    back the numeral of the index. *)
Theorem loading_type_to_API_inverts_to_internal (rt : runtime)
  (cause : LoadingCause.LoadingCause) (is_transfer : bool) (index : Z)
  (loading_type : LoadingType.LoadingType) :
  __init__ cause is_transfer index = Ok loading_type ->
  int_of_str rt (str_of_int index) = Some index ->
  _to_API rt (_to_internal loading_type) = Outcome (Ok loading_type).
Proof. exact (loading_round_trip rt cause is_transfer index loading_type). Qed.

Lemma loading_type_to_API_inverts_to_internal_witness :
  _to_API stub.plain_runtime
    (_to_internal {| _cause := WIND_SERVICE; _index := 12;
                     _is_transfer := true |})
  = Outcome (Ok {| _cause := WIND_SERVICE; _index := 12;
                   _is_transfer := true |}).
Proof.
  apply (loading_type_to_API_inverts_to_internal stub.plain_runtime
           WIND_SERVICE true 12).
  - reflexivity.
  - reflexivity.
Defined.

(** X22. On a text that starts with none of the internal strings of the
    loading causes, [_to_API] does not raise its exception for an unexpected
    value: the loop ends without binding [remaining_value], and the test
    that follows it ends the call with an [UnboundLocalError]. *)
Theorem loading_type_to_API_unknown_cause (rt : runtime) (value : str) :
  Forall (fun cause =>
            py_startswith value (LoadingCause._to_internal cause) = false)
         LoadingCause.members ->
  _to_API rt value = UnboundLocalError (py "remaining_value").
Proof.
  intros H. unfold _to_API. now rewrite find_cause_none.
Qed.

Lemma loading_type_to_API_unknown_cause_witness :
  _to_API stub.plain_runtime (py "dead") = UnboundLocalError (py "remaining_value").
Proof.
  apply loading_type_to_API_unknown_cause.
  repeat constructor.
Defined.


(** X23. The internal string identifies the loading type: two loading types
    that the constructor accepts and that have the same internal string have
    the same cause, transfer flag and index. *)
Theorem loading_type_internal_strings_are_unique
  (cause1 cause2 : LoadingCause.LoadingCause) (is_transfer1 is_transfer2 : bool)
  (index1 index2 : Z) (a b : LoadingType.LoadingType) :
  __init__ cause1 is_transfer1 index1 = Ok a ->
  __init__ cause2 is_transfer2 index2 = Ok b ->
  _to_internal a = _to_internal b ->
  a = b.
Proof.
  intros Ha Hb E.
  pose proof (loading_round_trip stub.plain_runtime _ _ _ _ Ha
                (Numerals.decimal_int_str_of_int index1)) as Ra.
  pose proof (loading_round_trip stub.plain_runtime _ _ _ _ Hb
                (Numerals.decimal_int_str_of_int index2)) as Rb.
  rewrite E, Rb in Ra. now injection Ra.
Qed.

Lemma loading_type_internal_strings_are_unique_witness :
  {| _cause := OTHER_GRAVITY; _index := 0; _is_transfer := true |}
  = {| _cause := OTHER_GRAVITY; _index := 0; _is_transfer := true |}.
Proof.
  apply (loading_type_internal_strings_are_unique
           OTHER_GRAVITY OTHER_GRAVITY true true 0 0);
    reflexivity.
Defined.

Section FixedCauses.
Import concept data LoadingLayer.
Variable rt : runtime.
Variable server : process.
Variable self : Data.
Variable c : Concept.

Local Abbreviation read_request :=
  (_nextRequestId c,
   py "[WITH_TARGET][" ++ str_of_int (_uid self) ++ py "]["
      ++ (py "[" ++ py "GET_PROP_INTERNAL" ++ py "][" ++ py "LoadingType"
             ++ py "]")
      ++ py "]").

(** X24. [_set_loading_type] leaves the five fixed loading causes alone.
    When the cause of the new loading type cannot be changed in a loading,
    the call does not return normally and posts no write: what it posts is
    at most the read of the current loading type.  When the current loading
    type of a writable layer has such a cause, the call raises after that
    read. *)
Theorem set_loading_type_keeps_fixed_causes (value : LoadingType.LoadingType) :
  let run := _set_loading_type rt server self value c in
  (LoadingCause.is_changable_in_loading (_cause value) = false ->
   fst run <> Ok (Returned tt) /\
   (posted (snd run) = posted c \/
    posted (snd run) = posted c ++ [read_request]))
  /\
  (forall text current,
      _read_only self = false ->
      server (posted c) read_request
      = HttpText (py "[SUCCESS][" ++ text ++ py "]") ->
      _to_API rt text = Outcome (Ok current) ->
      LoadingCause.is_changable_in_loading (_cause current) = false ->
      fst run
      = Raise (Exception
                 (py "LoadingLayer with loading_type of "
                     ++ LoadingCause.name (_cause current)
                     ++ py "cannot have its loading_type changed.")) /\
      posted (snd run) = posted c ++ [read_request]).
Proof.
  intros run. subst run. split.
  - intros Hfixed.
    unfold _set_loading_type, _set_property_raise_if_read_only.
    destruct (_read_only self).
    { split; [discriminate | now left]. }
    rewrite Properties.bind_lift_ok.
    unfold _get_loading_type, _get_string_property, _get_property,
      data._command, bind.
    match goal with |- context [concept._command server ?cmd c] =>
      pose proof (Transport.command_state server cmd c) as S;
      destruct (concept._command server cmd c) as [[text|e|] c1] end;
      cbn [snd] in S; subst c1;
      try (split; [discriminate | now right]).
    destruct (_to_API rt text) as [[current|e|]|variable]; cbn [lift ret];
      try (split; [discriminate | now right]).
    destruct (negb (LoadingCause.is_changable_in_loading (_cause current)));
      [split; [discriminate | now right]|].
    rewrite Hfixed. cbn [negb]. split; [discriminate | now right].
  - intros text current Hro Hreply Hcur Hfixed.
    unfold _set_loading_type, _set_property_raise_if_read_only. rewrite Hro.
    rewrite Properties.bind_lift_ok.
    unfold _get_loading_type, _get_string_property, _get_property,
      data._command, bind.
    erewrite Wire.command_run by exact Hreply.
    rewrite Transport.unwrap_success, Hcur. cbn [lift ret].
    rewrite Hfixed. cbn [negb]. split; reflexivity.
Qed.

(** X25. [_set_analysis_type] only writes an analysis type that is valid for
    the loading cause of the layer: when the loading type read from a
    writable layer has a cause for which the new analysis type is not valid,
    the call raises after that one read, and no write is posted. *)
Theorem set_analysis_type_checks_loading_cause
  (value : LoadingAnalysisType.LoadingAnalysisType) (text : str)
  (current : LoadingType.LoadingType) :
  _read_only self = false ->
  server (posted c) read_request
  = HttpText (py "[SUCCESS][" ++ text ++ py "]") ->
  _to_API rt text = Outcome (Ok current) ->
  LoadingAnalysisType.valid_for_loading_cause value (_cause current) = false ->
  let run := _set_analysis_type rt server self value c in
  fst run
  = Raise (Exception
             (py "Cannot set LoadingAnalysisType "
                 ++ LoadingAnalysisType.name value
                 ++ py "in LoadingLayer with loading cause "
                 ++ LoadingCause.name (_cause current) ++ py ".")) /\
  posted (snd run) = posted c ++ [read_request].
Proof.
  intros Hro Hreply Hcur Hinvalid run. subst run.
  unfold _set_analysis_type, _set_property_raise_if_read_only. rewrite Hro.
  rewrite Properties.bind_lift_ok.
  unfold _get_loading_type, _get_string_property, _get_property,
    data._command, bind.
  erewrite Wire.command_run by exact Hreply.
  rewrite Transport.unwrap_success, Hcur. cbn [lift ret].
  rewrite Hinvalid. cbn [negb]. split; reflexivity.
Qed.

End FixedCauses.

Lemma set_loading_type_keeps_fixed_causes_witness :
  let c := {| concept._nextRequestId := 1; concept.posted := [] |} in
  let run :=
    LoadingLayer._set_loading_type stub.plain_runtime
      (fun _ _ => concept.HttpText (py "[SUCCESS][other_dead]"))
      {| _uid := 100; _model := 1; _read_only := false;
         class_name := py "ForceLoadingLayer" |}
      {| _cause := TEMPERATURE; _index := 0; _is_transfer := false |} c in
  fst run <> Ok (LoadingLayer.Returned tt) /\
  (concept.posted (snd run) = concept.posted c \/
   concept.posted (snd run)
   = concept.posted c
       ++ [(1, py "[WITH_TARGET][100][[GET_PROP_INTERNAL][LoadingType]]")]).
Proof.
  intros c run.
  apply (proj1 (set_loading_type_keeps_fixed_causes stub.plain_runtime
                  (fun _ _ => concept.HttpText (py "[SUCCESS][other_dead]"))
                  {| _uid := 100; _model := 1; _read_only := false;
                     class_name := py "ForceLoadingLayer" |} c
                  {| _cause := TEMPERATURE; _index := 0;
                     _is_transfer := false |})).
  reflexivity.
Defined.

Lemma set_analysis_type_checks_loading_cause_witness :
  let c := {| concept._nextRequestId := 1; concept.posted := [] |} in
  let run :=
    LoadingLayer._set_analysis_type stub.plain_runtime
      (fun _ _ => concept.HttpText (py "[SUCCESS][live_roof_transfer]"))
      {| _uid := 100; _model := 1; _read_only := false;
         class_name := py "ForceLoadingLayer" |}
      LoadingAnalysisType.HYPERSTATIC c in
  fst run
  = Raise (Exception
             (py "Cannot set LoadingAnalysisType HYPERSTATICin LoadingLayer with loading cause LIVE_ROOF."))
  /\
  concept.posted (snd run)
  = [(1, py "[WITH_TARGET][100][[GET_PROP_INTERNAL][LoadingType]]")].
Proof.
  intros c run.
  apply (set_analysis_type_checks_loading_cause stub.plain_runtime
           (fun _ _ => concept.HttpText (py "[SUCCESS][live_roof_transfer]"))
           {| _uid := 100; _model := 1; _read_only := false;
              class_name := py "ForceLoadingLayer" |} c
           LoadingAnalysisType.HYPERSTATIC (py "live_roof_transfer")
           {| _cause := LIVE_ROOF; _index := 0; _is_transfer := true |});
    reflexivity.
Defined.

End Loading.
